(** * Input sanitization and multipole caching of nonAdiabaticCoupling

    A shallow embedding of
      - [nanoqm/workflows/input_validation.py] (class [InputSanitizer]) and
      - [nac/integrals/multipole_matrices.py]
    together with the properties of the derived settings that the
    specification states about them.

    Python dictionaries are finite maps with string keys.  The sanitizer
    mutates one shared dictionary in place ([self.user_input]); the alias
    [self.general] and the loop variables that range over the two job
    specifications are references into that dictionary, so they are modelled
    as paths into a single configuration tree that is threaded through a
    state-and-exception monad. *)

From Stdlib Require Import ZArith Lia.
From stdpp Require Import base option list strings gmap pretty.

Open Scope string_scope.
Open Scope Z_scope.

(** ** Python values *)

(** A mapping is either a plain [dict] or a [qmflows.Settings] tree. *)
Inductive kind := Plain | Sett.

#[warnings="-register-all"]
Inductive value :=
| VNone
| VBool (b : bool)
| VInt (n : Z)
| VFloat (bits : Z)              (* an IEEE-754 double, kept as its bit pattern *)
| VStr (s : string)
| VList (xs : list value)
| VTuple (xs : list value)
| VDict (k : kind) (m : gmap string value).

Inductive exn :=
| KeyError (k : string)
| AttributeError
| TypeError
| IndexError
| OSError
| TemplateError.

Inductive result (A : Type) :=
| Ok (a : A)
| Err (e : exn).
Arguments Ok {A} a.
Arguments Err {A} e.

Definition rbind {A B} (r : result A) (k : A -> result B) : result B :=
  match r with
  | Ok a => k a
  | Err e => Err e
  end.

Definition is_none (v : value) : bool :=
  match v with VNone => true | _ => false end.

(** Python truth value testing. *)
Definition truthy (v : value) : bool :=
  match v with
  | VNone => false
  | VBool b => b
  | VInt n => negb (n =? 0)
  | VFloat bits => negb (Z.land bits (Z.ones 63) =? 0)
  | VStr s => negb (String.eqb s "")
  | VList xs | VTuple xs => match xs with [] => false | _ => true end
  | VDict _ m => negb (bool_decide (m = ∅))
  end.

(** Integers as operands of [+], [-] and [>]; a [bool] is an [int]. *)
Definition as_int (v : value) : result Z :=
  match v with
  | VInt n => Ok n
  | VBool b => Ok (if b then 1 else 0)
  | _ => Err TypeError
  end.

(** [xs[i]] on a list or a tuple. *)
Definition py_index (v : value) (i : nat) : result value :=
  match v with
  | VList xs | VTuple xs =>
      match xs !! i with Some x => Ok x | None => Err IndexError end
  | _ => Err TypeError
  end.

(** [Settings.get] and [in] on a [Settings] look a key up ignoring its case
    ([Settings.find_case]): the key that is used is the first one, in the
    sorted order in which a [Settings] is iterated, that has the letters of
    the requested key, and the requested key itself when there is none. Item
    access, assignment and deletion take the key as it is written. Keys are
    ASCII strings. *)
Definition lower_char (c : Ascii.ascii) : Ascii.ascii :=
  let n := Ascii.N_of_ascii c in
  if (65 <=? n)%N && (n <=? 90)%N then Ascii.ascii_of_N (n + 32) else c.

Fixpoint lower (s : string) : string :=
  match s with
  | EmptyString => EmptyString
  | String c rest => String (lower_char c) (lower rest)
  end.

Definition same_letters (k j : string) : bool :=
  String.eqb (lower j) (lower k).

Definition first_key (ks : list string) : option string :=
  foldr (fun j acc =>
           match acc with
           | Some a => if String.ltb j a then Some j else Some a
           | None => Some j
           end) None ks.

Definition matching_keys (m : gmap string value) (k : string) : list string :=
  filter (fun j => same_letters k j = true) (map_to_list m).*1.

Definition find_case (m : gmap string value) (k : string) : string :=
  default k (first_key (matching_keys m k)).

(** [d.get(k)]: [None] for a missing key. *)
Definition py_get (v : value) (k : string) : result value :=
  match v with
  | VDict Sett m => Ok (default VNone (m !! find_case m k))
  | VDict Plain m => Ok (default VNone (m !! k))
  | _ => Err AttributeError
  end.

Fixpoint is_substring (needle hay : string) : bool :=
  String.prefix needle hay ||
  match hay with
  | EmptyString => false
  | String _ rest => is_substring needle rest
  end.

Definition is_str (k : string) (v : value) : bool :=
  match v with VStr s => String.eqb s k | _ => false end.

(** [k in v] for a string [k]. *)
Definition py_in (k : string) (v : value) : result bool :=
  match v with
  | VDict Sett m => Ok (bool_decide (is_Some (m !! find_case m k)))
  | VDict Plain m => Ok (bool_decide (is_Some (m !! k)))
  | VStr s => Ok (is_substring k s)
  | VList xs | VTuple xs => Ok (existsb (is_str k) xs)
  | _ => Err TypeError
  end.

(** [v[k]] for a string key [k] on a value that already exists. *)
Definition py_getitem (v : value) (k : string) : result value :=
  match v with
  | VDict Plain m =>
      match m !! k with Some x => Ok x | None => Err (KeyError k) end
  | VDict Sett m => Ok (default (VDict Sett ∅) (m !! k))
  | _ => Err TypeError
  end.

(** [posixpath.join] of two components. *)
Definition path_join (a b : string) : string :=
  if String.prefix "/" b then b
  else if String.eqb a "" then b
  else if String.eqb (String.substring (String.length a - 1) 1 a) "/" then a ++ b
  else a ++ "/" ++ b.

(** ** Settings trees *)

(** The constructor [Settings(d)] turns the nested plain dictionaries of [d]
    into [Settings], also those that are elements of a list. *)
Fixpoint settings_child (v : value) : value :=
  match v with
  | VDict Plain m => VDict Sett (settings_child <$> m)
  | VList xs =>
      VList (map (fun i => match i with
                           | VDict Plain m => VDict Sett (settings_child <$> m)
                           | _ => i
                           end) xs)
  | _ => v
  end.

Definition Settings (v : value) : result value :=
  match v with
  | VDict _ m => Ok (VDict Sett (settings_child <$> m))
  | _ => Err TypeError
  end.

(** [Settings.__setitem__] wraps a plain dictionary before it stores it. *)
Definition box (x : value) : value :=
  match x with
  | VDict Plain m => VDict Sett (settings_child <$> m)
  | _ => x
  end.

Definition empty_settings : value := VDict Sett ∅.

(** Evaluating the attribute chain [t.k1.k2. ... .kn]: a key that is missing
    from a [Settings] is created holding an empty [Settings]
    ([Settings.__missing__]); anything that is not a [Settings] has no such
    attribute. The result is the tree after the evaluation. *)
Fixpoint touch (p : list string) (t : value) : result value :=
  match p with
  | [] => Ok t
  | k :: p' =>
      match t with
      | VDict Sett m =>
          rbind (touch p' (default empty_settings (m !! k)))
                (fun c => Ok (VDict Sett (<[k:=c]> m)))
      | _ => Err AttributeError
      end
  end.

(** The assignment [t.k1. ... .kn = x]. *)
Fixpoint setattr (p : list string) (x : value) (t : value) : result value :=
  match p with
  | [] => Err AttributeError
  | k :: p' =>
      match t with
      | VDict Sett m =>
          rbind (match p' with
                 | [] => Ok (box x)
                 | _ => setattr p' x (default empty_settings (m !! k))
                 end)
                (fun c => Ok (VDict Sett (<[k:=c]> m)))
      | _ => Err AttributeError
      end
  end.

(** [del t.k1. ... .kn[k]] on nodes that exist. *)
Fixpoint delitem (p : list string) (k : string) (t : value) : result value :=
  match p with
  | [] =>
      match t with
      | VDict kd m =>
          match m !! k with
          | Some _ => Ok (VDict kd (delete k m))
          | None => Err (KeyError k)
          end
      | _ => Err TypeError
      end
  | j :: p' =>
      match t with
      | VDict kd m =>
          match m !! j with
          | Some c => rbind (delitem p' k c) (fun c' => Ok (VDict kd (<[j:=c']> m)))
          | None => Err (KeyError j)
          end
      | _ => Err TypeError
      end
  end.

(** [t.k1. ... .kn.append(x)]: the list that lives at the path grows in place. *)
Fixpoint append_at (p : list string) (x : value) (t : value) : result value :=
  match p with
  | [] =>
      match t with
      | VList xs => Ok (VList (xs ++ [x]))
      | _ => Err AttributeError
      end
  | k :: p' =>
      match t with
      | VDict Sett m =>
          rbind (append_at p' x (default empty_settings (m !! k)))
                (fun c => Ok (VDict Sett (<[k:=c]> m)))
      | _ => Err AttributeError
      end
  end.

(** What is stored under a path of keys: the observation the properties
    below are stated with. It creates nothing. *)
Fixpoint tree_lookup (p : list string) (t : value) : option value :=
  match p with
  | [] => Some t
  | k :: p' =>
      match t with
      | VDict _ m =>
          match m !! k with
          | Some c => tree_lookup p' c
          | None => None
          end
      | _ => None
      end
  end.

(** [Settings.overlay]: a copy of the template updated with [other]; where
    both sides hold a [Settings] the update descends, otherwise the value of
    [other] wins. *)
Fixpoint overlay_onto (other : value) (base : option value) : value :=
  match other with
  | VDict Sett om =>
      match base with
      | Some (VDict Sett bm) =>
          VDict Sett
            (merge (fun (f : option (option value -> value)) (b : option value) =>
                      match f with
                      | Some f => Some (f b)
                      | None => b
                      end)
                   (overlay_onto <$> om) bm)
      | _ => other
      end
  | _ => other
  end.

Definition overlay (template other : value) : result value :=
  match template, other with
  | VDict Sett _, VDict _ om => Ok (overlay_onto (VDict Sett om) (Some template))
  | VDict Sett _, _ => Err TypeError
  | _, _ => Err AttributeError
  end.

(** [Settings.as_dict]. *)
Fixpoint as_dict_child (v : value) : value :=
  match v with
  | VDict Sett m => VDict Plain (as_dict_child <$> m)
  | VList xs =>
      VList (map (fun i => match i with
                           | VDict Sett m => VDict Plain (as_dict_child <$> m)
                           | _ => i
                           end) xs)
  | _ => v
  end.

(** [recursive_traverse]: a [Settings] becomes a plain dictionary, a plain
    dictionary is traversed, anything else is returned as it is. *)
Fixpoint recursive_traverse (val : value) : value :=
  match val with
  | VDict Sett m => VDict Plain (as_dict_child <$> m)
  | VDict Plain m => VDict Plain (recursive_traverse <$> m)
  | _ => val
  end.

(** ** The sanitizer's state *)

(** [user_input] is the dictionary the sanitizer was built from and mutates;
    [warned] and [logged] collect the calls of [warnings.warn] and
    [logger.info]; [dumped] holds the files written with [yaml.dump]. *)
Record state := State {
  user_input : gmap string value;
  warned : list string;
  logged : list string;
  dumped : gmap string value
}.

Definition with_input (m : gmap string value) (s : state) : state :=
  State m (warned s) (logged s) (dumped s).

(** [InputSanitizer(input_dict)]. *)
Definition InputSanitizer (input_dict : gmap string value) : state :=
  State input_dict [] [] ∅.

Definition M (A : Type) : Type := state -> result (A * state).

Definition ret {A} (a : A) : M A := fun s => Ok (a, s).

Definition bind {A B} (c : M A) (k : A -> M B) : M B :=
  fun s => match c s with
           | Ok (a, s') => k a s'
           | Err e => Err e
           end.

Definition lift {A} (r : result A) : M A :=
  fun s => match r with Ok a => Ok (a, s) | Err e => Err e end.

Notation "x <- c ;; k" := (bind c (fun x => k))
  (at level 100, c at next level, right associativity).
Notation "c ;;; k" := (bind c (fun _ => k))
  (at level 100, right associativity).

Definition cgs : string := "cp2k_general_settings".
Definition main : string := "cp2k_settings_main".
Definition guess : string := "cp2k_settings_guess".

(** What the configuration holds under a path of keys. *)
Definition cfg_lookup (q : list string) (s : state) : option value :=
  tree_lookup q (VDict Plain (user_input s)).

(** [self.user_input[k]], [self.user_input.get(k)] and
    [self.user_input[k] = v]. *)
Definition input_getitem (k : string) : M value :=
  fun s => match user_input s !! k with
           | Some v => Ok (v, s)
           | None => Err (KeyError k)
           end.

Definition input_get (k : string) : M value :=
  fun s => Ok (default VNone (user_input s !! k), s).

Definition input_setitem (k : string) (v : value) : M unit :=
  fun s => Ok (tt, with_input (<[k:=v]> (user_input s)) s).

(** [self.general] is the object stored under ["cp2k_general_settings"]:
    every use of the alias reads that entry and every mutation is written
    through to it. *)
Definition self_general : M (gmap string value) :=
  fun s => match user_input s !! cgs with
           | Some (VDict _ g) => Ok (g, s)
           | Some _ => Err TypeError
           | None => Err (KeyError cgs)
           end.

Definition general_getitem (k : string) : M value :=
  g <- self_general ;;
  match g !! k with
  | Some v => ret v
  | None => lift (Err (KeyError k))
  end.

(** The object [self.general[k]] now holds [v]: an assignment to the key, or
    the write-through of an in-place mutation of the object stored there. *)
Definition general_store (k : string) (v : value) : M unit :=
  fun s => match user_input s !! cgs with
           | Some (VDict kd g) =>
               Ok (tt, with_input (<[cgs:=VDict kd (<[k:=v]> g)]> (user_input s)) s)
           | Some _ => Err TypeError
           | None => Err (KeyError cgs)
           end.

(** In-place operations on the job specification [self.general[r]]. *)
Definition spec_update (r : string) (f : value -> result value) : M unit :=
  t <- general_getitem r ;;
  t' <- lift (f t) ;;
  general_store r t'.

Definition spec_setattr (r : string) (p : list string) (x : value) : M unit :=
  spec_update r (setattr p x).

Definition spec_touch (r : string) (p : list string) : M unit :=
  spec_update r (touch p).

Definition spec_append (r : string) (p : list string) (x : value) : M unit :=
  spec_update r (append_at p x).

Definition spec_delitem (r : string) (p : list string) (k : string) : M unit :=
  spec_update r (delitem p k).

(** The value of the attribute chain [self.general[r].k1. ... .kn]. *)
Definition spec_getattr (r : string) (p : list string) : M value :=
  spec_touch r p ;;;
  t <- general_getitem r ;;
  match tree_lookup p t with
  | Some v => ret v
  | None => lift (Err AttributeError)
  end.

Definition warnings_warn (msg : string) : M unit :=
  fun s => Ok (tt, State (user_input s) (warned s ++ [msg]) (logged s) (dumped s)).

Definition logger_info (msg : string) : M unit :=
  fun s => Ok (tt, State (user_input s) (warned s) (logged s ++ [msg]) (dumped s)).

Definition yaml_dump (file : string) (v : value) : M unit :=
  fun s => Ok (tt, State (user_input s) (warned s) (logged s) (<[file:=v]> (dumped s))).

Definition str_of (v : value) : result string :=
  match v with VStr s => Ok s | _ => Err TypeError end.

(** The paths of the engine's input grammar the sanitizer writes to. *)
Definition dft : list string := ["specific"; "cp2k"; "force_eval"; "dft"].
Definition dft_print : list string := dft ++ ["print"].
Definition subsys_cell : list string := ["specific"; "cp2k"; "force_eval"; "subsys"; "cell"].
Definition xc_pbe : string := "xc_functional pbe".

Definition odd_warning : string :=
  "Unpair number of electrons detected when computing the HOMO".

(** ** The sanitizer *)

Section Sanitizer.

(** The collaborators that live outside [input_validation.py]:
    the table [templates.valence_electrons]; the atoms (as element symbols)
    of [scm.plams.Molecule(path, 'xyz')]; [templates.create_settings_from_template],
    which returns the named template and mutates nothing; [os.path.abspath];
    and [Path(p).absolute().as_posix()]. *)
Variable valence_electrons : gmap string Z.
Variable Molecule : value -> result (list string).
Variable create_settings_from_template :
  gmap string value -> value -> value -> result value.
Variable abspath : string -> string.
Variable absolute_posix : string -> string.

Definition create_settings : M unit :=
  m <- general_getitem main ;;
  sm <- lift (Settings m) ;;
  general_store main sm ;;;
  g <- general_getitem guess ;;
  sg <- lift (Settings g) ;;
  general_store guess sg.

(** [val['template']], where [val] is the object stored under "specific" in
    the specification [s]: a [Settings] that has no key written this way
    creates it, holding an empty [Settings]. *)
Definition template_of (s : string) (val : value) : M value :=
  match val with
  | VDict Sett _ => spec_getattr s ["specific"; "template"]
  | _ => lift (py_getitem val "template")
  end.

(** The body of the loop of [apply_templates] for the specification [s]. The
    general settings are handed over as the object they are, so the template
    function sees them as they are once its arguments have been evaluated. *)
Definition apply_template (s : string) : M unit :=
  val <- spec_getattr s ["specific"] ;;
  has_template <- lift (py_in "template" val) ;;
  if has_template : bool then
    name <- template_of s val ;;
    general <- self_general ;;
    path <- input_getitem "path_traj_xyz" ;;
    cp2k_template <- lift (create_settings_from_template general name path) ;;
    spec_delitem s ["specific"] "template" ;;;
    specific <- spec_getattr s ["specific"] ;;
    merged <- lift (overlay cp2k_template specific) ;;
    spec_setattr s ["specific"] merged
  else ret tt.

Definition apply_templates : M unit :=
  general_getitem main ;;;
  general_getitem guess ;;;
  apply_template main ;;;
  apply_template guess.

Definition add_executable : M unit :=
  e <- general_getitem "executable" ;;
  spec_setattr main ["executable"] e ;;;
  e <- general_getitem "executable" ;;
  spec_setattr guess ["executable"] e.

(** [sum(valence_electrons['-'.join((at.symbol, basis))] for at in mol.atoms)] *)
Fixpoint sum_valence (basis : value) (symbols : list string) (acc : Z) : result Z :=
  match symbols with
  | [] => Ok acc
  | symbol :: rest =>
      rbind (str_of basis) (fun b =>
      match valence_electrons !! (symbol ++ "-" ++ b) with
      | Some n => sum_valence basis rest (acc + n)
      | None => Err (KeyError (symbol ++ "-" ++ b))
      end)
  end.

Definition compute_homo_index : M Z :=
  basis <- general_getitem "basis" ;;
  charge <- general_getitem "charge" ;;
  path <- input_getitem "path_traj_xyz" ;;
  atoms <- lift (Molecule path) ;;
  total <- lift (sum_valence basis atoms 0) ;;
  c <- lift (as_int charge) ;;
  let number_of_electrons := total - c in
  (if negb (number_of_electrons mod 2 =? 0)
   then warnings_warn odd_warning else ret tt) ;;;
  ret (number_of_electrons / 2 + number_of_electrons mod 2).

Definition py_sub (a b : value) : result Z :=
  rbind (as_int a) (fun x => rbind (as_int b) (fun y => Ok (x - y))).

Definition py_add (a b : value) : result Z :=
  rbind (as_int a) (fun x => rbind (as_int b) (fun y => Ok (x + y))).

(** ["{} {}".format(a, b)] on two integers. *)
Definition format2 (a b : Z) : string := pretty a ++ " " ++ pretty b.

Definition add_mo_index_range : M unit :=
  active_space <- input_getitem "active_space" ;;
  nHOMO <- input_getitem "nHOMO" ;;
  lo <- lift (rbind (py_index active_space 0) (py_sub nHOMO)) ;;
  hi <- lift (rbind (py_index active_space 1) (py_add nHOMO)) ;;
  input_setitem "mo_index_range" (VTuple [VInt lo; VInt hi]) ;;;
  spec_touch main dft_print ;;;
  spec_setattr main (dft_print ++ ["mo"; "mo_index_range"])
               (VStr (format2 (lo + 1) hi)) ;;;
  added <- lift (py_sub (VInt hi) nHOMO) ;;
  spec_setattr main (dft ++ ["scf"; "added_mos"]) (VInt added) ;;;
  spec_touch main (dft_print ++ ["mo"]) ;;;
  spec_setattr main (dft_print ++ ["mo"; "add_last"]) (VStr "numeric") ;;;
  spec_setattr main (dft_print ++ ["mo"; "each"; "qs_scf"]) (VInt 0) ;;;
  spec_setattr main (dft_print ++ ["mo"; "eigenvalues"]) (VStr "") ;;;
  spec_setattr main (dft_print ++ ["mo"; "eigenvectors"]) (VStr "") ;;;
  spec_setattr main (dft_print ++ ["mo"; "ndigits"]) (VInt 36).

Definition add_restart_point : M unit :=
  general_getitem guess ;;;
  wfn <- general_getitem "wfn_restart_file_name" ;;
  if negb (is_none wfn) && truthy wfn then
    spec_touch guess dft ;;;
    p <- lift (str_of wfn) ;;
    spec_setattr guess (dft ++ ["wfn_restart_file_name"]) (VStr (absolute_posix p))
  else ret tt.

(** [os.path.abspath(join(self.general['path_basis'], name))] *)
Definition basis_file (name : string) : M value :=
  pb <- general_getitem "path_basis" ;;
  d <- lift (str_of pb) ;;
  ret (VStr (abspath (path_join d name))).

Definition select_basis_file (sett : string) : M unit :=
  spec_touch sett dft ;;;
  molopt <- basis_file "BASIS_MOLOPT" ;;
  spec_setattr sett (dft ++ ["basis_set_file_name"]) (VList [molopt]) ;;;
  xc <- spec_getattr sett (dft ++ ["xc"]) ;;
  functional <- lift (py_get xc xc_pbe) ;;
  if is_none functional then
    admm_molopt <- basis_file "BASIS_ADMM_MOLOPT" ;;
    spec_append sett (dft ++ ["basis_set_file_name"]) admm_molopt ;;;
    admm <- basis_file "BASIS_ADMM" ;;
    spec_append sett (dft ++ ["basis_set_file_name"]) admm
  else ret tt.

(** The body of the loop of [add_basis] for the specification [x]. *)
Definition add_basis_to (x : string) : M unit :=
  basis <- general_getitem "basis" ;;
  spec_setattr x ["basis"] basis ;;;
  potential <- general_getitem "potential" ;;
  spec_setattr x ["potential"] potential ;;;
  potentials <- basis_file "GTH_POTENTIALS" ;;
  spec_setattr x (dft ++ ["potential_file_name"]) potentials ;;;
  select_basis_file x.

Definition add_basis : M unit :=
  general_getitem main ;;;
  general_getitem guess ;;;
  path_basis <- general_getitem "path_basis" ;;
  if negb (is_none path_basis) then
    logger_info "path to basis added to cp2k settings" ;;;
    add_basis_to main ;;;
    add_basis_to guess
  else ret tt.

(** The body of the loop of [add_cell_parameters] for the specification [s]. *)
Definition add_cell_parameters_to (s : string) : M unit :=
  general_getitem s ;;;
  file <- general_getitem "file_cell_parameters" ;;
  (if is_none file then
     cell <- general_getitem "cell_parameters" ;;
     spec_setattr s ["cell_parameters"] cell ;;;
     spec_setattr s ["cell_angles"] VNone
   else
     spec_setattr s ["cell_parameters"] VNone) ;;;
  spec_setattr s ["cell_angles"] VNone.

Definition add_cell_parameters : M unit :=
  add_cell_parameters_to main ;;;
  add_cell_parameters_to guess.

Definition add_periodic_to (s : string) : M unit :=
  general_getitem s ;;;
  periodic <- general_getitem "periodic" ;;
  spec_setattr s (subsys_cell ++ ["periodic"]) periodic.

Definition add_periodic : M unit :=
  add_periodic_to main ;;;
  add_periodic_to guess.

Definition add_charge_to (s : string) : M unit :=
  general_getitem s ;;;
  charge <- general_getitem "charge" ;;
  spec_setattr s (dft ++ ["charge"]) charge.

Definition add_charge : M unit :=
  add_charge_to main ;;;
  add_charge_to guess.

Definition add_multiplicity_to (s : string) : M unit :=
  general_getitem s ;;;
  multiplicity <- general_getitem "multiplicity" ;;
  spec_setattr s (dft ++ ["multiplicity"]) multiplicity ;;;
  spec_setattr s (dft ++ ["uks"]) (VStr "").

Definition add_multiplicity : M unit :=
  multiplicity <- general_getitem "multiplicity" ;;
  n <- lift (as_int multiplicity) ;;
  if 1 <? n then
    add_multiplicity_to main ;;;
    add_multiplicity_to guess
  else ret tt.

Definition add_missing_keywords : M unit :=
  nHOMO <- input_get "nHOMO" ;;
  (if is_none nHOMO then
     n <- compute_homo_index ;;
     input_setitem "nHOMO" (VInt n)
   else ret tt) ;;;
  compute_orbitals <- input_get "compute_orbitals" ;;
  (if truthy compute_orbitals then add_mo_index_range
   else logger_info "Orbitals are neither print nor store!") ;;;
  add_restart_point ;;;
  add_basis ;;;
  add_cell_parameters ;;;
  add_periodic ;;;
  add_charge ;;;
  add_multiplicity.

Definition print_final_input : M unit :=
  fun s =>
    yaml_dump "input_parameters.yml"
              (VDict Plain (recursive_traverse <$> user_input s)) s.

Definition sanitize : M (gmap string value) :=
  create_settings ;;;
  apply_templates ;;;
  add_missing_keywords ;;;
  add_executable ;;;
  print_final_input ;;;
  (fun s => Ok (user_input s, s)).

End Sanitizer.

(** * The multipole provider *)

Module Multipole.

Section Provider.

(** The geometry, the matrices and the store are those of the collaborators
    in [nac.common], which are not part of this file: the three store
    helpers and [compute_center_of_mass] are taken as they come. A matrix
    variable of the program holds a matrix or [None]. *)
Variable atoms : Type.
Variable matrix : Type.
Variable center : Type.
Variable hdf5 : Type.
Variable search_data_in_hdf5 : hdf5 -> value -> string -> bool.
Variable retrieve_hdf5_data : hdf5 -> value -> string -> result (option matrix).
Variable store_arrays_in_hdf5 :
  hdf5 -> value -> string -> option matrix -> result hdf5.
Variable compute_center_of_mass : atoms -> result center.

(** What a call does, in order. *)
Inductive event :=
| Printed (msg : string)
| Searched (key : string)
| Retrieved (key : string)
| Computed (multipole : string)
| Stored (key : string) (m : option matrix).

Record world := World {
  disk : hdf5;
  trace : list event
}.

Definition emit (e : event) (w : world) : world :=
  World (disk w) (trace w ++ [e]).

Definition config_getitem (config : gmap string value) (k : string) : result value :=
  match config !! k with Some v => Ok v | None => Err (KeyError k) end.

(** The body left in the source assigns [None] on both branches: the
    evaluation of the integrals is commented out. *)
Definition compute_matrix_multipole
    (mol : atoms) (config : gmap string value) (multipole : string) (w : world)
  : result (option matrix * world) :=
  let w := emit (Computed multipole) w in
  rbind (config_getitem config "path_hdf5") (fun path_hdf5 =>
  if String.eqb multipole "overlap" then
    Ok (None, w)
  else
    rbind (compute_center_of_mass mol) (fun rc =>
    Ok (None, w))).

Definition search_multipole_in_hdf5
    (path_hdf5 : value) (path_multipole_hdf5 multipole : string) (w : world)
  : result (option matrix * world) :=
  let w := emit (Searched path_multipole_hdf5) w in
  if search_data_in_hdf5 (disk w) path_hdf5 path_multipole_hdf5 then
    let w := emit (Printed ("retrieving multipole: " ++ multipole ++ " from the hdf5")) w in
    rbind (retrieve_hdf5_data (disk w) path_hdf5 path_multipole_hdf5) (fun m =>
    Ok (m, emit (Retrieved path_multipole_hdf5) w))
  else
    Ok (None, emit (Printed ("computing multipole: " ++ multipole)) w).

(** [join(config['project_name'], 'multipole', 'point_{}'.format(i))],
    joined with the kind of multipole. *)
Definition multipole_key (project : string) (i : Z) (multipole : string) : string :=
  path_join (path_join (path_join project "multipole") ("point_" ++ pretty i))
            multipole.

Definition get_multipole_matrix
    (i : Z) (mol : atoms) (config : gmap string value) (multipole : string)
    (w : world) : result (option matrix * world) :=
  rbind (rbind (config_getitem config "project_name") str_of) (fun project =>
  rbind (config_getitem config "path_hdf5") (fun path_hdf5 =>
  let path_multipole_hdf5 := multipole_key project i multipole in
  rbind (search_multipole_in_hdf5 path_hdf5 path_multipole_hdf5 multipole w)
        (fun '(matrix_multipole, w) =>
  rbind (match matrix_multipole with
         | None => compute_matrix_multipole mol config multipole w
         | Some _ => Ok (matrix_multipole, w)
         end) (fun '(matrix_multipole, w) =>
  rbind (store_arrays_in_hdf5 (disk w) path_hdf5 path_multipole_hdf5 matrix_multipole)
        (fun d =>
  Ok (matrix_multipole,
      World d (trace w ++ [Stored path_multipole_hdf5 matrix_multipole]))))))).

Definition is_computed (e : event) : bool :=
  match e with Computed _ => true | _ => false end.

(** How often the integrals were asked for. *)
Definition computations (w : world) : nat :=
  length (filter (fun e => is_computed e = true) (trace w)).

End Provider.

Arguments Printed {matrix} msg.
Arguments Searched {matrix} key.
Arguments Retrieved {matrix} key.
Arguments Computed {matrix} multipole.
Arguments Stored {matrix} key m.
Arguments World {matrix hdf5} disk trace.
Arguments disk {matrix hdf5} w.
Arguments trace {matrix hdf5} w.
Arguments emit {matrix hdf5} e w.
Arguments is_computed {matrix} e.
Arguments computations {matrix hdf5} w.

(** ** A keyed array store *)

Definition array : Type := list (list Z).
Definition h5 : Type := gmap string (gmap string (option array)).

(** Modelled from the spec: the store helpers of [nac.common] are not among
    the sources. The store is a persistent keyed array store, one per file,
    addressed by the hierarchical path; searching tells whether the key is
    present, retrieving loads what is persisted under it, and storing
    persists the value under the key -- also the empty placeholder that the
    provider hands over when nothing was computed. *)
Definition h5_search (d : h5) (file : value) (key : string) : bool :=
  match file with
  | VStr f =>
      match d !! f with
      | Some datasets => bool_decide (is_Some (datasets !! key))
      | None => false
      end
  | _ => false
  end.

Definition h5_retrieve (d : h5) (file : value) (key : string)
  : result (option array) :=
  match file with
  | VStr f =>
      match d !! f with
      | Some datasets =>
          match datasets !! key with
          | Some a => Ok a
          | None => Err (KeyError key)
          end
      | None => Err OSError
      end
  | _ => Err TypeError
  end.

Definition h5_store (d : h5) (file : value) (key : string) (a : option array)
  : result h5 :=
  match file with
  | VStr f => Ok (<[f := <[key := a]> (default ∅ (d !! f))]> d)
  | _ => Err TypeError
  end.

Definition center_of (mol : list string) : result unit := Ok tt.

Definition provider :=
  get_multipole_matrix (list string) array unit h5
    h5_search h5_retrieve h5_store center_of.

Definition namd : gmap string value :=
  {[ "project_name" := VStr "namd"; "path_hdf5" := VStr "quantum.hdf5" ]}.

Definition water : list string := ["O"; "H"; "H"].

Definition dipole_key : string := multipole_key "namd" 0 "dipole".

Definition fresh : world array h5 := World ∅ [].

Definition unit_matrix : array := [[1; 0]; [0; 1]].

(** A store that already holds a matrix under the key. *)
Definition filled : world array h5 :=
  World {[ "quantum.hdf5" := {[ dipole_key := Some unit_matrix ]} ]} [].

Definition after (w : world array h5) : world array h5 :=
  match provider 0 water namd "dipole" w with
  | Ok (_, w') => w'
  | Err _ => w
  end.

Definition answered (w : world array h5) : bool :=
  match provider 0 water namd "dipole" w with
  | Ok _ => true
  | Err _ => false
  end.

Definition returned (w : world array h5) : option array :=
  match provider 0 water namd "dipole" w with
  | Ok (m, _) => m
  | Err _ => None
  end.

End Multipole.

(** ** Validated configurations *)

Definition is_string (v : value) : bool :=
  match v with VStr _ => true | _ => false end.
Definition is_integer (v : value) : bool :=
  match v with VInt _ => true | _ => false end.
Definition is_boolean (v : value) : bool :=
  match v with VBool _ => true | _ => false end.
Definition is_mapping (v : value) : bool :=
  match v with VDict Plain _ => true | _ => false end.
Definition none_or (ty : value -> bool) (v : value) : bool :=
  is_none v || ty v.
Definition is_integer_pair (v : value) : bool :=
  match v with VList [VInt _; VInt _] => true | _ => false end.

Definition holds (m : gmap string value) (k : string) (ty : value -> bool) : bool :=
  match m !! k with Some v => ty v | None => false end.
Definition absent (m : gmap string value) (k : string) : bool :=
  match m !! k with Some _ => false | None => true end.

(** Modelled from the spec: the workflow schemas ([workflows/schemas.py])
    are not among the sources. The general settings hold the two job
    specifications, each a mapping, and the shared scalars the specification
    lists: basis and potential names, charge, multiplicity, periodicity, the
    executable, the cell parameters and the optional paths. *)
Definition validated_general (g : gmap string value) : bool :=
  holds g "basis" is_string && holds g "potential" is_string &&
  holds g "charge" is_integer && holds g "multiplicity" is_integer &&
  holds g "periodic" is_string && holds g "executable" is_string &&
  holds g "path_basis" (none_or is_string) &&
  holds g "file_cell_parameters" (none_or is_string) &&
  holds g "cell_parameters" (fun _ => true) &&
  holds g "wfn_restart_file_name" (none_or is_string) &&
  holds g main is_mapping && holds g guess is_mapping.

(** Modelled from the spec: the workflow schemas are not among the sources.
    A configuration that passed validation holds the geometry path, the
    active-space bounds, the orbital-computation flag and the general
    settings; the HOMO index is optional; the derived key "mo_index_range"
    is not a key of the input. *)
Definition validated (cfg : gmap string value) : bool :=
  holds cfg "path_traj_xyz" is_string &&
  holds cfg "active_space" is_integer_pair &&
  (absent cfg "nHOMO" || holds cfg "nHOMO" is_integer) &&
  holds cfg "compute_orbitals" is_boolean &&
  absent cfg "mo_index_range" &&
  match cfg !! cgs with
  | Some (VDict Plain g) => validated_general g
  | _ => false
  end.

(** ** Observations and the claims in the specification's words *)

Definition lookup_in (cfg : gmap string value) (q : list string) : option value :=
  tree_lookup q (VDict Plain cfg).

(** The job specification [r], seen from the configuration's root. *)
Abbreviation at_spec r p := (cgs :: r :: p) (only parsing).

(** C5 as the specification states it: each job specification holds the
    multiplicity keyword, and the unrestricted-spin flag, exactly when the
    multiplicity of the general settings exceeds 1. *)
Definition multiplicity_keywords_iff (cfg out : gmap string value) : Prop :=
  forall n, lookup_in cfg [cgs; "multiplicity"] = Some (VInt n) ->
  forall x, x = main \/ x = guess ->
    (is_Some (lookup_in out (at_spec x (dft ++ ["multiplicity"]))) <-> 1 < n) /\
    (is_Some (lookup_in out (at_spec x (dft ++ ["uks"]))) <-> 1 < n).

(** [ceil(n / 2)] *)
Definition ceil_half (n : Z) : Z := - ((- n) / 2).

(** ** Reasoning about paths *)

(** Two paths diverge when they differ at a position both have; [extends p q]
    says that [q] is [p] followed by at least one more key. *)
Fixpoint diverge (p q : list string) : bool :=
  match p, q with
  | a :: p', b :: q' => if String.eqb a b then diverge p' q' else true
  | _, _ => false
  end.

Fixpoint extends (p q : list string) : bool :=
  match p, q with
  | [], _ :: _ => true
  | a :: p', b :: q' => String.eqb a b && extends p' q'
  | _, _ => false
  end.

Fixpoint prefixb (p q : list string) : bool :=
  match p, q with
  | [], _ => true
  | a :: p', b :: q' => String.eqb a b && prefixb p' q'
  | _ :: _, [] => false
  end.

(** The places an operation may change: a write replaces what is stored
    under a path; a read through [Settings] attributes may create the path. *)
Inductive access :=
| Wr (p : list string)
| Rd (p : list string).

Definition untouched (q : list string) (a : access) : bool :=
  match a with
  | Wr p => diverge p q
  | Rd p => diverge p q || extends p q
  end.

Definition frame (fp : list access) (s s' : state) : Prop :=
  forall q, forallb (untouched q) fp = true -> cfg_lookup q s' = cfg_lookup q s.

(** The code [c] changes nothing outside the footprint [fp]. *)
Definition mframe {A} (fp : list access) (c : M A) : Prop :=
  forall s r s', c s = Ok (r, s') -> frame fp s s'.

(** [a] is accounted for by the footprint [fp]. *)
Definition covered (a : access) (fp : list access) : bool :=
  existsb (fun b => match b, a with
                    | Wr p0, Wr p | Wr p0, Rd p => prefixb p0 p
                    | Rd p0, Rd p => prefixb p0 p && prefixb p p0
                    | Rd _, Wr _ => false
                    end) fp.

Definition both (f : string -> list access) : list access := f main ++ f guess.

Definition fp_specs : list access := [Wr [cgs; main]; Wr [cgs; guess]].

Definition fp_mo_index_range : list access :=
  [Wr ["mo_index_range"];
   Rd (at_spec main dft_print);
   Wr (at_spec main (dft_print ++ ["mo"; "mo_index_range"]));
   Wr (at_spec main (dft ++ ["scf"; "added_mos"]));
   Rd (at_spec main (dft_print ++ ["mo"]));
   Wr (at_spec main (dft_print ++ ["mo"; "add_last"]));
   Wr (at_spec main (dft_print ++ ["mo"; "each"; "qs_scf"]));
   Wr (at_spec main (dft_print ++ ["mo"; "eigenvalues"]));
   Wr (at_spec main (dft_print ++ ["mo"; "eigenvectors"]));
   Wr (at_spec main (dft_print ++ ["mo"; "ndigits"]))].

Definition fp_restart : list access :=
  [Rd (at_spec guess dft); Wr (at_spec guess (dft ++ ["wfn_restart_file_name"]))].

Definition fp_basis_of (x : string) : list access :=
  [Wr (at_spec x ["basis"]);
   Wr (at_spec x ["potential"]);
   Wr (at_spec x (dft ++ ["potential_file_name"]));
   Rd (at_spec x dft);
   Wr (at_spec x (dft ++ ["basis_set_file_name"]));
   Rd (at_spec x (dft ++ ["xc"]))].

Definition fp_cell_of (s : string) : list access :=
  [Wr (at_spec s ["cell_parameters"]); Wr (at_spec s ["cell_angles"])].

Definition fp_periodic_of (s : string) : list access :=
  [Wr (at_spec s (subsys_cell ++ ["periodic"]))].

Definition fp_charge_of (s : string) : list access :=
  [Wr (at_spec s (dft ++ ["charge"]))].

Definition fp_multiplicity_of (s : string) : list access :=
  [Wr (at_spec s (dft ++ ["multiplicity"])); Wr (at_spec s (dft ++ ["uks"]))].

Definition fp_executable_of (s : string) : list access :=
  [Wr (at_spec s ["executable"])].

(** ** The run of the sanitizer, stage by stage *)

Section Derived.

Variable valence_electrons : gmap string Z.
Variable Molecule : value -> result (list string).
Variable create_settings_from_template :
  gmap string value -> value -> value -> result value.
Variable abspath : string -> string.
Variable absolute_posix : string -> string.

(** The sum over the atoms of the valence-electron count that the table
    gives for "symbol-basis"; undefined when an atom is not in the table. *)
Fixpoint valence_total (basis : string) (symbols : list string) : option Z :=
  match symbols with
  | [] => Some 0
  | symbol :: rest =>
      match valence_electrons !! (symbol ++ "-" ++ basis), valence_total basis rest with
      | Some n, Some m => Some (n + m)
      | _, _ => None
      end
  end.

Definition odd_warnings (n : Z) : list string :=
  if negb (n mod 2 =? 0) then [odd_warning] else [].


(** The first block of [add_missing_keywords]: from [s] to [s']. *)
Definition derive_homo (s s' : state) : Prop :=
  if is_none (default VNone (cfg_lookup ["nHOMO"] s)) then
    exists n s1, compute_homo_index valence_electrons Molecule s = Ok (n, s1) /\
                 input_setitem "nHOMO" (VInt n) s1 = Ok (tt, s')
  else s' = s.

(** Its second block. *)
Definition derive_orbitals (s s' : state) : Prop :=
  if truthy (default VNone (cfg_lookup ["compute_orbitals"] s)) then
    add_mo_index_range s = Ok (tt, s')
  else user_input s' = user_input s.

(** The states a successful run of [sanitize] goes through. *)
Record stages := Stages {
  st_input : state;       (* the sanitizer as constructed *)
  st_settings : state;    (* after create_settings *)
  st_templates : state;   (* after apply_templates *)
  st_homo : state;        (* nHOMO is present *)
  st_orbitals : state;    (* after the orbitals block *)
  st_restart : state;
  st_basis : state;
  st_cell : state;
  st_periodic : state;
  st_charge : state;
  st_multiplicity : state;
  st_final : state        (* after add_executable *)
}.

Definition run_of (t : stages) : Prop :=
  create_settings (st_input t) = Ok (tt, st_settings t) /\
  apply_templates create_settings_from_template (st_settings t)
    = Ok (tt, st_templates t) /\
  derive_homo (st_templates t) (st_homo t) /\
  derive_orbitals (st_homo t) (st_orbitals t) /\
  add_restart_point absolute_posix (st_orbitals t) = Ok (tt, st_restart t) /\
  add_basis abspath (st_restart t) = Ok (tt, st_basis t) /\
  add_cell_parameters (st_basis t) = Ok (tt, st_cell t) /\
  add_periodic (st_cell t) = Ok (tt, st_periodic t) /\
  add_charge (st_periodic t) = Ok (tt, st_charge t) /\
  add_multiplicity (st_charge t) = Ok (tt, st_multiplicity t) /\
  add_executable (st_multiplicity t) = Ok (tt, st_final t).

Definition frames_of (t : stages) : Prop :=
  frame fp_specs (st_input t) (st_settings t) /\
  frame fp_specs (st_settings t) (st_templates t) /\
  frame [Wr ["nHOMO"]] (st_templates t) (st_homo t) /\
  frame fp_mo_index_range (st_homo t) (st_orbitals t) /\
  frame fp_restart (st_orbitals t) (st_restart t) /\
  frame (both fp_basis_of) (st_restart t) (st_basis t) /\
  frame (both fp_cell_of) (st_basis t) (st_cell t) /\
  frame (both fp_periodic_of) (st_cell t) (st_periodic t) /\
  frame (both fp_charge_of) (st_periodic t) (st_charge t) /\
  frame (both fp_multiplicity_of) (st_charge t) (st_multiplicity t) /\
  frame (both fp_executable_of) (st_multiplicity t) (st_final t).

(** The configuration once the templates have been overlaid, before any
    keyword is derived. *)
Definition overlaid (cfg : gmap string value) (st : state) : Prop :=
  exists s1, create_settings (InputSanitizer cfg) = Ok (tt, s1) /\
             apply_templates create_settings_from_template s1 = Ok (tt, st).

End Derived.

(** ** Further observations *)

(** A value that [Settings.as_dict] and [recursive_traverse] hand over as it
    is: anything but a mapping or a list. *)
Definition plain_leaf (x : value) : bool :=
  match x with
  | VDict _ _ | VList _ => false
  | _ => true
  end.

(** The code [c] raises no warning. *)
Definition mquiet {A} (c : M A) : Prop :=
  forall s r s', c s = Ok (r, s') -> warned s' = warned s.

(** The code [c] logs nothing. *)
Definition msilent {A} (c : M A) : Prop :=
  forall s r s', c s = Ok (r, s') -> logged s' = logged s.

Definition orbitals_message : string := "Orbitals are neither print nor store!".
Definition basis_message : string := "path to basis added to cp2k settings".

(** The places the stages of the sanitizer write to, all together. *)
Definition fp_sanitize : list access :=
  [Wr ["nHOMO"]; Wr ["mo_index_range"]; Wr [cgs; main]; Wr [cgs; guess]].

(** The places the keyword steps write to, once the templates have been
    overlaid. *)
Definition fp_keywords : list access :=
  ([Wr ["nHOMO"]] ++ fp_mo_index_range ++ fp_restart ++ both fp_basis_of ++
   both fp_cell_of ++ both fp_periodic_of ++ both fp_charge_of ++
   both fp_multiplicity_of ++ both fp_executable_of)%list.

(** * Concrete runs *)

Module Example.

(** Two entries of the table for the basis DZVP-MOLOPT as the specification
    gives them (C: 4, H: 1), and nitrogen to have an odd count at hand. *)
Definition table : gmap string Z :=
  {[ "C-DZVP-MOLOPT" := 4; "H-DZVP-MOLOPT" := 1; "N-DZVP-MOLOPT" := 5 ]}.

Definition geometries (path : value) : result (list string) :=
  match path with
  | VStr p =>
      if String.eqb p "ch4.xyz" then Ok ["C"; "H"; "H"; "H"; "H"]
      else if String.eqb p "nh2.xyz" then Ok ["N"; "H"; "H"]
      else Err OSError
  | _ => Err TypeError
  end.

Definition section (k : string) (v : value) : value := VDict Sett {[ k := v ]}.

(** A PBE template: its exchange-correlation section names the functional. *)
Definition pbe_template : value :=
  section "cp2k" (section "force_eval" (section "dft"
    (VDict Sett {[ "basis_set_file_name" := VStr "";
                   "xc" := section xc_pbe empty_settings ]}))).

Definition templates (general : gmap string value) (name path : value)
  : result value :=
  match name with
  | VStr n =>
      if String.eqb n "pbe_main" then Ok pbe_template
      else if String.eqb n "pbe_guess" then Ok pbe_template
      else Err TemplateError
  | _ => Err TemplateError
  end.

Definition abspath (p : string) : string :=
  if String.prefix "/" p then p else "/home/user/" ++ p.

Definition run (cfg : gmap string value) : result (gmap string value * state) :=
  sanitize table geometries templates abspath abspath (InputSanitizer cfg).

Definition plain (k : string) (v : value) : value := VDict Plain {[ k := v ]}.

Definition general_settings
    (multiplicity : Z) (file_cell : value) (main_spec guess_spec : value)
  : gmap string value :=
  {[ "basis" := VStr "DZVP-MOLOPT";
     "potential" := VStr "GTH-PBE";
     "charge" := VInt 0;
     "multiplicity" := VInt multiplicity;
     "periodic" := VStr "xyz";
     "executable" := VStr "cp2k.popt";
     "path_basis" := VStr "basis";
     "file_cell_parameters" := file_cell;
     "cell_parameters" := VInt 28;
     "wfn_restart_file_name" := VNone;
     main := main_spec;
     guess := guess_spec ]}.

Definition config
    (geometry : string) (orbitals : bool) (multiplicity : Z) (file_cell : value)
    (main_spec guess_spec : value) : gmap string value :=
  {[ "path_traj_xyz" := VStr geometry;
     "active_space" := VList [VInt 2; VInt 3];
     "compute_orbitals" := VBool orbitals;
     cgs := VDict Plain
              (general_settings multiplicity file_cell main_spec guess_spec) ]}.

Definition from_template (name : string) : value :=
  plain "specific" (plain "template" (VStr name)).

(** Methane, both specifications from the PBE templates. *)
Definition methane : gmap string value :=
  config "ch4.xyz" true 1 VNone (from_template "pbe_main") (from_template "pbe_guess").

(** Methane, the guess written by hand without a functional, and a file with
    the cell parameters. *)
Definition methane_cell_file : gmap string value :=
  config "ch4.xyz" false 3 (VStr "cell.txt") (from_template "pbe_main")
         (plain "specific" (VDict Plain ∅)).

(** The amidogen radical: seven valence electrons. *)
Definition amidogen : gmap string value :=
  config "nh2.xyz" true 2 VNone (from_template "pbe_main") (from_template "pbe_guess").

(** A closed-shell multiplicity in the general settings, and a main
    specification whose own input already asks for a triplet. *)
Definition triplet_by_hand : gmap string value :=
  config "ch4.xyz" true 1 VNone
    (plain "specific" (plain "cp2k" (plain "force_eval" (plain "dft"
       (plain "multiplicity" (VInt 3))))))
    (plain "specific" (VDict Plain ∅)).

Definition output (cfg : gmap string value) : gmap string value :=
  match run cfg with Ok (out, _) => out | Err _ => ∅ end.

Definition final (cfg : gmap string value) : state :=
  match run cfg with Ok (_, s) => s | Err _ => InputSanitizer ∅ end.

Definition succeeded (cfg : gmap string value) : bool :=
  match run cfg with Ok _ => true | Err _ => false end.

End Example.

(** Variations of the configurations above. *)
Module Cases.

Import Example.

(** [cfg] with the entry [k] of its general settings set to [v]. *)
Definition set_general (k : string) (v : value) (cfg : gmap string value)
  : gmap string value :=
  match cfg !! cgs with
  | Some (VDict kd g) => <[cgs := VDict kd (<[k := v]> g)]> cfg
  | _ => cfg
  end.

(** Methane with the HOMO index given by hand. *)
Definition methane_homo_given : gmap string value :=
  <["nHOMO" := VInt 10]> methane.

(** The same with one bound of the active space only. *)
Definition methane_one_bound : gmap string value :=
  <["active_space" := VList [VInt 2]]> methane_homo_given.

(** Methane restarted from a wave function of an earlier run. *)
Definition methane_restarted : gmap string value :=
  set_general "wfn_restart_file_name" (VStr "guess.wfn") methane.

(** Methane without a directory of basis sets. *)
Definition methane_no_basis_path : gmap string value :=
  set_general "path_basis" VNone methane.


(** Methane whose guess specification asks for its template under a key in
    another case. *)
Definition methane_capital_template : gmap string value :=
  config "ch4.xyz" true 1 VNone (from_template "pbe_main")
         (plain "specific" (plain "Template" (VStr "pbe_guess"))).

(** Methanol: the table above has no oxygen. *)
Definition methanol : gmap string value :=
  config "ch3oh.xyz" true 1 VNone (from_template "pbe_main")
         (from_template "pbe_guess").

Definition more_geometries (path : value) : result (list string) :=
  match path with
  | VStr p =>
      if String.eqb p "ch3oh.xyz" then Ok ["C"; "H"; "H"; "H"; "O"; "H"]
      else geometries path
  | _ => geometries path
  end.

(** No geometry can be read. *)
Definition no_geometry (path : value) : result (list string) := Err OSError.

(** General settings that hold a guess specification only. *)
Definition guess_only : gmap string value :=
  {[ guess := plain "specific" (VDict Plain ∅) ]}.

Definition no_main : gmap string value :=
  {[ "path_traj_xyz" := VStr "ch4.xyz"; cgs := VDict Plain guess_only ]}.

(** Whether the templates can be overlaid on [cfg]. *)
Definition overlay_succeeds (cfg : gmap string value) : bool :=
  match create_settings (InputSanitizer cfg) with
  | Ok (_, s1) =>
      match apply_templates templates s1 with
      | Ok _ => true
      | Err _ => false
      end
  | Err _ => false
  end.

(** A geometry whose center of mass cannot be computed. *)
Definition no_center (mol : list string) : result unit := Err TypeError.

Definition provider_without_center :=
  Multipole.get_multipole_matrix (list string) Multipole.array unit Multipole.h5
    Multipole.h5_search Multipole.h5_retrieve Multipole.h5_store no_center.

End Cases.

(** * Proofs *)

Arguments String.eqb : simpl never.

Lemma eqb_true (a b : string) : String.eqb a b = true -> a = b.
Proof. apply String.eqb_eq. Qed.

Lemma eqb_false (a b : string) : String.eqb a b = false -> a <> b.
Proof. apply String.eqb_neq. Qed.

Ltac eqb_cases a b :=
  let E := fresh "E" in
  destruct (String.eqb a b) eqn:E;
  [apply eqb_true in E; subst | apply eqb_false in E].

Lemma diverge_prefix p0 p q :
  prefixb p0 p = true -> diverge p0 q = true -> diverge p q = true.
Proof.
  revert p q; induction p0 as [|a p0 IH]; intros p q Hp Hd; [done|].
  destruct p as [|b p]; [done|]. destruct q as [|c q]; [done|]. simpl in *.
  eqb_cases a b; [|done]. simpl in Hp.
  destruct (String.eqb b c); [eauto|done].
Qed.

Lemma prefixb_both p q : prefixb p q = true -> prefixb q p = true -> p = q.
Proof.
  revert q; induction p as [|a p IH]; intros [|b q] H1 H2; try done.
  simpl in *. eqb_cases a b; [|done]. f_equal. apply IH; [done|].
  rewrite String.eqb_refl in H2. done.
Qed.

Lemma covered_untouched a fp q :
  covered a fp = true -> forallb (untouched q) fp = true -> untouched q a = true.
Proof.
  unfold covered. intros Hc Hall. apply existsb_exists in Hc as (b & Hin & Hb).
  rewrite forallb_forall in Hall. specialize (Hall b Hin).
  destruct b as [p0|p0], a as [p|p]; simpl in *; try done.
  - eauto using diverge_prefix.
  - erewrite diverge_prefix; eauto.
  - apply andb_prop in Hb as [H1 H2]. by rewrite (prefixb_both _ _ H1 H2) in Hall.
Qed.

Lemma frame_apply fp s s' q :
  frame fp s s' -> forallb (untouched q) fp = true ->
  cfg_lookup q s' = cfg_lookup q s.
Proof. intros H. apply H. Qed.

Lemma frame_refl fp s : frame fp s s.
Proof. by intros q _. Qed.

Lemma frame_same fp s s' : user_input s' = user_input s -> frame fp s s'.
Proof. intros E q _. unfold cfg_lookup. by rewrite E. Qed.

Lemma frame_trans fp s1 s2 s3 : frame fp s1 s2 -> frame fp s2 s3 -> frame fp s1 s3.
Proof. intros H1 H2 q Hq. rewrite H2, H1; done. Qed.

Lemma frame_covered a fp s s' :
  covered a fp = true -> frame [a] s s' -> frame fp s s'.
Proof.
  intros Hc H q Hq. apply H. simpl.
  by rewrite (covered_untouched _ _ _ Hc Hq).
Qed.

(** *** Trees *)

Lemma lookup_empty_settings q : q <> [] -> tree_lookup q empty_settings = None.
Proof. destruct q; [done|]. intros _. simpl. by rewrite lookup_empty. Qed.

Lemma diverge_nonempty p q : diverge p q = true -> p <> [] /\ q <> [].
Proof. destruct p, q; done. Qed.

Lemma lookup_child q k (m : gmap string value) :
  q <> [] ->
  tree_lookup q (default empty_settings (m !! k)) =
  match m !! k with Some c => tree_lookup q c | None => None end.
Proof. intros Hq. destruct (m !! k); [done|]. by apply lookup_empty_settings. Qed.

Lemma tree_lookup_cons k q kd (m : gmap string value) :
  tree_lookup (k :: q) (VDict kd m) =
  match m !! k with Some c => tree_lookup q c | None => None end.
Proof. done. Qed.

Lemma setattr_lookup p x t t' :
  setattr p x t = Ok t' -> tree_lookup p t' = Some (box x).
Proof.
  revert t t'; induction p as [|k p IH]; intros t t' H; [done|].
  simpl in H. destruct t as [| | | | | | |[] m]; try done.
  destruct p as [|k2 p].
  - simpl in H. injection H as <-. simpl. by rewrite lookup_insert_eq.
  - destruct (setattr (k2 :: p) x _) as [c|] eqn:Hc; [|done].
    simpl in H. injection H as <-.
    rewrite tree_lookup_cons, lookup_insert_eq. eauto.
Qed.

Lemma setattr_frame p x t t' q :
  setattr p x t = Ok t' -> diverge p q = true -> tree_lookup q t' = tree_lookup q t.
Proof.
  revert t t' q; induction p as [|k p IH]; intros t t' q H Hd; [done|].
  destruct q as [|b q]; [done|].
  simpl in H. destruct t as [| | | | | | |[] m]; try done.
  simpl in Hd. eqb_cases k b.
  - apply diverge_nonempty in Hd as Hne. destruct Hne as [Hp Hq].
    destruct p as [|k2 p]; [done|].
    destruct (setattr (k2 :: p) x _) as [c|] eqn:Hc; [|done].
    simpl in H. injection H as <-. simpl. rewrite lookup_insert_eq.
    rewrite (IH _ _ _ Hc Hd). by apply lookup_child.
  - destruct (match p with [] => _ | _ => _ end) as [c|]; [|done].
    simpl in H. injection H as <-. simpl. by rewrite lookup_insert_ne.
Qed.

Lemma touch_frame p t t' q :
  touch p t = Ok t' -> diverge p q || extends p q = true ->
  tree_lookup q t' = tree_lookup q t.
Proof.
  revert t t' q; induction p as [|k p IH]; intros t t' q H Hd.
  - simpl in H. by injection H as <-.
  - destruct q as [|b q]; [done|].
    simpl in H. destruct t as [| | | | | | |[] m]; try done.
    destruct (touch p _) as [c|] eqn:Hc; [|done].
    simpl in H. injection H as <-. simpl in Hd |- *. eqb_cases k b.
    + rewrite lookup_insert_eq. simpl in Hd. rewrite (IH _ _ _ Hc Hd).
      apply lookup_child. destruct q; [|done].
      destruct p; simpl in Hd; done.
    + by rewrite lookup_insert_ne.
Qed.

Lemma touch_lookup p t t' : touch p t = Ok t' -> is_Some (tree_lookup p t').
Proof.
  revert t t'; induction p as [|k p IH]; intros t t' H; [by eexists|].
  simpl in H. destruct t as [| | | | | | |[] m]; try done.
  destruct (touch p _) as [c|] eqn:Hc; [|done].
  simpl in H. injection H as <-. simpl. rewrite lookup_insert_eq. eauto.
Qed.

Lemma append_at_empty p x : append_at p x empty_settings = Err AttributeError.
Proof.
  induction p as [|k p IH]; [done|]. simpl. rewrite lookup_empty. simpl.
  by rewrite IH.
Qed.

Lemma append_at_lookup p x t t' :
  append_at p x t = Ok t' ->
  exists xs, tree_lookup p t = Some (VList xs) /\
             tree_lookup p t' = Some (VList (xs ++ [x])).
Proof.
  revert t t'; induction p as [|k p IH]; intros t t' H.
  - simpl in H. destruct t; try done. injection H as <-. eauto.
  - simpl in H. destruct t as [| | | | | | |[] m]; try done.
    destruct (m !! k) as [c0|] eqn:Hk; simpl in H.
    + destruct (append_at p x c0) as [c|] eqn:Hc; [|done].
      simpl in H. injection H as <-. simpl. rewrite Hk, lookup_insert_eq. eauto.
    + by rewrite append_at_empty in H.
Qed.

Lemma append_at_frame p x t t' q :
  append_at p x t = Ok t' -> diverge p q = true -> tree_lookup q t' = tree_lookup q t.
Proof.
  revert t t' q; induction p as [|k p IH]; intros t t' q H Hd; [done|].
  destruct q as [|b q]; [done|].
  simpl in H. destruct t as [| | | | | | |[] m]; try done.
  destruct (append_at p x _) as [c|] eqn:Hc; [|done].
  simpl in H. injection H as <-. simpl in Hd |- *. eqb_cases k b.
  - rewrite lookup_insert_eq, (IH _ _ _ Hc Hd).
    apply lookup_child. by apply diverge_nonempty in Hd as [_ ?].
  - by rewrite lookup_insert_ne.
Qed.

Lemma delitem_frame p k t t' q :
  delitem p k t = Ok t' -> diverge (p ++ [k]) q = true ->
  tree_lookup q t' = tree_lookup q t.
Proof.
  revert t t' q; induction p as [|j p IH]; intros t t' q H Hd.
  - destruct q as [|b q]; [done|]. simpl in H, Hd.
    destruct t as [| | | | | | |kd m]; try done.
    destruct (m !! k); [|done]. injection H as <-.
    eqb_cases k b; [done|]. simpl. by rewrite lookup_delete_ne.
  - destruct q as [|b q]; [done|]. simpl in H.
    destruct t as [| | | | | | |kd m]; try done.
    destruct (m !! j) as [c0|] eqn:Hj; [|done].
    destruct (delitem p k c0) as [c|] eqn:Hc; [|done].
    simpl in H. injection H as <-. simpl in Hd |- *. eqb_cases j b.
    + rewrite lookup_insert_eq, Hj. eauto.
    + by rewrite lookup_insert_ne.
Qed.

(** *** The monad and its primitives *)

Lemma bind_ok {A B} (c : M A) (k : A -> M B) s r s' :
  bind c k s = Ok (r, s') -> exists a s1, c s = Ok (a, s1) /\ k a s1 = Ok (r, s').
Proof. unfold bind. destruct (c s) as [[a s1]|]; [eauto|done]. Qed.

Lemma bind_run {A B} (c : M A) (k : A -> M B) s a s1 :
  c s = Ok (a, s1) -> bind c k s = k a s1.
Proof. unfold bind. by intros ->. Qed.

Lemma lift_ok {A} (x : result A) s r s' :
  lift x s = Ok (r, s') -> x = Ok r /\ s' = s.
Proof. unfold lift. destruct x; [|done]. by intros [= -> ->]. Qed.

Lemma ret_ok {A} (a : A) s r s' : ret a s = Ok (r, s') -> r = a /\ s' = s.
Proof. by intros [= -> ->]. Qed.

Lemma input_getitem_ok k s v s' :
  input_getitem k s = Ok (v, s') -> s' = s /\ cfg_lookup [k] s = Some v.
Proof.
  unfold input_getitem, cfg_lookup. simpl.
  destruct (user_input s !! k); [|done]. by intros [= -> ->].
Qed.

Lemma input_get_ok k s v s' :
  input_get k s = Ok (v, s') -> s' = s /\ v = default VNone (cfg_lookup [k] s).
Proof.
  unfold input_get, cfg_lookup. simpl. intros [= <- <-]. split; [done|].
  by destruct (user_input s !! k).
Qed.

Lemma input_setitem_ok k v s u s' :
  input_setitem k v s = Ok (u, s') ->
  cfg_lookup [k] s' = Some v /\ frame [Wr [k]] s s' /\ warned s' = warned s.
Proof.
  unfold input_setitem, with_input. intros [= _ <-]. unfold cfg_lookup. simpl.
  rewrite lookup_insert_eq. split; [done|]. split; [|done].
  intros [|b q] Hq; [done|]. unfold cfg_lookup. simpl in Hq |- *.
  eqb_cases k b; [done|]. by rewrite lookup_insert_ne.
Qed.

Lemma self_general_ok s g s' :
  self_general s = Ok (g, s') ->
  s' = s /\ exists kd, user_input s !! cgs = Some (VDict kd g).
Proof.
  unfold self_general. destruct (user_input s !! cgs) as [[]|]; try done.
  intros [= -> ->]. eauto.
Qed.

Lemma general_getitem_ok k s v s' :
  general_getitem k s = Ok (v, s') -> s' = s /\ cfg_lookup [cgs; k] s = Some v.
Proof.
  unfold general_getitem. intros H.
  apply bind_ok in H as (g & s1 & Hg & H).
  apply self_general_ok in Hg as [-> [kd Hg]].
  unfold cfg_lookup. rewrite tree_lookup_cons, Hg, tree_lookup_cons.
  destruct (g !! k).
  - apply ret_ok in H as [-> ->]. done.
  - by apply lift_ok in H as [? _].
Qed.

Lemma general_getitem_run k s v :
  cfg_lookup [cgs; k] s = Some v -> general_getitem k s = Ok (v, s).
Proof.
  unfold cfg_lookup, general_getitem, bind, self_general.
  rewrite tree_lookup_cons. destruct (user_input s !! cgs) as [[]|]; try done.
  rewrite tree_lookup_cons. destruct (_ !! k); [|done]. by intros [= ->].
Qed.

Lemma general_store_ok k v s u s' :
  general_store k v s = Ok (u, s') ->
  (forall q, cfg_lookup (cgs :: k :: q) s' = tree_lookup q v) /\
  frame [Wr [cgs; k]] s s' /\ warned s' = warned s.
Proof.
  unfold general_store, with_input.
  destruct (user_input s !! cgs) as [[]|] eqn:Hg; try done.
  intros [= _ <-]. split; [|split; [|done]].
  - intros q. unfold cfg_lookup. simpl. by rewrite !lookup_insert_eq.
  - intros [|a q] Hq; [done|]. unfold cfg_lookup. simpl in Hq |- *.
    eqb_cases cgs a.
    + rewrite lookup_insert_eq, Hg. destruct q as [|b q]; [done|].
      simpl in Hq |- *. eqb_cases k b; [done|]. by rewrite lookup_insert_ne.
    + by rewrite lookup_insert_ne.
Qed.

Lemma spec_update_ok r f s u s' :
  spec_update r f s = Ok (u, s') ->
  exists t t', f t = Ok t' /\
    (forall q, cfg_lookup (cgs :: r :: q) s = tree_lookup q t) /\
    (forall q, cfg_lookup (cgs :: r :: q) s' = tree_lookup q t') /\
    frame [Wr [cgs; r]] s s' /\ warned s' = warned s.
Proof.
  unfold spec_update. intros H.
  apply bind_ok in H as (t & s1 & Ht & H).
  apply general_getitem_ok in Ht as [-> Ht].
  apply bind_ok in H as (t' & s1 & Hf & H).
  apply lift_ok in Hf as [Hf ->].
  apply general_store_ok in H as (Hnew & Hfr & Hw).
  exists t, t'. repeat split; try done.
  intros q. unfold cfg_lookup in *. rewrite tree_lookup_cons in Ht |- *.
  destruct (user_input s !! cgs) as [[]|]; try done.
  rewrite tree_lookup_cons in Ht |- *. destruct (_ !! r); [|done].
  by injection Ht as ->.
Qed.

(** A tree-level frame property of [f] becomes a frame property of the
    in-place update of the specification [r] with [f]. *)
Lemma spec_update_frame r f (P : list string -> bool) a s u s' :
  spec_update r f s = Ok (u, s') ->
  (forall t t' q, f t = Ok t' -> P q = true -> tree_lookup q t' = tree_lookup q t) ->
  (forall q, untouched (cgs :: r :: q) a = true -> P q = true) ->
  (forall q, untouched q a = true -> diverge [cgs; r] q = false ->
             exists q', q = cgs :: r :: q') ->
  frame [a] s s'.
Proof.
  intros H Hf HP Hshape q Hq. simpl in Hq. rewrite andb_true_r in Hq.
  apply spec_update_ok in H as (t & t' & Hft & Hold & Hnew & Hfr & _).
  destruct (diverge [cgs; r] q) eqn:Hd.
  - apply Hfr. change (diverge [cgs; r] q && true = true). by rewrite Hd.
  - destruct (Hshape q Hq Hd) as [q' ->]. rewrite Hold, Hnew. eauto.
Qed.

Lemma below_spec r p q :
  diverge (cgs :: r :: p) q || extends (cgs :: r :: p) q = true ->
  diverge [cgs; r] q = false -> exists q', q = cgs :: r :: q'.
Proof.
  intros H Hd. destruct q as [|a q]; [done|]. simpl in H, Hd.
  eqb_cases cgs a; [|done]. destruct q as [|b q]; [done|]. simpl in H, Hd.
  eqb_cases r b; [|done]. eauto.
Qed.

Lemma below_spec_wr r p q :
  diverge (cgs :: r :: p) q = true ->
  diverge [cgs; r] q = false -> exists q', q = cgs :: r :: q'.
Proof. intros H. apply (below_spec r p). by rewrite H. Qed.

Lemma spec_setattr_ok r p x s u s' :
  spec_setattr r p x s = Ok (u, s') ->
  cfg_lookup (cgs :: r :: p) s' = Some (box x) /\
  frame [Wr (cgs :: r :: p)] s s' /\ warned s' = warned s.
Proof.
  intros H. split; [|split].
  - apply spec_update_ok in H as (t & t' & Hf & _ & Hnew & _).
    rewrite Hnew. eauto using setattr_lookup.
  - eapply (spec_update_frame _ _ (diverge p)); [done| | |].
    + intros. eauto using setattr_frame.
    + intros q Hq. simpl in Hq. by rewrite !String.eqb_refl in Hq.
    + intros q. apply below_spec_wr.
  - by apply spec_update_ok in H as (t & t' & _ & _ & _ & _ & ?).
Qed.

Lemma spec_touch_ok r p s u s' :
  spec_touch r p s = Ok (u, s') ->
  is_Some (cfg_lookup (cgs :: r :: p) s') /\
  frame [Rd (cgs :: r :: p)] s s' /\ warned s' = warned s.
Proof.
  intros H. split; [|split].
  - apply spec_update_ok in H as (t & t' & Hf & _ & Hnew & _).
    rewrite Hnew. eauto using touch_lookup.
  - eapply (spec_update_frame _ _ (fun q => diverge p q || extends p q)); [done| | |].
    + intros. eauto using touch_frame.
    + intros q Hq. simpl in Hq. by rewrite !String.eqb_refl in Hq.
    + intros q. apply below_spec.
  - by apply spec_update_ok in H as (t & t' & _ & _ & _ & _ & ?).
Qed.

Lemma spec_getattr_ok r p s v s' :
  spec_getattr r p s = Ok (v, s') ->
  cfg_lookup (cgs :: r :: p) s' = Some v /\
  frame [Rd (cgs :: r :: p)] s s' /\ warned s' = warned s.
Proof.
  unfold spec_getattr. intros H.
  apply bind_ok in H as (u & s1 & Ht & H).
  apply spec_touch_ok in Ht as (_ & Hfr & Hw).
  apply bind_ok in H as (t & s2 & Hg & H).
  apply general_getitem_ok in Hg as [-> Hg].
  assert (cfg_lookup (cgs :: r :: p) s1 = tree_lookup p t) as Hl.
  { unfold cfg_lookup in *. rewrite tree_lookup_cons in Hg |- *.
    destruct (user_input s1 !! cgs) as [[]|]; try done.
    rewrite tree_lookup_cons in Hg |- *. destruct (_ !! r); [|done].
    by injection Hg as ->. }
  destruct (tree_lookup p t) eqn:Hp.
  - apply ret_ok in H as [-> ->]. done.
  - by apply lift_ok in H as [? _].
Qed.

Lemma spec_append_ok r p x s u s' :
  spec_append r p x s = Ok (u, s') ->
  (exists xs, cfg_lookup (cgs :: r :: p) s = Some (VList xs) /\
              cfg_lookup (cgs :: r :: p) s' = Some (VList (xs ++ [x]))) /\
  frame [Wr (cgs :: r :: p)] s s' /\ warned s' = warned s.
Proof.
  intros H. split; [|split].
  - apply spec_update_ok in H as (t & t' & Hf & Hold & Hnew & _).
    rewrite Hold, Hnew. eauto using append_at_lookup.
  - eapply (spec_update_frame _ _ (diverge p)); [done| | |].
    + intros. eauto using append_at_frame.
    + intros q Hq. simpl in Hq. by rewrite !String.eqb_refl in Hq.
    + intros q. apply below_spec_wr.
  - by apply spec_update_ok in H as (t & t' & _ & _ & _ & _ & ?).
Qed.

Lemma spec_delitem_ok r p k s u s' :
  spec_delitem r p k s = Ok (u, s') ->
  frame [Wr (cgs :: r :: p ++ [k])] s s' /\ warned s' = warned s.
Proof.
  intros H. split.
  - eapply (spec_update_frame _ _ (diverge (p ++ [k]))); [done| | |].
    + intros. eauto using delitem_frame.
    + intros q Hq. simpl in Hq. by rewrite !String.eqb_refl in Hq.
    + intros q. apply (below_spec_wr r (p ++ [k])).
  - by apply spec_update_ok in H as (t & t' & _ & _ & _ & _ & ?).
Qed.

Lemma warnings_warn_ok msg s u s' :
  warnings_warn msg s = Ok (u, s') ->
  user_input s' = user_input s /\ warned s' = (warned s ++ [msg])%list.
Proof. by intros [= _ <-]. Qed.

Lemma logger_info_ok msg s u s' :
  logger_info msg s = Ok (u, s') ->
  user_input s' = user_input s /\ warned s' = warned s.
Proof. by intros [= _ <-]. Qed.

Lemma yaml_dump_ok file v s u s' :
  yaml_dump file v s = Ok (u, s') ->
  user_input s' = user_input s /\ warned s' = warned s.
Proof. by intros [= _ <-]. Qed.

(** *** Footprints of monadic code *)

Lemma frame_weaken fp fp' s s' :
  forallb (fun a => covered a fp') fp = true -> frame fp s s' -> frame fp' s s'.
Proof.
  intros Hc H q Hq. apply H. apply forallb_forall. intros a Ha.
  rewrite forallb_forall in Hc. eauto using covered_untouched.
Qed.

Lemma mframe_weaken {A} fp fp' (c : M A) :
  forallb (fun a => covered a fp') fp = true -> mframe fp c -> mframe fp' c.
Proof. intros Hc H s r s' Hrun. eauto using frame_weaken. Qed.

Lemma mframe_bind {A B} fp (c : M A) (k : A -> M B) :
  mframe fp c -> (forall a, mframe fp (k a)) -> mframe fp (bind c k).
Proof.
  intros Hc Hk s r s' H. apply bind_ok in H as (a & s1 & H1 & H2).
  eapply frame_trans; [by eapply Hc|by eapply Hk].
Qed.

Lemma mframe_ret {A} fp (a : A) : mframe fp (ret a).
Proof. intros s r s' H. apply ret_ok in H as [_ ->]. apply frame_refl. Qed.

Lemma mframe_lift {A} fp (x : result A) : mframe fp (lift x).
Proof. intros s r s' H. apply lift_ok in H as [_ ->]. apply frame_refl. Qed.

Lemma mframe_input_getitem fp k : mframe fp (input_getitem k).
Proof. intros s r s' H. apply input_getitem_ok in H as [-> _]. apply frame_refl. Qed.

Lemma mframe_input_get fp k : mframe fp (input_get k).
Proof. intros s r s' H. apply input_get_ok in H as [-> _]. apply frame_refl. Qed.

Lemma mframe_self_general fp : mframe fp self_general.
Proof. intros s r s' H. apply self_general_ok in H as [-> _]. apply frame_refl. Qed.

Lemma mframe_general_getitem fp k : mframe fp (general_getitem k).
Proof. intros s r s' H. apply general_getitem_ok in H as [-> _]. apply frame_refl. Qed.

Lemma mframe_warnings_warn fp msg : mframe fp (warnings_warn msg).
Proof. intros s r s' H. apply warnings_warn_ok in H as [? _]. by apply frame_same. Qed.

Lemma mframe_logger_info fp msg : mframe fp (logger_info msg).
Proof. intros s r s' H. apply logger_info_ok in H as [? _]. by apply frame_same. Qed.

Lemma mframe_yaml_dump fp file v : mframe fp (yaml_dump file v).
Proof. intros s r s' H. apply yaml_dump_ok in H as [? _]. by apply frame_same. Qed.

Lemma mframe_input_setitem fp k v :
  covered (Wr [k]) fp = true -> mframe fp (input_setitem k v).
Proof.
  intros Hc s r s' H. apply input_setitem_ok in H as (_ & H & _).
  eauto using frame_covered.
Qed.

Lemma mframe_general_store fp k v :
  covered (Wr [cgs; k]) fp = true -> mframe fp (general_store k v).
Proof.
  intros Hc s r s' H. apply general_store_ok in H as (_ & H & _).
  eauto using frame_covered.
Qed.

Lemma mframe_spec_setattr fp r p x :
  covered (Wr (cgs :: r :: p)) fp = true -> mframe fp (spec_setattr r p x).
Proof.
  intros Hc s u s' H. apply spec_setattr_ok in H as (_ & H & _).
  eauto using frame_covered.
Qed.

Lemma mframe_spec_touch fp r p :
  covered (Rd (cgs :: r :: p)) fp = true -> mframe fp (spec_touch r p).
Proof.
  intros Hc s u s' H. apply spec_touch_ok in H as (_ & H & _).
  eauto using frame_covered.
Qed.

Lemma mframe_spec_getattr fp r p :
  covered (Rd (cgs :: r :: p)) fp = true -> mframe fp (spec_getattr r p).
Proof.
  intros Hc s u s' H. apply spec_getattr_ok in H as (_ & H & _).
  eauto using frame_covered.
Qed.

Lemma mframe_spec_append fp r p x :
  covered (Wr (cgs :: r :: p)) fp = true -> mframe fp (spec_append r p x).
Proof.
  intros Hc s u s' H. apply spec_append_ok in H as (_ & H & _).
  eauto using frame_covered.
Qed.

Lemma mframe_spec_delitem fp r p k :
  covered (Wr (cgs :: r :: p ++ [k])) fp = true -> mframe fp (spec_delitem r p k).
Proof.
  intros Hc s u s' H. apply spec_delitem_ok in H as (H & _).
  eauto using frame_covered.
Qed.

(** Footprints are checked by walking over the code. *)
Ltac mframe_step :=
  lazymatch goal with
  | |- mframe _ (bind _ _) => apply mframe_bind; [|intros ?]
  | |- mframe _ (ret _) => apply mframe_ret
  | |- mframe _ (lift _) => apply mframe_lift
  | |- mframe _ (input_getitem _) => apply mframe_input_getitem
  | |- mframe _ (input_get _) => apply mframe_input_get
  | |- mframe _ self_general => apply mframe_self_general
  | |- mframe _ (general_getitem _) => apply mframe_general_getitem
  | |- mframe _ (warnings_warn _) => apply mframe_warnings_warn
  | |- mframe _ (logger_info _) => apply mframe_logger_info
  | |- mframe _ (yaml_dump _ _) => apply mframe_yaml_dump
  | |- mframe _ (input_setitem _ _) => apply mframe_input_setitem; reflexivity
  | |- mframe _ (general_store _ _) => apply mframe_general_store; reflexivity
  | |- mframe _ (spec_setattr _ _ _) => apply mframe_spec_setattr; reflexivity
  | |- mframe _ (spec_touch _ _) => apply mframe_spec_touch; reflexivity
  | |- mframe _ (spec_getattr _ _) => apply mframe_spec_getattr; reflexivity
  | |- mframe _ (spec_append _ _ _) => apply mframe_spec_append; reflexivity
  | |- mframe _ (spec_delitem _ _ _) => apply mframe_spec_delitem; reflexivity
  | |- mframe _ (template_of _ ?v) =>
      unfold template_of; destruct v as [| | | | | | |[] ?]
  | |- mframe _ (if ?b then _ else _) => destruct b
  end.

Ltac mframe_auto := repeat mframe_step.

Section Footprints.

Variable valence_electrons : gmap string Z.
Variable Molecule : value -> result (list string).
Variable create_settings_from_template :
  gmap string value -> value -> value -> result value.
Variable abspath : string -> string.
Variable absolute_posix : string -> string.

Lemma create_settings_mframe : mframe fp_specs create_settings.
Proof. unfold create_settings. mframe_auto. Qed.

Lemma apply_templates_mframe :
  mframe fp_specs (apply_templates create_settings_from_template).
Proof. unfold apply_templates, apply_template. mframe_auto. Qed.

Lemma compute_homo_index_mframe fp :
  mframe fp (compute_homo_index valence_electrons Molecule).
Proof. unfold compute_homo_index. mframe_auto. Qed.

Lemma add_mo_index_range_mframe : mframe fp_mo_index_range add_mo_index_range.
Proof. unfold add_mo_index_range. mframe_auto. Qed.

Lemma add_restart_point_mframe :
  mframe fp_restart (add_restart_point absolute_posix).
Proof. unfold add_restart_point. mframe_auto. Qed.

Lemma add_basis_mframe : mframe (both fp_basis_of) (add_basis abspath).
Proof.
  unfold add_basis, add_basis_to, select_basis_file, basis_file. mframe_auto.
Qed.

Lemma add_cell_parameters_mframe : mframe (both fp_cell_of) add_cell_parameters.
Proof. unfold add_cell_parameters, add_cell_parameters_to. mframe_auto. Qed.

Lemma add_periodic_mframe : mframe (both fp_periodic_of) add_periodic.
Proof. unfold add_periodic, add_periodic_to. mframe_auto. Qed.

Lemma add_charge_mframe : mframe (both fp_charge_of) add_charge.
Proof. unfold add_charge, add_charge_to. mframe_auto. Qed.

Lemma add_multiplicity_mframe : mframe (both fp_multiplicity_of) add_multiplicity.
Proof. unfold add_multiplicity, add_multiplicity_to. mframe_auto. Qed.

Lemma add_executable_mframe : mframe (both fp_executable_of) add_executable.
Proof. unfold add_executable. mframe_auto. Qed.

Lemma print_final_input_mframe fp : mframe fp print_final_input.
Proof. unfold print_final_input. intros s r s' H. by eapply mframe_yaml_dump. Qed.

End Footprints.

(** *** What each stage establishes *)

(** One step of symbolic execution of a successful run [H]: the first
    statement produced [a] and the fact [Hc]. *)
Tactic Notation "mstep" hyp(H) "as" ident(a) ident(Hc) :=
  let s1 := fresh "s" in
  apply bind_ok in H as (a & s1 & Hc & H);
  first
    [ apply general_getitem_ok in Hc as [-> Hc]
    | apply input_getitem_ok in Hc as [-> Hc]
    | apply input_get_ok in Hc as [-> Hc]
    | apply lift_ok in Hc as [Hc ->]
    | apply ret_ok in Hc as [Hc ->]
    | apply self_general_ok in Hc as [-> Hc]
    | apply logger_info_ok in Hc as [Hc _] ].

(** The same for a statement that changes the state, which becomes [s1]. *)
Tactic Notation "mstep" hyp(H) "as" ident(a) ident(Hc) "to" ident(s1) :=
  apply bind_ok in H as (a & s1 & Hc & H).

(** Side conditions of frame facts: the paths are concrete up to the name of
    the specification. *)
Ltac side := simpl; rewrite ?String.eqb_refl; reflexivity.

Ltac through H :=
  unfold frame in H;
  repeat match goal with
         | |- context [cfg_lookup ?q _] => rewrite (H q) by side
         end.

Ltac through_in H H' :=
  unfold frame in H;
  repeat match type of H' with
         | context [cfg_lookup ?q _] => rewrite (H q) in H' by side
         end.

Lemma set_from_general_ok r k p s u s' :
  (general_getitem r ;;;
   v <- general_getitem k ;;
   spec_setattr r p v) s = Ok (u, s') ->
  exists v, cfg_lookup [cgs; k] s = Some v /\
            cfg_lookup (at_spec r p) s' = Some (box v) /\
            frame [Wr (at_spec r p)] s s'.
Proof.
  intros H. mstep H as t Ht. mstep H as v Hv.
  apply spec_setattr_ok in H as (Hset & Hfr & _). eauto.
Qed.

Lemma add_executable_ok s u s' :
  add_executable s = Ok (u, s') ->
  exists e, cfg_lookup [cgs; "executable"] s = Some e /\
            cfg_lookup (at_spec main ["executable"]) s' = Some (box e) /\
            cfg_lookup (at_spec guess ["executable"]) s' = Some (box e).
Proof.
  unfold add_executable. intros H. mstep H as e He. mstep H as u1 H1 to s1.
  apply spec_setattr_ok in H1 as (Hm & Hf1 & _).
  mstep H as e2 He2. apply spec_setattr_ok in H as (Hg & Hf2 & _).
  through Hf1. through Hf2. exists e. split; [done|]. split; [done|].
  rewrite Hf1 in He2 by side. congruence.
Qed.

Lemma add_periodic_ok s u s' :
  add_periodic s = Ok (u, s') ->
  exists v, cfg_lookup [cgs; "periodic"] s = Some v /\
    cfg_lookup (at_spec main (subsys_cell ++ ["periodic"])) s' = Some (box v) /\
    cfg_lookup (at_spec guess (subsys_cell ++ ["periodic"])) s' = Some (box v).
Proof.
  unfold add_periodic. intros H.
  apply bind_ok in H as (u1 & s1 & H1 & H2).
  apply set_from_general_ok in H1 as (v & Hv & Hm & Hf1).
  apply set_from_general_ok in H2 as (v2 & Hv2 & Hg & Hf2).
  through Hf1. through Hf2. exists v. split; [done|]. split; [done|].
  rewrite Hf1 in Hv2 by side. congruence.
Qed.

Lemma add_charge_ok s u s' :
  add_charge s = Ok (u, s') ->
  exists v, cfg_lookup [cgs; "charge"] s = Some v /\
    cfg_lookup (at_spec main (dft ++ ["charge"])) s' = Some (box v) /\
    cfg_lookup (at_spec guess (dft ++ ["charge"])) s' = Some (box v).
Proof.
  unfold add_charge. intros H.
  apply bind_ok in H as (u1 & s1 & H1 & H2).
  apply set_from_general_ok in H1 as (v & Hv & Hm & Hf1).
  apply set_from_general_ok in H2 as (v2 & Hv2 & Hg & Hf2).
  through Hf1. through Hf2. exists v. split; [done|]. split; [done|].
  rewrite Hf1 in Hv2 by side. congruence.
Qed.

Lemma add_multiplicity_to_ok r s u s' :
  add_multiplicity_to r s = Ok (u, s') ->
  exists v, cfg_lookup [cgs; "multiplicity"] s = Some v /\
    cfg_lookup (at_spec r (dft ++ ["multiplicity"])) s' = Some (box v) /\
    cfg_lookup (at_spec r (dft ++ ["uks"])) s' = Some (VStr "").
Proof.
  unfold add_multiplicity_to. intros H. mstep H as t Ht. mstep H as v Hv.
  mstep H as u1 H1 to s1.
  apply spec_setattr_ok in H1 as (Hm & Hf1 & _).
  apply spec_setattr_ok in H as (Hu & Hf2 & _).
  exists v. split; [done|]. split; [|done]. through Hf2. done.
Qed.

Lemma add_multiplicity_to_guess_mframe :
  mframe (fp_multiplicity_of guess) (add_multiplicity_to guess).
Proof. unfold add_multiplicity_to. mframe_auto. Qed.

Lemma add_multiplicity_ok s u s' :
  add_multiplicity s = Ok (u, s') ->
  exists v n, cfg_lookup [cgs; "multiplicity"] s = Some v /\ as_int v = Ok n /\
    if 1 <? n then
      cfg_lookup (at_spec main (dft ++ ["multiplicity"])) s' = Some (box v) /\
      cfg_lookup (at_spec main (dft ++ ["uks"])) s' = Some (VStr "") /\
      cfg_lookup (at_spec guess (dft ++ ["multiplicity"])) s' = Some (box v) /\
      cfg_lookup (at_spec guess (dft ++ ["uks"])) s' = Some (VStr "")
    else s' = s.
Proof.
  unfold add_multiplicity. intros H. mstep H as v Hv. mstep H as n Hn.
  exists v, n. split; [done|]. split; [done|].
  destruct (1 <? n).
  - apply bind_ok in H as (u1 & s1 & H1 & H2).
    pose proof (add_multiplicity_to_guess_mframe _ _ _ H2) as Hf2.
    assert (frame [Wr [cgs; main]] s s1) as Hf1.
    { eapply (mframe_weaken (fp_multiplicity_of main)); [done| |exact H1].
      unfold add_multiplicity_to. mframe_auto. }
    apply add_multiplicity_to_ok in H1 as (v1 & Hv1 & Hm & Hu).
    apply add_multiplicity_to_ok in H2 as (v2 & Hv2 & Hm2 & Hu2).
    through Hf2. rewrite Hf1 in Hv2 by side.
    assert (v1 = v) as -> by congruence. assert (v2 = v) as -> by congruence.
    done.
  - by apply ret_ok in H as [_ ->].
Qed.

Lemma add_cell_parameters_to_ok r s u s' :
  add_cell_parameters_to r s = Ok (u, s') ->
  exists f, cfg_lookup [cgs; "file_cell_parameters"] s = Some f /\
    cfg_lookup (at_spec r ["cell_angles"]) s' = Some VNone /\
    (if is_none f
     then exists c, cfg_lookup [cgs; "cell_parameters"] s = Some c /\
                    cfg_lookup (at_spec r ["cell_parameters"]) s' = Some (box c)
     else cfg_lookup (at_spec r ["cell_parameters"]) s' = Some VNone).
Proof.
  unfold add_cell_parameters_to. intros H. mstep H as t Ht. mstep H as f Hf.
  apply bind_ok in H as (u1 & s1 & H1 & H2).
  apply spec_setattr_ok in H2 as (Ha & Hf2 & _).
  exists f. split; [done|]. split; [done|].
  destruct (is_none f).
  - mstep H1 as c Hc. mstep H1 as u2 H0 to s0.
    apply spec_setattr_ok in H0 as (Hp & Hf0 & _).
    apply spec_setattr_ok in H1 as (_ & Hf1 & _).
    exists c. split; [done|]. through Hf2. through Hf1. done.
  - apply spec_setattr_ok in H1 as (Hp & Hf1 & _). through Hf2. done.
Qed.

Lemma add_cell_parameters_to_guess_mframe :
  mframe (fp_cell_of guess) (add_cell_parameters_to guess).
Proof. unfold add_cell_parameters_to. mframe_auto. Qed.

Lemma add_cell_parameters_ok s u s' :
  add_cell_parameters s = Ok (u, s') ->
  exists f, cfg_lookup [cgs; "file_cell_parameters"] s = Some f /\
    cfg_lookup (at_spec main ["cell_angles"]) s' = Some VNone /\
    cfg_lookup (at_spec guess ["cell_angles"]) s' = Some VNone /\
    (is_none f = false ->
     cfg_lookup (at_spec main ["cell_parameters"]) s' = Some VNone /\
     cfg_lookup (at_spec guess ["cell_parameters"]) s' = Some VNone).
Proof.
  unfold add_cell_parameters. intros H.
  apply bind_ok in H as (u1 & s1 & H1 & H2).
  pose proof (add_cell_parameters_to_guess_mframe _ _ _ H2) as Hf2.
  assert (frame [Wr [cgs; main]] s s1) as Hf1.
  { eapply (mframe_weaken (fp_cell_of main)); [done| |exact H1].
    unfold add_cell_parameters_to. mframe_auto. }
  apply add_cell_parameters_to_ok in H1 as (f & Hf & Ha1 & Hp1).
  apply add_cell_parameters_to_ok in H2 as (f2 & Hff & Ha2 & Hp2).
  rewrite Hf1 in Hff by side. assert (f2 = f) as -> by congruence.
  through Hf2. exists f. split; [done|]. split; [done|]. split; [done|].
  intros Hn. rewrite Hn in Hp1, Hp2. done.
Qed.

Lemma tree_lookup_app p q t :
  tree_lookup (p ++ q) t =
  match tree_lookup p t with Some v => tree_lookup q v | None => None end.
Proof.
  revert t; induction p as [|k p IH]; intros t; [done|].
  simpl. destruct t; try done. destruct (_ !! k); [apply IH|done].
Qed.

Lemma add_mo_index_range_ok s u s' :
  add_mo_index_range s = Ok (u, s') ->
  exists a h lo hi added,
    cfg_lookup ["active_space"] s = Some a /\
    cfg_lookup ["nHOMO"] s = Some h /\
    rbind (py_index a 0) (py_sub h) = Ok lo /\
    rbind (py_index a 1) (py_add h) = Ok hi /\
    py_sub (VInt hi) h = Ok added /\
    cfg_lookup ["mo_index_range"] s' = Some (VTuple [VInt lo; VInt hi]) /\
    cfg_lookup (at_spec main (dft_print ++ ["mo"; "mo_index_range"])) s'
      = Some (VStr (format2 (lo + 1) hi)) /\
    cfg_lookup (at_spec main (dft ++ ["scf"; "added_mos"])) s'
      = Some (VInt added).
Proof.
  unfold add_mo_index_range. intros H.
  mstep H as a Ha. mstep H as h Hh. mstep H as lo Hlo. mstep H as hi Hhi.
  mstep H as u1 H1 to s1. apply input_setitem_ok in H1 as (Hr & _).
  mstep H as u2 H2 to s2. apply spec_touch_ok in H2 as (_ & F2 & _).
  mstep H as u3 H3 to s3. apply spec_setattr_ok in H3 as (Hp & F3 & _).
  mstep H as added Hadd.
  mstep H as u4 H4 to s4. apply spec_setattr_ok in H4 as (Hm & F4 & _).
  mstep H as u5 H5 to s5. apply spec_touch_ok in H5 as (_ & F5 & _).
  mstep H as u6 H6 to s6. apply spec_setattr_ok in H6 as (_ & F6 & _).
  mstep H as u7 H7 to s7. apply spec_setattr_ok in H7 as (_ & F7 & _).
  mstep H as u8 H8 to s8. apply spec_setattr_ok in H8 as (_ & F8 & _).
  mstep H as u9 H9 to s9. apply spec_setattr_ok in H9 as (_ & F9 & _).
  apply spec_setattr_ok in H as (_ & F10 & _).
  exists a, h, lo, hi, added. repeat (split; [done|]).
  through F10. through F9. through F8. through F7. through F6. through F5.
  through F4. split; [|split; [|done]].
  - through F3. through F2. done.
  - done.
Qed.

Section Stages.

Variable valence_electrons : gmap string Z.
Variable Molecule : value -> result (list string).
Variable create_settings_from_template :
  gmap string value -> value -> value -> result value.
Variable abspath : string -> string.
Variable absolute_posix : string -> string.

Lemma homo_formula n : n / 2 + n mod 2 = ceil_half n.
Proof.
  unfold ceil_half.
  pose proof (Z.div_mod n 2 ltac:(lia)). pose proof (Z.mod_pos_bound n 2 ltac:(lia)).
  pose proof (Z.div_mod (- n) 2 ltac:(lia)).
  pose proof (Z.mod_pos_bound (- n) 2 ltac:(lia)). lia.
Qed.

Lemma compute_homo_index_ok s n s' :
  compute_homo_index valence_electrons Molecule s = Ok (n, s') ->
  exists basis charge path atoms total c,
    cfg_lookup [cgs; "basis"] s = Some basis /\
    cfg_lookup [cgs; "charge"] s = Some charge /\
    cfg_lookup ["path_traj_xyz"] s = Some path /\
    Molecule path = Ok atoms /\
    sum_valence valence_electrons basis atoms 0 = Ok total /\
    as_int charge = Ok c /\
    n = (total - c) / 2 + (total - c) mod 2 /\
    user_input s' = user_input s /\
    warned s' = (warned s ++ odd_warnings (total - c))%list.
Proof.
  unfold compute_homo_index. intros H.
  mstep H as basis Hb. mstep H as charge Hc. mstep H as path Hp.
  mstep H as atoms Ha. mstep H as total Ht. mstep H as c Hi.
  exists basis, charge, path, atoms, total, c. repeat (split; [done|]).
  apply bind_ok in H as (u & s1 & Hw & H). apply ret_ok in H as [-> ->].
  split; [done|]. unfold odd_warnings.
  destruct (negb (_ =? 0)).
  - by apply warnings_warn_ok in Hw as [? ?].
  - apply ret_ok in Hw as [_ ->]. by rewrite app_nil_r.
Qed.

Lemma compute_homo_index_run s basis charge path atoms total c :
  cfg_lookup [cgs; "basis"] s = Some basis ->
  cfg_lookup [cgs; "charge"] s = Some charge ->
  cfg_lookup ["path_traj_xyz"] s = Some path ->
  Molecule path = Ok atoms ->
  sum_valence valence_electrons basis atoms 0 = Ok total ->
  as_int charge = Ok c ->
  compute_homo_index valence_electrons Molecule s =
  Ok ((total - c) / 2 + (total - c) mod 2,
      State (user_input s) (warned s ++ odd_warnings (total - c))
            (logged s) (dumped s)).
Proof.
  intros Hb Hc Hp Ha Ht Hi. unfold compute_homo_index.
  rewrite (bind_run _ _ _ _ _ (general_getitem_run _ _ _ Hb)).
  rewrite (bind_run _ _ _ _ _ (general_getitem_run _ _ _ Hc)).
  unfold cfg_lookup in Hp. rewrite tree_lookup_cons in Hp.
  unfold bind at 1. unfold input_getitem.
  destruct (user_input s !! "path_traj_xyz") as [p|]; [|done].
  injection Hp as ->. unfold bind, lift. rewrite Ha, Ht, Hi. unfold odd_warnings.
  destruct (negb (_ =? 0)); simpl; [done|]. rewrite app_nil_r. by destruct s.
Qed.

Lemma basis_file_ok name s v s' :
  basis_file abspath name s = Ok (v, s') ->
  s' = s /\ exists d, cfg_lookup [cgs; "path_basis"] s = Some (VStr d) /\
                      v = VStr (abspath (path_join d name)).
Proof.
  unfold basis_file. intros H. mstep H as pb Hpb. mstep H as d Hd.
  apply ret_ok in H as [-> ->]. split; [done|]. exists d.
  destruct pb; try done. by injection Hd as ->.
Qed.


End Stages.

(** ** The pipeline as a whole *)

Section Pipeline.

Variable valence_electrons : gmap string Z.
Variable Molecule : value -> result (list string).
Variable create_settings_from_template :
  gmap string value -> value -> value -> result value.
Variable abspath : string -> string.
Variable absolute_posix : string -> string.

#[local] Abbreviation sanitize' :=
  (sanitize valence_electrons Molecule create_settings_from_template
            abspath absolute_posix).

Lemma unit_eta (u : unit) : u = tt.
Proof. by destruct u. Qed.

Lemma sanitize_stages s0 out sf :
  sanitize' s0 = Ok (out, sf) ->
  exists t, st_input t = s0 /\ out = user_input (st_final t) /\
    run_of valence_electrons Molecule create_settings_from_template
           abspath absolute_posix t.
Proof.
  unfold sanitize. intros H.
  mstep H as u1 H1 to s1. mstep H as u2 H2 to s2.
  mstep H as u3 H3 to s11. mstep H as u4 H4 to s12.
  mstep H as u5 H5 to s13. injection H as <- _.
  unfold print_final_input in H5. apply yaml_dump_ok in H5 as [H5 _].
  unfold add_missing_keywords in H3.
  mstep H3 as h Hh. mstep H3 as u6 H6 to s3.
  mstep H3 as co Hco. mstep H3 as u7 H7 to s4.
  mstep H3 as u8 H8 to s5. mstep H3 as u9 H9 to s6.
  mstep H3 as u10 H10 to s7. mstep H3 as u11 H11 to s8.
  mstep H3 as u12 H12 to s9.
  rewrite (unit_eta u1) in H1. rewrite (unit_eta u2) in H2.
  rewrite (unit_eta u3) in H3. rewrite (unit_eta u4) in H4.
  rewrite (unit_eta u8) in H8. rewrite (unit_eta u9) in H9.
  rewrite (unit_eta u10) in H10. rewrite (unit_eta u11) in H11.
  rewrite (unit_eta u12) in H12.
  exists (Stages s0 s1 s2 s3 s4 s5 s6 s7 s8 s9 s11 s12).
  split; [done|]. split; [by rewrite H5|].
  unfold run_of. simpl. repeat (split; [done|]).
  split; [|split; [|done]].
  - unfold derive_homo. rewrite <- Hh. destruct (is_none h).
    + mstep H6 as n Hn to s2'. rewrite (unit_eta u6) in H6. eauto.
    + by apply ret_ok in H6 as [_ ->].
  - unfold derive_orbitals. rewrite <- Hco. destruct (truthy co).
    + by rewrite (unit_eta u7) in H7.
    + by apply logger_info_ok in H7 as [? _].
Qed.

Lemma run_frames t :
  run_of valence_electrons Molecule create_settings_from_template
         abspath absolute_posix t ->
  frames_of t.
Proof.
  intros (H1 & H2 & H3 & H4 & H5 & H6 & H7 & H8 & H9 & H10 & H11).
  unfold frames_of. repeat split.
  - by eapply create_settings_mframe.
  - by eapply apply_templates_mframe.
  - unfold derive_homo in H3. destruct (is_none _).
    + destruct H3 as (n & s1 & Hc & Hs).
      eapply frame_trans; [by eapply compute_homo_index_mframe|].
      by apply input_setitem_ok in Hs as (_ & ? & _).
    + rewrite H3. apply frame_refl.
  - unfold derive_orbitals in H4. destruct (truthy _).
    + by eapply add_mo_index_range_mframe.
    + by apply frame_same.
  - by eapply add_restart_point_mframe.
  - by eapply add_basis_mframe.
  - by eapply add_cell_parameters_mframe.
  - by eapply add_periodic_mframe.
  - by eapply add_charge_mframe.
  - by eapply add_multiplicity_mframe.
  - by eapply add_executable_mframe.
Qed.

End Pipeline.

(** ** Properties of the sanitized configuration *)

(** Opening a successful run: its states, the stage that led to each, and
    what each stage left untouched. *)
Ltac open_run H :=
  let E0 := fresh "E0" in
  let Hrun := fresh "Hrun" in
  apply sanitize_stages in H
    as ([s0 s1 s2 s3 s4 s5 s6 s7 s8 s9 s10 s11] & E0 & -> & Hrun);
  simpl in E0; subst s0;
  pose proof (run_frames _ _ _ _ _ _ Hrun)
    as (F1 & F2 & F3 & F4 & F5 & F6 & F7 & F8 & F9 & F10 & F11);
  destruct Hrun as (R1 & R2 & R3 & R4 & R5 & R6 & R7 & R8 & R9 & R10 & R11);
  cbn [st_input st_settings st_templates st_homo st_orbitals st_restart
       st_basis st_cell st_periodic st_charge st_multiplicity st_final] in *;
  change (lookup_in (user_input ?s) ?q) with (cfg_lookup q s) in *;
  change (lookup_in ?c ?q) with (cfg_lookup q (InputSanitizer c)) in *.

(** A lookup in a later state is the lookup in the state after the last
    stage that wrote there. *)
Ltac back :=
  repeat match goal with
         | F : frame _ _ ?s' |- context [cfg_lookup ?q ?s'] =>
             rewrite (frame_apply _ _ _ q F) by side
         | F : frame _ _ ?s', H : context [cfg_lookup ?q ?s'] |- _ =>
             rewrite (frame_apply _ _ _ q F) in H by side
         end.

Section Properties.

Variable valence_electrons : gmap string Z.
Variable Molecule : value -> result (list string).
Variable create_settings_from_template :
  gmap string value -> value -> value -> result value.
Variable abspath : string -> string.
Variable absolute_posix : string -> string.

#[local] Abbreviation sanitize' :=
  (sanitize valence_electrons Molecule create_settings_from_template
            abspath absolute_posix).

(** *** The electron count *)

Lemma sum_valence_total basis symbols total acc :
  valence_total valence_electrons basis symbols = Some total ->
  sum_valence valence_electrons (VStr basis) symbols acc = Ok (acc + total).
Proof.
  revert total acc; induction symbols as [|a l IH]; intros total acc H.
  - injection H as <-. simpl. f_equal. lia.
  - simpl in H |- *. destruct (valence_electrons !! _) as [n|]; [|done].
    destruct (valence_total valence_electrons basis l) as [m|]; [|done].
    injection H as <-.
    rewrite (IH m _ eq_refl). f_equal. lia.
Qed.

Lemma lookup_in_top (cfg : gmap string value) k : lookup_in cfg [k] = cfg !! k.
Proof. unfold lookup_in. simpl. by destruct (cfg !! k). Qed.

Lemma add_basis_to_guess_mframe :
  mframe (fp_basis_of guess) (add_basis_to abspath guess).
Proof. unfold add_basis_to, select_basis_file, basis_file. mframe_auto. Qed.

Lemma add_basis_to_main_mframe :
  mframe (fp_basis_of main) (add_basis_to abspath main).
Proof. unfold add_basis_to, select_basis_file, basis_file. mframe_auto. Qed.


(** C9. After a successful sanitization both job specifications hold, under
    the key "executable", the shared "executable" scalar of the general
    settings. *)
Theorem executable_on_both_specifications cfg out sf e :
  sanitize' (InputSanitizer cfg) = Ok (out, sf) ->
  lookup_in cfg [cgs; "executable"] = Some (VStr e) ->
  lookup_in out (at_spec main ["executable"]) = Some (VStr e) /\
  lookup_in out (at_spec guess ["executable"]) = Some (VStr e).
Proof.
  intros H He. open_run H.
  apply add_executable_ok in R11 as (e' & He' & Hm & Hg).
  back. rewrite He in He'. injection He' as <-. done.
Qed.

(** C6. After a successful sanitization the cell-angles field of both job
    specifications is [None], whichever branch of the cell-parameters step
    ran; and when a cell-parameters file was supplied, the cell-parameters
    field of both specifications is [None] as well. *)
Theorem cell_angles_always_unset cfg out sf :
  sanitize' (InputSanitizer cfg) = Ok (out, sf) ->
  lookup_in out (at_spec main ["cell_angles"]) = Some VNone /\
  lookup_in out (at_spec guess ["cell_angles"]) = Some VNone /\
  (forall file, lookup_in cfg [cgs; "file_cell_parameters"] = Some file ->
                is_none file = false ->
     lookup_in out (at_spec main ["cell_parameters"]) = Some VNone /\
     lookup_in out (at_spec guess ["cell_parameters"]) = Some VNone).
Proof.
  intros H. open_run H.
  apply add_cell_parameters_ok in R7 as (f & Hf & Ham & Hag & Hp).
  back. split; [done|]. split; [done|].
  intros file Hfile Hn. rewrite Hfile in Hf. injection Hf as <-. auto.
Qed.


(** C5, as the code has it. After a successful sanitization both job
    specifications hold the periodicity and the charge of the general
    settings. When the multiplicity exceeds 1 both hold the multiplicity and
    the (empty) unrestricted-spin flag. When it does not, sanitization
    leaves under these two keys what each specification held after the
    template overlay: nothing is added and nothing is removed. *)
Theorem shared_parameters_on_both_specifications
    cfg out sf periodic charge multiplicity :
  sanitize' (InputSanitizer cfg) = Ok (out, sf) ->
  lookup_in cfg [cgs; "periodic"] = Some (VStr periodic) ->
  lookup_in cfg [cgs; "charge"] = Some (VInt charge) ->
  lookup_in cfg [cgs; "multiplicity"] = Some (VInt multiplicity) ->
  forall x, x = main \/ x = guess ->
    lookup_in out (at_spec x (subsys_cell ++ ["periodic"])) = Some (VStr periodic) /\
    lookup_in out (at_spec x (dft ++ ["charge"])) = Some (VInt charge) /\
    (1 < multiplicity ->
       lookup_in out (at_spec x (dft ++ ["multiplicity"]))
         = Some (VInt multiplicity) /\
       lookup_in out (at_spec x (dft ++ ["uks"])) = Some (VStr "")) /\
    (multiplicity <= 1 ->
       exists st, overlaid create_settings_from_template cfg st /\
         lookup_in out (at_spec x (dft ++ ["multiplicity"]))
           = cfg_lookup (at_spec x (dft ++ ["multiplicity"])) st /\
         lookup_in out (at_spec x (dft ++ ["uks"]))
           = cfg_lookup (at_spec x (dft ++ ["uks"])) st).
Proof.
  intros H Hp Hc Hm x Hx. open_run H.
  pose proof R8 as R8'. pose proof R9 as R9'. pose proof R10 as R10'.
  apply add_periodic_ok in R8' as (p & Hp' & Hpm & Hpg).
  apply add_charge_ok in R9' as (c & Hc' & Hcm & Hcg).
  apply add_multiplicity_ok in R10' as (m & n & Hm' & Hn & Hmult).
  back. rewrite Hp in Hp'. rewrite Hc in Hc'. rewrite Hm in Hm'.
  injection Hp' as <-. injection Hc' as <-. injection Hm' as <-.
  simpl in Hn. injection Hn as <-. simpl box in *.
  assert (multiplicity <= 1 -> s10 = s9) as Hsame.
  { intros Hle. apply Z.ltb_ge in Hle. by rewrite Hle in Hmult. }
  assert (overlaid create_settings_from_template cfg s2) as Hov by (by exists s1).
  destruct Hx as [-> | ->]; back.
  all: split; [done|]; split; [done|]; split.
  1,3: intros Hgt; apply Z.ltb_lt in Hgt; rewrite Hgt in Hmult;
       by destruct Hmult as (? & ? & ? & ?).
  all: intros Hle; specialize (Hsame Hle); subst s10; clear F10;
       exists s2; split; [done|]; back; done.
Qed.

(** C2. With [compute_orbitals] true and [active_space = (below, above)], a
    successful sanitization sets [mo_index_range] to
    [(nHOMO - below, nHOMO + above)], prints in the main job specification
    the range from [mo_index_range[0] + 1] to [mo_index_range[1]], and sets
    [added_mos] to [mo_index_range[1] - nHOMO]. The printed keyword is the
    text of the two bounds in decimal notation ([pretty]), the lower one
    first, with one space between them. *)
Theorem mo_index_range_derived cfg out sf active_space below above :
  sanitize' (InputSanitizer cfg) = Ok (out, sf) ->
  cfg !! "compute_orbitals" = Some (VBool true) ->
  cfg !! "active_space" = Some active_space ->
  py_index active_space 0 = Ok (VInt below) ->
  py_index active_space 1 = Ok (VInt above) ->
  exists h nHOMO,
    out !! "nHOMO" = Some h /\ as_int h = Ok nHOMO /\
    out !! "mo_index_range"
      = Some (VTuple [VInt (nHOMO - below); VInt (nHOMO + above)]) /\
    lookup_in out (at_spec main (dft_print ++ ["mo"; "mo_index_range"]))
      = Some (VStr (pretty (nHOMO - below + 1) ++ " " ++
                    pretty (nHOMO + above))) /\
    lookup_in out (at_spec main (dft ++ ["scf"; "added_mos"]))
      = Some (VInt (nHOMO + above - nHOMO)).
Proof.
  intros H Hco Has H0 H1. rewrite <- !lookup_in_top in *. open_run H.
  unfold derive_orbitals in R4. back. rewrite Hco in R4. simpl in R4.
  apply add_mo_index_range_ok in R4
    as (a & h & lo & hi & added & Ha & Hh & Hlo & Hhi & Hadd & Hr & Hpr & Hmos).
  back. rewrite Has in Ha. injection Ha as <-.
  rewrite H0 in Hlo. rewrite H1 in Hhi. simpl in Hlo, Hhi.
  unfold py_sub, py_add in *.
  destruct (as_int h) as [n|] eqn:Hn; [|done]. simpl in Hlo, Hhi, Hadd.
  injection Hlo as <-. injection Hhi as <-. injection Hadd as <-.
  exists h, n. done.
Qed.

Lemma validated_orbitals cfg :
  validated cfg = true ->
  cfg !! "mo_index_range" = None /\
  exists b, cfg !! "compute_orbitals" = Some (VBool b).
Proof.
  unfold validated. intros H.
  repeat (apply andb_prop in H as [H ?]).
  unfold absent, holds in *. split.
  - by destruct (cfg !! "mo_index_range").
  - destruct (cfg !! "compute_orbitals") as [[]|]; try done. eauto.
Qed.

(** C4. After the sanitization of a validated configuration the key
    "mo_index_range" is present exactly when the computation of the orbitals
    was requested. *)
Theorem mo_index_range_iff_orbitals cfg out sf :
  validated cfg = true ->
  sanitize' (InputSanitizer cfg) = Ok (out, sf) ->
  is_Some (out !! "mo_index_range") <-> cfg !! "compute_orbitals" = Some (VBool true).
Proof.
  intros Hv H. apply validated_orbitals in Hv as (Hnone & b & Hco).
  rewrite <- !lookup_in_top in *. open_run H.
  unfold derive_orbitals in R4. back. rewrite Hco in R4 |- *. simpl in R4.
  destruct b.
  - apply add_mo_index_range_ok in R4
      as (a & h & lo & hi & added & _ & _ & _ & _ & _ & Hr & _).
    rewrite Hr. split; [done|by eexists].
  - assert (cfg_lookup ["mo_index_range"] s4 = cfg_lookup ["mo_index_range"] s3)
      as -> by (unfold cfg_lookup; by rewrite R4).
    back. rewrite Hnone. split; [by intros [? ?]|done].
Qed.

(** C1. When the configuration has no explicit nHOMO, a successful
    sanitization sets nHOMO to [ceil(N / 2)], where [N] is the sum over the
    atoms of the valence-electron counts, looked up by "symbol-basis", minus
    the total charge. *)
Theorem homo_index_derived cfg out sf basis charge path atoms total :
  sanitize' (InputSanitizer cfg) = Ok (out, sf) ->
  is_none (default VNone (cfg !! "nHOMO")) = true ->
  lookup_in cfg [cgs; "basis"] = Some (VStr basis) ->
  lookup_in cfg [cgs; "charge"] = Some (VInt charge) ->
  cfg !! "path_traj_xyz" = Some path ->
  Molecule path = Ok atoms ->
  valence_total valence_electrons basis atoms = Some total ->
  out !! "nHOMO" = Some (VInt (ceil_half (total - charge))).
Proof.
  intros H Hn Hb Hc Hp Ha Ht. rewrite <- !lookup_in_top in *. open_run H.
  unfold derive_homo in R3. back. rewrite Hn in R3.
  destruct R3 as (n & s2' & Hrun & Hset).
  apply compute_homo_index_ok in Hrun
    as (b' & c' & p' & at' & t' & ci & Hb' & Hc' & Hp' & Ha' & Ht' & Hi & -> & _).
  back. rewrite Hb in Hb'. rewrite Hc in Hc'. rewrite Hp in Hp'.
  injection Hb' as <-. injection Hc' as <-. injection Hp' as <-.
  rewrite Ha in Ha'. injection Ha' as <-.
  rewrite (sum_valence_total _ _ _ _ Ht) in Ht'. injection Ht' as <-.
  injection Hi as <-.
  apply input_setitem_ok in Hset as (Hset & _). rewrite Hset.
  by rewrite Z.add_0_l, homo_formula.
Qed.

(** C8. For an odd electron count [N] the derivation of the HOMO index warns
    about the unpaired electrons and returns [ceil(N / 2)]: it raises
    nothing and changes nothing else; for [N = 7] the result is 4. *)
Theorem odd_electron_count_warns s basis charge path atoms total :
  cfg_lookup [cgs; "basis"] s = Some (VStr basis) ->
  cfg_lookup [cgs; "charge"] s = Some (VInt charge) ->
  cfg_lookup ["path_traj_xyz"] s = Some path ->
  Molecule path = Ok atoms ->
  valence_total valence_electrons basis atoms = Some total ->
  Z.odd (total - charge) = true ->
  compute_homo_index valence_electrons Molecule s =
    Ok (ceil_half (total - charge),
        State (user_input s) (warned s ++ [odd_warning]) (logged s) (dumped s)) /\
  (total - charge = 7 -> ceil_half (total - charge) = 4).
Proof.
  intros Hb Hc Hp Ha Ht Hodd. split; [|by intros ->].
  rewrite (compute_homo_index_run valence_electrons Molecule s _ _ _ _
             total charge Hb Hc Hp Ha);
    [|by rewrite (sum_valence_total _ _ _ _ Ht)|done].
  rewrite homo_formula. unfold odd_warnings.
  rewrite Z.odd_spec in Hodd. destruct Hodd as [k Hk].
  assert (((total - charge) mod 2 =? 0) = false) as ->; [|done].
  apply Z.eqb_neq. rewrite Hk.
  rewrite Z.add_comm, Z.mul_comm, Z.mod_add by lia. done.
Qed.

End Properties.

(** ** The multipole provider *)

Module MultipoleFacts.

Import Multipole.

Lemma rbind_ok {A B} (r : result A) (k : A -> result B) b :
  rbind r k = Ok b -> exists a, r = Ok a /\ k a = Ok b.
Proof. destruct r; [eauto|done]. Qed.

Section ProviderFacts.

Variable atoms : Type.
Variable matrix : Type.
Variable center : Type.
Variable hdf5 : Type.
Variable search_data_in_hdf5 : hdf5 -> value -> string -> bool.
Variable retrieve_hdf5_data : hdf5 -> value -> string -> result (option matrix).
Variable store_arrays_in_hdf5 :
  hdf5 -> value -> string -> option matrix -> result hdf5.
Variable compute_center_of_mass : atoms -> result center.

Let get := get_multipole_matrix atoms matrix center hdf5 search_data_in_hdf5
             retrieve_hdf5_data store_arrays_in_hdf5 compute_center_of_mass.

Lemma count_snoc (tr : list (event matrix)) e :
  length (filter (fun e => is_computed e = true) (tr ++ [e])%list) =
  (length (filter (fun e => is_computed e = true) tr) +
   if is_computed e then 1 else 0)%nat.
Proof.
  rewrite filter_app, length_app. f_equal.
  rewrite filter_cons, filter_nil. by destruct e.
Qed.

Lemma compute_matrix_multipole_ok mol config multipole (w : world matrix hdf5) m w' :
  compute_matrix_multipole atoms matrix center hdf5 compute_center_of_mass
    mol config multipole w = Ok (m, w') ->
  m = None /\ w' = emit (Computed multipole) w.
Proof.
  unfold compute_matrix_multipole. intros H.
  apply rbind_ok in H as (path & _ & H).
  destruct (String.eqb multipole "overlap").
  - by injection H as <- <-.
  - apply rbind_ok in H as (rc & _ & H). by injection H as <- <-.
Qed.

(** A request for a key that is present with a matrix returns that matrix
    without asking for the integrals. *)
Lemma persisted_matrix_returned i mol config multipole w project file a d :
  config !! "project_name" = Some (VStr project) ->
  config !! "path_hdf5" = Some file ->
  search_data_in_hdf5 (disk w) file (multipole_key project i multipole) = true ->
  retrieve_hdf5_data (disk w) file (multipole_key project i multipole)
    = Ok (Some a) ->
  store_arrays_in_hdf5 (disk w) file (multipole_key project i multipole) (Some a)
    = Ok d ->
  exists w', get i mol config multipole w = Ok (Some a, w') /\
             disk w' = d /\
             computations w' = computations w.
Proof.
  intros Hp Hf Hs Hr Hst. unfold get, get_multipole_matrix, config_getitem.
  rewrite Hp, Hf. simpl. unfold search_multipole_in_hdf5. simpl.
  rewrite Hs, Hr. simpl. rewrite Hst. simpl. eexists. split; [done|].
  split; [done|]. unfold computations. cbn [trace emit].
  rewrite !count_snoc. simpl. lia.
Qed.

(** C10. Every successful call writes the matrix it returns to the store
    under its key, whether it retrieved the matrix or computed it: the
    store is the one that [store_arrays_in_hdf5] returned for that matrix,
    and the write is the last thing the call did. In particular a call that
    found a matrix under the key writes that very matrix back. *)
Theorem store_write_unconditional i mol config multipole w m w' :
  get i mol config multipole w = Ok (m, w') ->
  exists project file before,
    config !! "project_name" = Some (VStr project) /\
    config !! "path_hdf5" = Some file /\
    store_arrays_in_hdf5 (disk before) file
      (multipole_key project i multipole) m = Ok (disk w') /\
    trace w' =
      (trace before ++ [Stored (multipole_key project i multipole) m])%list /\
    disk before = disk w /\
    (forall a,
       search_data_in_hdf5 (disk w) file (multipole_key project i multipole)
         = true ->
       retrieve_hdf5_data (disk w) file (multipole_key project i multipole)
         = Ok (Some a) ->
       m = Some a).
Proof.
  unfold get, get_multipole_matrix, config_getitem. intros H.
  apply rbind_ok in H as (project & Hp & H).
  apply rbind_ok in Hp as (pv & Hp & Hs).
  destruct (config !! "project_name") as [pv'|] eqn:Hpn; [|done].
  injection Hp as ->. destruct pv; try done. injection Hs as ->.
  apply rbind_ok in H as (file & Hf & H).
  destruct (config !! "path_hdf5") as [file'|] eqn:Hfile; [|done].
  injection Hf as ->.
  apply rbind_ok in H as ([m1 w1] & Hsearch & H).
  apply rbind_ok in H as ([m2 w2] & Hcomp & H).
  apply rbind_ok in H as (d & Hst & H). injection H as <- <-.
  exists project, file, w2. repeat (split; [done|]).
  unfold search_multipole_in_hdf5 in Hsearch. simpl in Hsearch.
  destruct (search_data_in_hdf5 _ _ _) eqn:Hfound.
  - apply rbind_ok in Hsearch as (r & Hr & Hsearch). injection Hsearch as <- <-.
    destruct r as [a0|].
    + injection Hcomp as <- <-. split; [done|].
      intros a _ Ha. simpl in Hr. congruence.
    + apply compute_matrix_multipole_ok in Hcomp as [-> ->]. split; [done|].
      intros a _ Ha. simpl in Hr. congruence.
  - injection Hsearch as <- <-.
    apply compute_matrix_multipole_ok in Hcomp as [-> ->]. split; [done|].
    intros a Ha. congruence.
Qed.

(** Whatever the store helpers do: after a request that missed, the next
    request for the same key asks for the integrals again or returns
    something else than the first did. *)
Lemma miss_then_request i mol config multipole w r1 w1 r2 w2 project file :
  config !! "project_name" = Some (VStr project) ->
  config !! "path_hdf5" = Some file ->
  search_data_in_hdf5 (disk w) file (multipole_key project i multipole) = false ->
  get i mol config multipole w = Ok (r1, w1) ->
  get i mol config multipole w1 = Ok (r2, w2) ->
  r1 = None /\
  (computations w2 = S (computations w1) \/ r2 <> r1).
Proof.
  intros Hp Hf Hmiss H1 H2.
  unfold get, get_multipole_matrix, config_getitem in H1, H2.
  rewrite Hp, Hf in H1, H2. simpl in H1, H2.
  unfold search_multipole_in_hdf5 in H1. simpl in H1. rewrite Hmiss in H1.
  simpl in H1.
  apply rbind_ok in H1 as ([m w0] & Hc & H1).
  apply compute_matrix_multipole_ok in Hc as [-> ->].
  apply rbind_ok in H1 as (d & _ & H1). injection H1 as <- <-.
  split; [done|].
  apply rbind_ok in H2 as ([m1 w1'] & Hs & H2).
  apply rbind_ok in H2 as ([m2 w2'] & Hc & H2).
  apply rbind_ok in H2 as (d2 & _ & H2). injection H2 as <- <-.
  destruct m1 as [a|].
  - injection Hc as <- <-. by right.
  - left. apply compute_matrix_multipole_ok in Hc as [-> ->].
    unfold search_multipole_in_hdf5 in Hs. cbn [disk emit] in Hs.
    match type of Hs with (if ?c then _ else _) = _ => destruct c end.
    + apply rbind_ok in Hs as (r & _ & Hs). injection Hs as _ <-.
      unfold computations. cbn [trace emit]. rewrite !count_snoc. simpl. lia.
    + injection Hs as <-.
      unfold computations. cbn [trace emit]. rewrite !count_snoc. simpl. lia.
Qed.

End ProviderFacts.

Lemma provider_answered w :
  answered w = true ->
  provider 0 water namd "dipole" w = Ok (returned w, after w).
Proof.
  unfold answered, returned, after.
  by destruct (provider 0 water namd "dipole" w) as [[m w']|].
Qed.

(** C3, where the code departs from it. On an empty store the first request
    returns the empty placeholder, since [compute_matrix_multipole] computes
    nothing, and persists it; the second request finds the key, retrieves
    the placeholder and asks for the integrals again. *)
Theorem multipole_recomputed_after_miss :
  provider 0 water namd "dipole" fresh = Ok (returned fresh, after fresh) /\
  returned fresh = None /\
  computations (after fresh) = 1%nat /\
  h5_search (disk (after fresh)) (VStr "quantum.hdf5") dipole_key = true /\
  provider 0 water namd "dipole" (after fresh)
    = Ok (returned (after fresh), after (after fresh)) /\
  returned (after fresh) = None /\
  computations (after (after fresh)) = 2%nat.
Proof.
  split; [apply provider_answered; vm_compute; reflexivity|].
  do 3 (split; [vm_compute; reflexivity|]).
  split; [apply provider_answered; vm_compute; reflexivity|].
  split; vm_compute; reflexivity.
Qed.

Lemma store_write_on_cache_hit :
  provider 0 water namd "dipole" filled = Ok (returned filled, after filled) /\
  returned filled = Some unit_matrix /\
  computations (after filled) = 0%nat /\
  exists project file before,
    namd !! "project_name" = Some (VStr project) /\
    namd !! "path_hdf5" = Some file /\
    h5_store (disk before) file (multipole_key project 0 "dipole")
      (returned filled) = Ok (disk (after filled)) /\
    trace (after filled) =
      (trace before ++
       [Stored (multipole_key project 0 "dipole") (returned filled)])%list /\
    disk before = disk filled /\
    (forall a,
       h5_search (disk filled) file (multipole_key project 0 "dipole") = true ->
       h5_retrieve (disk filled) file (multipole_key project 0 "dipole")
         = Ok (Some a) ->
       returned filled = Some a).
Proof.
  assert (provider 0 water namd "dipole" filled
          = Ok (returned filled, after filled)) as Hrun
    by (apply provider_answered; vm_compute; reflexivity).
  split; [exact Hrun|]. do 2 (split; [vm_compute; reflexivity|]).
  exact (store_write_unconditional (list string) array unit h5
           h5_search h5_retrieve h5_store center_of
           0 water namd "dipole" filled (returned filled) (after filled) Hrun).
Defined.

End MultipoleFacts.

(** ** Concrete runs *)

Module Checked.

Import Example.

Ltac evaluated := vm_compute; reflexivity.

Lemma run_succeeded cfg :
  succeeded cfg = true -> run cfg = Ok (output cfg, final cfg).
Proof.
  unfold succeeded, output, final. by destruct (run cfg) as [[out s]|].
Qed.

Lemma homo_index_of_methane :
  run methane = Ok (output methane, final methane) /\
  is_none (default VNone (methane !! "nHOMO")) = true /\
  lookup_in methane [cgs; "basis"] = Some (VStr "DZVP-MOLOPT") /\
  lookup_in methane [cgs; "charge"] = Some (VInt 0) /\
  methane !! "path_traj_xyz" = Some (VStr "ch4.xyz") /\
  geometries (VStr "ch4.xyz") = Ok ["C"; "H"; "H"; "H"; "H"] /\
  valence_total table "DZVP-MOLOPT" ["C"; "H"; "H"; "H"; "H"] = Some 8 /\
  output methane !! "nHOMO" = Some (VInt 4).
Proof.
  assert (run methane = Ok (output methane, final methane)) as Hrun
    by (apply run_succeeded; evaluated).
  split; [exact Hrun|]. do 6 (split; [evaluated|]).
  apply (homo_index_derived table geometries templates abspath abspath
           methane (output methane) (final methane) "DZVP-MOLOPT" 0
           (VStr "ch4.xyz") ["C"; "H"; "H"; "H"; "H"] 8 Hrun);
    evaluated.
Defined.

Lemma mo_index_range_of_methane :
  run methane = Ok (output methane, final methane) /\
  methane !! "compute_orbitals" = Some (VBool true) /\
  methane !! "active_space" = Some (VList [VInt 2; VInt 3]) /\
  output methane !! "nHOMO" = Some (VInt 4) /\
  output methane !! "mo_index_range" = Some (VTuple [VInt 2; VInt 7]) /\
  lookup_in (output methane)
    (at_spec main (dft_print ++ ["mo"; "mo_index_range"]))
    = Some (VStr "3 7") /\
  lookup_in (output methane) (at_spec main (dft ++ ["scf"; "added_mos"]))
    = Some (VInt 3) /\
  exists h nHOMO,
    output methane !! "nHOMO" = Some h /\ as_int h = Ok nHOMO /\
    output methane !! "mo_index_range"
      = Some (VTuple [VInt (nHOMO - 2); VInt (nHOMO + 3)]) /\
    lookup_in (output methane)
      (at_spec main (dft_print ++ ["mo"; "mo_index_range"]))
      = Some (VStr (pretty (nHOMO - 2 + 1) ++ " " ++ pretty (nHOMO + 3))) /\
    lookup_in (output methane) (at_spec main (dft ++ ["scf"; "added_mos"]))
      = Some (VInt (nHOMO + 3 - nHOMO)).
Proof.
  assert (run methane = Ok (output methane, final methane)) as Hrun
    by (apply run_succeeded; evaluated).
  split; [exact Hrun|]. do 6 (split; [evaluated|]).
  apply (mo_index_range_derived table geometries templates abspath abspath
           methane (output methane) (final methane)
           (VList [VInt 2; VInt 3]) 2 3 Hrun);
    evaluated.
Defined.

Lemma mo_index_range_of_requested_orbitals :
  validated methane = true /\
  run methane = Ok (output methane, final methane) /\
  (is_Some (output methane !! "mo_index_range") <->
   methane !! "compute_orbitals" = Some (VBool true)).
Proof.
  assert (run methane = Ok (output methane, final methane)) as Hrun
    by (apply run_succeeded; evaluated).
  assert (validated methane = true) as Hvalid by evaluated.
  split; [exact Hvalid|]. split; [exact Hrun|].
  exact (mo_index_range_iff_orbitals table geometries templates abspath abspath
           methane (output methane) (final methane) Hvalid Hrun).
Defined.

Lemma shared_parameters_of_amidogen :
  run amidogen = Ok (output amidogen, final amidogen) /\
  lookup_in amidogen [cgs; "periodic"] = Some (VStr "xyz") /\
  lookup_in amidogen [cgs; "charge"] = Some (VInt 0) /\
  lookup_in amidogen [cgs; "multiplicity"] = Some (VInt 2) /\
  forall x, x = main \/ x = guess ->
    lookup_in (output amidogen) (at_spec x (subsys_cell ++ ["periodic"]))
      = Some (VStr "xyz") /\
    lookup_in (output amidogen) (at_spec x (dft ++ ["charge"])) = Some (VInt 0) /\
    (1 < 2 ->
       lookup_in (output amidogen) (at_spec x (dft ++ ["multiplicity"]))
         = Some (VInt 2) /\
       lookup_in (output amidogen) (at_spec x (dft ++ ["uks"])) = Some (VStr "")) /\
    (2 <= 1 ->
       exists st, overlaid templates amidogen st /\
         lookup_in (output amidogen) (at_spec x (dft ++ ["multiplicity"]))
           = cfg_lookup (at_spec x (dft ++ ["multiplicity"])) st /\
         lookup_in (output amidogen) (at_spec x (dft ++ ["uks"]))
           = cfg_lookup (at_spec x (dft ++ ["uks"])) st).
Proof.
  assert (run amidogen = Ok (output amidogen, final amidogen)) as Hrun
    by (apply run_succeeded; evaluated).
  split; [exact Hrun|]. do 3 (split; [evaluated|]).
  apply (shared_parameters_on_both_specifications
           table geometries templates abspath abspath
           amidogen (output amidogen) (final amidogen) "xyz" 0 2 Hrun);
    evaluated.
Defined.

(** C5 as stated fails: the general multiplicity is 1, yet the main
    specification keeps the multiplicity its own input asked for, and the
    guess specification has none. *)
Lemma multiplicity_kept_from_the_input :
  validated triplet_by_hand = true /\
  run triplet_by_hand = Ok (output triplet_by_hand, final triplet_by_hand) /\
  lookup_in triplet_by_hand [cgs; "multiplicity"] = Some (VInt 1) /\
  lookup_in (output triplet_by_hand) (at_spec main (dft ++ ["multiplicity"]))
    = Some (VInt 3) /\
  lookup_in (output triplet_by_hand) (at_spec guess (dft ++ ["multiplicity"]))
    = None /\
  ~ multiplicity_keywords_iff triplet_by_hand (output triplet_by_hand).
Proof.
  split; [evaluated|]. split; [apply run_succeeded; evaluated|].
  do 3 (split; [evaluated|]).
  intros H.
  destruct (H 1 ltac:(evaluated) main (or_introl eq_refl)) as [[Habs _] _].
  assert (1 < 1); [|lia]. apply Habs. exists (VInt 3). evaluated.
Qed.

Lemma cell_fields_with_a_cell_file :
  run methane_cell_file = Ok (output methane_cell_file, final methane_cell_file) /\
  lookup_in methane_cell_file [cgs; "file_cell_parameters"]
    = Some (VStr "cell.txt") /\
  lookup_in (output methane_cell_file) (at_spec main ["cell_angles"]) = Some VNone /\
  lookup_in (output methane_cell_file) (at_spec guess ["cell_angles"]) = Some VNone /\
  (forall file,
     lookup_in methane_cell_file [cgs; "file_cell_parameters"] = Some file ->
     is_none file = false ->
     lookup_in (output methane_cell_file) (at_spec main ["cell_parameters"])
       = Some VNone /\
     lookup_in (output methane_cell_file) (at_spec guess ["cell_parameters"])
       = Some VNone).
Proof.
  assert (run methane_cell_file = Ok (output methane_cell_file, final methane_cell_file)) as Hrun
    by (apply run_succeeded; evaluated).
  split; [exact Hrun|]. split; [evaluated|].
  exact (cell_angles_always_unset table geometries templates abspath abspath
           methane_cell_file (output methane_cell_file)
           (final methane_cell_file) Hrun).
Defined.


Lemma odd_count_of_amidogen :
  cfg_lookup [cgs; "basis"] (InputSanitizer amidogen) = Some (VStr "DZVP-MOLOPT") /\
  cfg_lookup [cgs; "charge"] (InputSanitizer amidogen) = Some (VInt 0) /\
  cfg_lookup ["path_traj_xyz"] (InputSanitizer amidogen) = Some (VStr "nh2.xyz") /\
  geometries (VStr "nh2.xyz") = Ok ["N"; "H"; "H"] /\
  valence_total table "DZVP-MOLOPT" ["N"; "H"; "H"] = Some 7 /\
  Z.odd (7 - 0) = true /\
  run amidogen = Ok (output amidogen, final amidogen) /\
  warned (final amidogen) = [odd_warning] /\
  output amidogen !! "nHOMO" = Some (VInt 4) /\
  compute_homo_index table geometries (InputSanitizer amidogen) =
    Ok (4, State amidogen [odd_warning] [] ∅).
Proof.
  do 6 (split; [evaluated|]). split; [apply run_succeeded; evaluated|].
  do 2 (split; [evaluated|]).
  apply (odd_electron_count_warns table geometries (InputSanitizer amidogen)
           "DZVP-MOLOPT" 0 (VStr "nh2.xyz") ["N"; "H"; "H"] 7);
    evaluated.
Defined.

Lemma executable_of_methane :
  run methane = Ok (output methane, final methane) /\
  lookup_in methane [cgs; "executable"] = Some (VStr "cp2k.popt") /\
  lookup_in (output methane) (at_spec main ["executable"]) = Some (VStr "cp2k.popt") /\
  lookup_in (output methane) (at_spec guess ["executable"]) = Some (VStr "cp2k.popt").
Proof.
  assert (run methane = Ok (output methane, final methane)) as Hrun
    by (apply run_succeeded; evaluated).
  split; [exact Hrun|]. split; [evaluated|].
  exact (executable_on_both_specifications
           table geometries templates abspath abspath
           methane (output methane) (final methane) "cp2k.popt" Hrun
           ltac:(evaluated)).
Defined.

End Checked.

(** * Further properties of the sanitizer *)

(** ** Warnings *)

Lemma mquiet_bind {A B} (c : M A) (k : A -> M B) :
  mquiet c -> (forall a, mquiet (k a)) -> mquiet (bind c k).
Proof.
  intros Hc Hk s r s' H. apply bind_ok in H as (a & s1 & H1 & H2).
  rewrite (Hk _ _ _ _ H2). by eapply Hc.
Qed.

Lemma mquiet_ret {A} (a : A) : mquiet (ret a).
Proof. intros s r s' H. by apply ret_ok in H as [_ ->]. Qed.

Lemma mquiet_lift {A} (x : result A) : mquiet (lift x).
Proof. intros s r s' H. by apply lift_ok in H as [_ ->]. Qed.

Lemma mquiet_input_getitem k : mquiet (input_getitem k).
Proof. intros s r s' H. by apply input_getitem_ok in H as [-> _]. Qed.

Lemma mquiet_input_get k : mquiet (input_get k).
Proof. intros s r s' H. by apply input_get_ok in H as [-> _]. Qed.

Lemma mquiet_self_general : mquiet self_general.
Proof. intros s r s' H. by apply self_general_ok in H as [-> _]. Qed.

Lemma mquiet_general_getitem k : mquiet (general_getitem k).
Proof. intros s r s' H. by apply general_getitem_ok in H as [-> _]. Qed.

Lemma mquiet_logger_info msg : mquiet (logger_info msg).
Proof. intros s r s' H. by apply logger_info_ok in H as [_ ?]. Qed.

Lemma mquiet_yaml_dump file v : mquiet (yaml_dump file v).
Proof. intros s r s' H. by apply yaml_dump_ok in H as [_ ?]. Qed.

Lemma mquiet_input_setitem k v : mquiet (input_setitem k v).
Proof. intros s r s' H. by apply input_setitem_ok in H as (_ & _ & ?). Qed.

Lemma mquiet_general_store k v : mquiet (general_store k v).
Proof. intros s r s' H. by apply general_store_ok in H as (_ & _ & ?). Qed.

Lemma mquiet_spec_update r f : mquiet (spec_update r f).
Proof.
  intros s u s' H. by apply spec_update_ok in H as (t & t' & _ & _ & _ & _ & ?).
Qed.

Lemma mquiet_spec_getattr r p : mquiet (spec_getattr r p).
Proof. intros s v s' H. by apply spec_getattr_ok in H as (_ & _ & ?). Qed.

Ltac mquiet_step :=
  lazymatch goal with
  | |- mquiet (bind _ _) => apply mquiet_bind; [|intros ?]
  | |- mquiet (ret _) => apply mquiet_ret
  | |- mquiet (lift _) => apply mquiet_lift
  | |- mquiet (input_getitem _) => apply mquiet_input_getitem
  | |- mquiet (input_get _) => apply mquiet_input_get
  | |- mquiet self_general => apply mquiet_self_general
  | |- mquiet (general_getitem _) => apply mquiet_general_getitem
  | |- mquiet (logger_info _) => apply mquiet_logger_info
  | |- mquiet (yaml_dump _ _) => apply mquiet_yaml_dump
  | |- mquiet (input_setitem _ _) => apply mquiet_input_setitem
  | |- mquiet (general_store _ _) => apply mquiet_general_store
  | |- mquiet (spec_update _ _) => apply mquiet_spec_update
  | |- mquiet (spec_getattr _ _) => apply mquiet_spec_getattr
  | |- mquiet (template_of _ ?v) =>
      unfold template_of; destruct v as [| | | | | | |[] ?]
  | |- mquiet (if ?b then _ else _) => destruct b
  end.

Ltac mquiet_auto :=
  unfold spec_setattr, spec_touch, spec_append, spec_delitem;
  repeat mquiet_step.

(** ** The log *)

Lemma msilent_bind {A B} (c : M A) (k : A -> M B) :
  msilent c -> (forall a, msilent (k a)) -> msilent (bind c k).
Proof.
  intros Hc Hk s r s' H. apply bind_ok in H as (a & s1 & H1 & H2).
  rewrite (Hk _ _ _ _ H2). by eapply Hc.
Qed.

Lemma msilent_ret {A} (a : A) : msilent (ret a).
Proof. intros s r s' H. by apply ret_ok in H as [_ ->]. Qed.

Lemma msilent_lift {A} (x : result A) : msilent (lift x).
Proof. intros s r s' H. by apply lift_ok in H as [_ ->]. Qed.

Lemma msilent_input_getitem k : msilent (input_getitem k).
Proof. intros s r s' H. by apply input_getitem_ok in H as [-> _]. Qed.

Lemma msilent_input_get k : msilent (input_get k).
Proof. intros s r s' H. by apply input_get_ok in H as [-> _]. Qed.

Lemma msilent_self_general : msilent self_general.
Proof. intros s r s' H. by apply self_general_ok in H as [-> _]. Qed.

Lemma msilent_general_getitem k : msilent (general_getitem k).
Proof. intros s r s' H. by apply general_getitem_ok in H as [-> _]. Qed.

Lemma msilent_warnings_warn msg : msilent (warnings_warn msg).
Proof. by intros s r s' [= _ <-]. Qed.

Lemma msilent_yaml_dump file v : msilent (yaml_dump file v).
Proof. by intros s r s' [= _ <-]. Qed.

Lemma msilent_input_setitem k v : msilent (input_setitem k v).
Proof. by intros s r s' [= _ <-]. Qed.

Lemma msilent_general_store k v : msilent (general_store k v).
Proof.
  intros s r s'. unfold general_store.
  destruct (user_input s !! cgs) as [[]|]; try done. by intros [= _ <-].
Qed.

Ltac msilent_step :=
  lazymatch goal with
  | |- msilent (bind _ _) => apply msilent_bind; [|intros ?]
  | |- msilent (ret _) => apply msilent_ret
  | |- msilent (lift _) => apply msilent_lift
  | |- msilent (input_getitem _) => apply msilent_input_getitem
  | |- msilent (input_get _) => apply msilent_input_get
  | |- msilent self_general => apply msilent_self_general
  | |- msilent (general_getitem _) => apply msilent_general_getitem
  | |- msilent (warnings_warn _) => apply msilent_warnings_warn
  | |- msilent (yaml_dump _ _) => apply msilent_yaml_dump
  | |- msilent (input_setitem _ _) => apply msilent_input_setitem
  | |- msilent (general_store _ _) => apply msilent_general_store
  | |- msilent (template_of _ ?v) =>
      unfold template_of, spec_getattr, spec_touch, spec_update;
      destruct v as [| | | | | | |[] ?]
  | |- msilent (if ?b then _ else _) => destruct b
  | |- msilent (match ?x with _ => _ end) => destruct x
  end.

Ltac msilent_auto :=
  unfold spec_getattr, spec_setattr, spec_touch, spec_append, spec_delitem,
    spec_update;
  repeat msilent_step.

Section Behaviour.

Variable valence_electrons : gmap string Z.
Variable Molecule : value -> result (list string).
Variable create_settings_from_template :
  gmap string value -> value -> value -> result value.
Variable abspath : string -> string.
Variable absolute_posix : string -> string.

#[local] Abbreviation sanitize' :=
  (sanitize valence_electrons Molecule create_settings_from_template
            abspath absolute_posix).

#[local] Abbreviation run_of' :=
  (run_of valence_electrons Molecule create_settings_from_template
          abspath absolute_posix).

Lemma create_settings_quiet : mquiet create_settings.
Proof. unfold create_settings. mquiet_auto. Qed.

Lemma apply_templates_quiet :
  mquiet (apply_templates create_settings_from_template).
Proof. unfold apply_templates, apply_template. mquiet_auto. Qed.

Lemma add_mo_index_range_quiet : mquiet add_mo_index_range.
Proof. unfold add_mo_index_range. mquiet_auto. Qed.

Lemma add_restart_point_quiet : mquiet (add_restart_point absolute_posix).
Proof. unfold add_restart_point. mquiet_auto. Qed.

Lemma add_basis_quiet : mquiet (add_basis abspath).
Proof.
  unfold add_basis, add_basis_to, select_basis_file, basis_file. mquiet_auto.
Qed.

Lemma add_cell_parameters_quiet : mquiet add_cell_parameters.
Proof. unfold add_cell_parameters, add_cell_parameters_to. mquiet_auto. Qed.

Lemma add_periodic_quiet : mquiet add_periodic.
Proof. unfold add_periodic, add_periodic_to. mquiet_auto. Qed.

Lemma add_charge_quiet : mquiet add_charge.
Proof. unfold add_charge, add_charge_to. mquiet_auto. Qed.

Lemma add_multiplicity_quiet : mquiet add_multiplicity.
Proof. unfold add_multiplicity, add_multiplicity_to. mquiet_auto. Qed.

Lemma add_executable_quiet : mquiet add_executable.
Proof. unfold add_executable. mquiet_auto. Qed.

(** A successful run, with the state [sf] that [print_final_input] leaves. *)
Lemma sanitize_final s0 out sf :
  sanitize' s0 = Ok (out, sf) ->
  exists t, st_input t = s0 /\ run_of' t /\
            print_final_input (st_final t) = Ok (tt, sf) /\
            out = user_input sf.
Proof.
  unfold sanitize. intros H.
  mstep H as u1 H1 to s1. mstep H as u2 H2 to s2.
  mstep H as u3 H3 to s11. mstep H as u4 H4 to s12.
  mstep H as u5 H5 to s13. injection H as <- <-.
  unfold add_missing_keywords in H3.
  mstep H3 as h Hh. mstep H3 as u6 H6 to s3.
  mstep H3 as co Hco. mstep H3 as u7 H7 to s4.
  mstep H3 as u8 H8 to s5. mstep H3 as u9 H9 to s6.
  mstep H3 as u10 H10 to s7. mstep H3 as u11 H11 to s8.
  mstep H3 as u12 H12 to s9.
  destruct u1, u2, u3, u4, u5, u8, u9, u10, u11, u12.
  exists (Stages s0 s1 s2 s3 s4 s5 s6 s7 s8 s9 s11 s12).
  split; [done|]. split; [|done].
  unfold run_of. simpl. repeat (split; [done|]).
  split; [|split; [|done]].
  - unfold derive_homo. rewrite <- Hh. destruct (is_none h).
    + mstep H6 as n Hn to s2'. destruct u6. eauto.
    + by apply ret_ok in H6 as [_ ->].
  - unfold derive_orbitals. rewrite <- Hco. destruct (truthy co).
    + by destruct u7.
    + by apply logger_info_ok in H7 as [? _].
Qed.

(** The warnings of a successful run are those of the derivation of the
    HOMO index. *)
Lemma sanitize_warned s0 out sf :
  sanitize' s0 = Ok (out, sf) ->
  exists s1 s2 s3,
    create_settings s0 = Ok (tt, s1) /\
    apply_templates create_settings_from_template s1 = Ok (tt, s2) /\
    derive_homo valence_electrons Molecule s2 s3 /\
    warned s2 = warned s0 /\ warned sf = warned s3.
Proof.
  unfold sanitize. intros H.
  mstep H as u1 H1 to s1. mstep H as u2 H2 to s2.
  mstep H as u3 H3 to s11. mstep H as u4 H4 to s12.
  mstep H as u5 H5 to s13. injection H as _ <-.
  unfold add_missing_keywords in H3.
  mstep H3 as h Hh. mstep H3 as u6 H6 to s3.
  mstep H3 as co Hco. mstep H3 as u7 H7 to s4.
  mstep H3 as u8 H8 to s5. mstep H3 as u9 H9 to s6.
  mstep H3 as u10 H10 to s7. mstep H3 as u11 H11 to s8.
  mstep H3 as u12 H12 to s9.
  destruct u1, u2. exists s1, s2, s3. repeat (split; [done|]).
  split; [|split].
  - unfold derive_homo. rewrite <- Hh. destruct (is_none h).
    + mstep H6 as n Hn to s2'. destruct u6. eauto.
    + by apply ret_ok in H6 as [_ ->].
  - rewrite (apply_templates_quiet _ _ _ H2). apply (create_settings_quiet _ _ _ H1).
  - unfold print_final_input in H5.
    rewrite (mquiet_yaml_dump _ _ _ _ _ H5), (add_executable_quiet _ _ _ H4),
      (add_multiplicity_quiet _ _ _ H3), (add_charge_quiet _ _ _ H12),
      (add_periodic_quiet _ _ _ H11), (add_cell_parameters_quiet _ _ _ H10),
      (add_basis_quiet _ _ _ H9), (add_restart_point_quiet _ _ _ H8).
    destruct (truthy co).
    + apply (add_mo_index_range_quiet _ _ _ H7).
    + apply (mquiet_logger_info _ _ _ _ H7).
Qed.

(** X1. A configuration that brings its own nHOMO keeps it: the derivation
    is skipped and the value is handed over unchanged. *)
Theorem explicit_homo_kept cfg out sf h :
  sanitize' (InputSanitizer cfg) = Ok (out, sf) ->
  cfg !! "nHOMO" = Some h ->
  is_none h = false ->
  out !! "nHOMO" = Some h.
Proof.
  intros H Hh Hn. rewrite <- !lookup_in_top in *. open_run H.
  unfold derive_homo in R3. back. rewrite Hh in R3. simpl in R3.
  rewrite Hn in R3. subst s3. clear F3. back. done.
Qed.

(** X2. With an explicit nHOMO a successful sanitization warns about
    nothing. *)
Theorem no_warning_with_explicit_homo cfg out sf h :
  sanitize' (InputSanitizer cfg) = Ok (out, sf) ->
  cfg !! "nHOMO" = Some h ->
  is_none h = false ->
  warned sf = [].
Proof.
  intros H Hh Hn. apply sanitize_warned in H
    as (s1 & s2 & s3 & R1 & R2 & R3 & W2 & ->).
  pose proof (create_settings_mframe _ _ _ R1) as F1.
  pose proof (apply_templates_mframe _ _ _ _ R2) as F2.
  unfold derive_homo in R3. back.
  change (cfg_lookup ["nHOMO"] (InputSanitizer cfg)) with (lookup_in cfg ["nHOMO"]) in R3.
  rewrite lookup_in_top, Hh in R3. simpl in R3. rewrite Hn in R3.
  by rewrite R3, W2.
Qed.

(** X3. When nHOMO is derived, the warnings of a successful sanitization
    are exactly the one about unpaired electrons if the electron count is
    odd, and none if it is even. *)
Theorem warning_iff_odd_count cfg out sf basis charge path atoms total :
  sanitize' (InputSanitizer cfg) = Ok (out, sf) ->
  is_none (default VNone (cfg !! "nHOMO")) = true ->
  lookup_in cfg [cgs; "basis"] = Some (VStr basis) ->
  lookup_in cfg [cgs; "charge"] = Some (VInt charge) ->
  cfg !! "path_traj_xyz" = Some path ->
  Molecule path = Ok atoms ->
  valence_total valence_electrons basis atoms = Some total ->
  warned sf = if Z.odd (total - charge) then [odd_warning] else [].
Proof.
  intros H Hn Hb Hc Hp Ha Ht. rewrite <- !lookup_in_top in *.
  change (lookup_in cfg ?q) with (cfg_lookup q (InputSanitizer cfg)) in *.
  apply sanitize_warned in H as (s1 & s2 & s3 & R1 & R2 & R3 & W2 & ->).
  pose proof (create_settings_mframe _ _ _ R1) as F1.
  pose proof (apply_templates_mframe _ _ _ _ R2) as F2.
  unfold derive_homo in R3. back. rewrite Hn in R3.
  destruct R3 as (n & s2' & Hrun & Hset).
  apply compute_homo_index_ok in Hrun
    as (b' & c' & p' & at' & t' & ci & Hb' & Hc' & Hp' & Ha' & Ht' & Hi & _ & _ & W).
  back. rewrite Hb in Hb'. rewrite Hc in Hc'. rewrite Hp in Hp'.
  injection Hb' as <-. injection Hc' as <-. injection Hp' as <-.
  rewrite Ha in Ha'. injection Ha' as <-.
  rewrite (sum_valence_total _ _ _ _ _ Ht) in Ht'. injection Ht' as <-.
  injection Hi as <-.
  apply input_setitem_ok in Hset as (_ & _ & ->). rewrite W, W2. simpl.
  unfold odd_warnings. rewrite Z.add_0_l.
  destruct (Z.odd (total - charge)) eqn:Hodd.
  - rewrite Z.odd_spec in Hodd. destruct Hodd as [k Hk].
    assert (((total - charge) mod 2 =? 0) = false) as ->; [|done].
    apply Z.eqb_neq. rewrite Hk.
    rewrite Z.add_comm, Z.mul_comm, Z.mod_add by lia. done.
  - assert (Z.even (total - charge) = true) as Heven
      by (by rewrite <- Z.negb_odd, Hodd).
    rewrite Z.even_spec in Heven. destruct Heven as [k Hk].
    assert (((total - charge) mod 2 =? 0) = true) as ->; [|done].
    apply Z.eqb_eq. rewrite Hk. rewrite Z.mul_comm, Z.mod_mul by lia. done.
Qed.

(** X4. Sanitization writes to nHOMO, to mo_index_range and to the two job
    specifications, and to nothing else: every other key of the
    configuration and every other entry of the general settings is handed
    over as it came. *)
Theorem sanitize_leaves_the_rest cfg out sf :
  sanitize' (InputSanitizer cfg) = Ok (out, sf) ->
  (forall k, k <> "nHOMO" -> k <> "mo_index_range" -> k <> cgs ->
             out !! k = cfg !! k) /\
  (forall k, k <> main -> k <> guess ->
             lookup_in out [cgs; k] = lookup_in cfg [cgs; k]).
Proof.
  intros H. open_run H.
  assert (frame fp_sanitize (InputSanitizer cfg) s11) as F.
  { repeat (eapply frame_trans;
            [|eapply frame_weaken; [|eassumption]; reflexivity]).
    apply frame_refl. }
  split.
  - intros k H1 H2 H3. rewrite <- !lookup_in_top.
    change (lookup_in (user_input ?s) ?q) with (cfg_lookup q s).
    change (lookup_in ?c ?q) with (cfg_lookup q (InputSanitizer c)).
    apply F. simpl.
    by rewrite (proj2 (String.eqb_neq _ _) (not_eq_sym H1)),
      (proj2 (String.eqb_neq _ _) (not_eq_sym H2)),
      (proj2 (String.eqb_neq _ _) (not_eq_sym H3)).
  - intros k H1 H2. apply F. simpl.
    by rewrite (proj2 (String.eqb_neq _ _) (not_eq_sym H1)),
      (proj2 (String.eqb_neq _ _) (not_eq_sym H2)).
Qed.

Lemma bind_ext {A B} (c : M A) (k k' : A -> M B) s :
  (forall a s', c s = Ok (a, s') -> k a s' = k' a s') ->
  (x <- c ;; k x) s = (x <- c ;; k' x) s.
Proof.
  intros H. unfold bind. destruct (c s) as [[a s']|]; [by apply H|done].
Qed.

(** X5. With an explicit nHOMO the derivation of the HOMO index is not run:
    the outcome of the sanitization, also a failure, is the same whatever
    table of valence electrons and whatever reader of the geometry
    [compute_homo_index] would use. The template function, which is handed
    the path of the geometry as well, is the same on both sides. *)
Theorem explicit_homo_ignores_geometry table' Molecule' cfg h :
  cfg !! "nHOMO" = Some h ->
  is_none h = false ->
  sanitize' (InputSanitizer cfg) =
  sanitize table' Molecule' create_settings_from_template abspath absolute_posix
           (InputSanitizer cfg).
Proof.
  intros Hh Hn. unfold sanitize.
  apply bind_ext. intros u1 s1 R1. apply bind_ext. intros u2 s2 R2.
  pose proof (create_settings_mframe _ _ _ R1) as F1.
  pose proof (apply_templates_mframe _ _ _ _ R2) as F2.
  assert (input_get "nHOMO" s2 = Ok (h, s2)) as Hget.
  { unfold input_get. f_equal. f_equal. rewrite <- lookup_in_top.
    change (lookup_in (user_input ?s) ?q) with (cfg_lookup q s). back.
    change (cfg_lookup ["nHOMO"] (InputSanitizer cfg))
      with (lookup_in cfg ["nHOMO"]).
    by rewrite lookup_in_top, Hh. }
  assert (add_missing_keywords valence_electrons Molecule abspath
            absolute_posix s2
          = add_missing_keywords table' Molecule' abspath absolute_posix s2)
    as E.
  { unfold add_missing_keywords.
    by rewrite !(bind_run _ _ _ _ _ Hget), Hn. }
  unfold bind at 1 6. by rewrite E.
Qed.

Lemma add_restart_point_ok s u s' :
  add_restart_point absolute_posix s = Ok (u, s') ->
  exists wfn, cfg_lookup [cgs; "wfn_restart_file_name"] s = Some wfn /\
    if truthy wfn
    then exists w, wfn = VStr w /\
           cfg_lookup (at_spec guess (dft ++ ["wfn_restart_file_name"])) s'
             = Some (VStr (absolute_posix w))
    else s' = s.
Proof.
  unfold add_restart_point. intros H. mstep H as t Ht. mstep H as wfn Hw.
  exists wfn. split; [done|].
  destruct (truthy wfn) eqn:T.
  - assert (is_none wfn = false) as N by (by destruct wfn).
    rewrite N in H. simpl in H. mstep H as u1 H1 to s1. mstep H as p Hp.
    destruct wfn; try done. injection Hp as <-.
    apply spec_setattr_ok in H as (H & _). eauto.
  - rewrite andb_false_r in H. by apply ret_ok in H as [_ ->].
Qed.

(** X6. The restart file is injected into the guess specification only. A
    non-empty name ends up there as an absolute path; the main specification
    keeps what it held after the template overlay, and so does the guess
    when no name was given. *)
Theorem restart_point_in_guess_only cfg out sf wfn :
  sanitize' (InputSanitizer cfg) = Ok (out, sf) ->
  lookup_in cfg [cgs; "wfn_restart_file_name"] = Some wfn ->
  (forall w, wfn = VStr w -> w <> "" ->
     lookup_in out (at_spec guess (dft ++ ["wfn_restart_file_name"]))
       = Some (VStr (absolute_posix w))) /\
  exists st, overlaid create_settings_from_template cfg st /\
    lookup_in out (at_spec main (dft ++ ["wfn_restart_file_name"]))
      = cfg_lookup (at_spec main (dft ++ ["wfn_restart_file_name"])) st /\
    (truthy wfn = false ->
     lookup_in out (at_spec guess (dft ++ ["wfn_restart_file_name"]))
       = cfg_lookup (at_spec guess (dft ++ ["wfn_restart_file_name"])) st).
Proof.
  intros H Hw. open_run H.
  pose proof R5 as R5'. apply add_restart_point_ok in R5' as (wfn' & Hw' & Hr).
  back. rewrite Hw in Hw'. injection Hw' as <-. split.
  - intros w -> Hne. simpl in Hr.
    apply String.eqb_neq in Hne. rewrite Hne in Hr. simpl in Hr.
    destruct Hr as (w' & [= <-] & Hr). done.
  - exists s2. split; [by exists s1|]. split; [done|].
    intros Hf. rewrite Hf in Hr. subst s5. clear F5. back. done.
Qed.

(** X7. Without a cell-parameters file both job specifications receive the
    cell parameters of the general settings. *)
Theorem cell_parameters_copied cfg out sf file cell :
  sanitize' (InputSanitizer cfg) = Ok (out, sf) ->
  lookup_in cfg [cgs; "file_cell_parameters"] = Some file ->
  is_none file = true ->
  lookup_in cfg [cgs; "cell_parameters"] = Some cell ->
  lookup_in out (at_spec main ["cell_parameters"]) = Some (box cell) /\
  lookup_in out (at_spec guess ["cell_parameters"]) = Some (box cell).
Proof.
  intros H Hf Hn Hc. open_run H. unfold add_cell_parameters in R7.
  apply bind_ok in R7 as (u1 & s6' & H1 & H2).
  pose proof (add_cell_parameters_to_guess_mframe _ _ _ H2) as Fg.
  assert (frame [Wr [cgs; main]] s6 s6') as Fm.
  { eapply (mframe_weaken (fp_cell_of main)); [done| |exact H1].
    unfold add_cell_parameters_to. mframe_auto. }
  apply add_cell_parameters_to_ok in H1 as (f1 & Hf1 & _ & Hp1).
  apply add_cell_parameters_to_ok in H2 as (f2 & Hf2 & _ & Hp2).
  back. rewrite Hf in Hf1, Hf2. injection Hf1 as <-. injection Hf2 as <-.
  rewrite Hn in Hp1, Hp2.
  destruct Hp1 as (c1 & Hc1 & Hp1). destruct Hp2 as (c2 & Hc2 & Hp2).
  back. rewrite Hc in Hc1, Hc2. injection Hc1 as <-. injection Hc2 as <-.
  done.
Qed.

Lemma add_basis_skipped s u s' pb :
  add_basis abspath s = Ok (u, s') ->
  cfg_lookup [cgs; "path_basis"] s = Some pb ->
  is_none pb = true ->
  s' = s.
Proof.
  unfold add_basis. intros H Hpb Hn.
  mstep H as tm Htm. mstep H as tg Htg. mstep H as pb' Hpb'.
  rewrite Hpb in Hpb'. injection Hpb' as <-. rewrite Hn in H. simpl in H.
  by apply ret_ok in H as [_ ->].
Qed.

(** X8. Without a basis directory the basis step writes nothing: the names
    of basis and potential and the two file entries of both job
    specifications are what they were after the template overlay. *)
Theorem basis_step_skipped_without_path cfg out sf :
  sanitize' (InputSanitizer cfg) = Ok (out, sf) ->
  lookup_in cfg [cgs; "path_basis"] = Some VNone ->
  exists st, overlaid create_settings_from_template cfg st /\
    forall x, x = main \/ x = guess ->
      lookup_in out (at_spec x ["basis"]) = cfg_lookup (at_spec x ["basis"]) st /\
      lookup_in out (at_spec x ["potential"])
        = cfg_lookup (at_spec x ["potential"]) st /\
      lookup_in out (at_spec x (dft ++ ["potential_file_name"]))
        = cfg_lookup (at_spec x (dft ++ ["potential_file_name"])) st /\
      lookup_in out (at_spec x (dft ++ ["basis_set_file_name"]))
        = cfg_lookup (at_spec x (dft ++ ["basis_set_file_name"])) st.
Proof.
  intros H Hpb. open_run H.
  assert (cfg_lookup [cgs; "path_basis"] s5 = Some VNone) as Hpb5 by (by back).
  pose proof (add_basis_skipped _ _ _ _ R6 Hpb5 eq_refl) as ->. clear F6.
  exists s2. split; [by exists s1|].
  intros x [-> | ->]; back; done.
Qed.

Lemma add_basis_to_names x s u s' :
  x = main \/ x = guess ->
  add_basis_to abspath x s = Ok (u, s') ->
  exists b p, cfg_lookup [cgs; "basis"] s = Some b /\
              cfg_lookup [cgs; "potential"] s = Some p /\
              cfg_lookup (at_spec x ["basis"]) s' = Some (box b) /\
              cfg_lookup (at_spec x ["potential"]) s' = Some (box p).
Proof.
  intros Hx H. unfold add_basis_to in H.
  mstep H as b Hb. mstep H as u1 H1 to s1.
  apply spec_setattr_ok in H1 as (Hsb & F1 & _).
  mstep H as pt Hpt. mstep H as u2 H2 to s2.
  apply spec_setattr_ok in H2 as (Hsp & F2 & _).
  mstep H as pf Hpf to s2'. apply basis_file_ok in Hpf as (-> & _).
  mstep H as u3 H3 to s3. apply spec_setattr_ok in H3 as (_ & F3 & _).
  assert (frame [Rd (at_spec x dft);
                 Wr (at_spec x (dft ++ ["basis_set_file_name"]));
                 Rd (at_spec x (dft ++ ["xc"]))] s3 s') as F4.
  { revert H. generalize s3 u s'.
    change (mframe [Rd (at_spec x dft);
                    Wr (at_spec x (dft ++ ["basis_set_file_name"]));
                    Rd (at_spec x (dft ++ ["xc"]))]
                   (select_basis_file abspath x)).
    destruct Hx as [-> | ->]; unfold select_basis_file, basis_file;
      mframe_auto. }
  exists b, pt. split; [done|].
  destruct Hx as [-> | ->]; back; done.
Qed.

(** X9. With a basis directory both job specifications also receive the
    names of the basis and of the potential of the general settings. *)
Theorem basis_names_copied cfg out sf d basis potential :
  sanitize' (InputSanitizer cfg) = Ok (out, sf) ->
  lookup_in cfg [cgs; "path_basis"] = Some (VStr d) ->
  lookup_in cfg [cgs; "basis"] = Some (VStr basis) ->
  lookup_in cfg [cgs; "potential"] = Some (VStr potential) ->
  forall x, x = main \/ x = guess ->
    lookup_in out (at_spec x ["basis"]) = Some (VStr basis) /\
    lookup_in out (at_spec x ["potential"]) = Some (VStr potential).
Proof.
  intros H Hd Hb Hp x Hx. open_run H. unfold add_basis in R6.
  mstep R6 as tm Htm. mstep R6 as tg Htg. mstep R6 as pb Hpb.
  back. rewrite Hd in Hpb. injection Hpb as <-. simpl in R6.
  mstep R6 as u0 H0 to s5'. apply logger_info_ok in H0 as [H0 _].
  assert (frame [] s5 s5') as F0 by (by apply frame_same).
  mstep R6 as u1 H1 to s5''.
  pose proof (add_basis_to_main_mframe _ _ _ _ H1) as Fm.
  pose proof (add_basis_to_guess_mframe _ _ _ _ R6) as Fg.
  apply (add_basis_to_names _ _ _ _ (or_introl eq_refl)) in H1
    as (b1 & p1 & Hb1 & Hp1 & Hsb1 & Hsp1).
  apply (add_basis_to_names _ _ _ _ (or_intror eq_refl)) in R6
    as (b2 & p2 & Hb2 & Hp2 & Hsb2 & Hsp2).
  back. rewrite Hb in Hb1, Hb2. rewrite Hp in Hp1, Hp2.
  injection Hb1 as <-. injection Hb2 as <-.
  injection Hp1 as <-. injection Hp2 as <-.
  destruct Hx as [-> | ->]; back; done.
Qed.

Lemma add_mo_index_range_print s u s' :
  add_mo_index_range s = Ok (u, s') ->
  cfg_lookup (at_spec main (dft_print ++ ["mo"; "add_last"])) s'
    = Some (VStr "numeric") /\
  cfg_lookup (at_spec main (dft_print ++ ["mo"; "each"; "qs_scf"])) s'
    = Some (VInt 0) /\
  cfg_lookup (at_spec main (dft_print ++ ["mo"; "eigenvalues"])) s'
    = Some (VStr "") /\
  cfg_lookup (at_spec main (dft_print ++ ["mo"; "eigenvectors"])) s'
    = Some (VStr "") /\
  cfg_lookup (at_spec main (dft_print ++ ["mo"; "ndigits"])) s'
    = Some (VInt 36).
Proof.
  unfold add_mo_index_range. intros H.
  mstep H as a Ha. mstep H as h Hh. mstep H as lo Hlo. mstep H as hi Hhi.
  mstep H as u1 H1 to s1. mstep H as u2 H2 to s2. mstep H as u3 H3 to s3.
  mstep H as added Hadd. mstep H as u4 H4 to s4. mstep H as u5 H5 to s5.
  mstep H as u6 H6 to s6. apply spec_setattr_ok in H6 as (L6 & _ & _).
  mstep H as u7 H7 to s7. apply spec_setattr_ok in H7 as (L7 & F7 & _).
  mstep H as u8 H8 to s8. apply spec_setattr_ok in H8 as (L8 & F8 & _).
  mstep H as u9 H9 to s9. apply spec_setattr_ok in H9 as (L9 & F9 & _).
  apply spec_setattr_ok in H as (L10 & F10 & _).
  repeat split; back; done.
Qed.

(** X10. When the orbitals are requested the print section of the molecular
    orbitals in the main job specification gets its fixed keywords:
    [add_last] is "numeric", [each.qs_scf] is 0, [eigenvalues] and
    [eigenvectors] are the empty string and [ndigits] is 36. *)
Theorem mo_print_section cfg out sf co :
  sanitize' (InputSanitizer cfg) = Ok (out, sf) ->
  cfg !! "compute_orbitals" = Some co ->
  truthy co = true ->
  lookup_in out (at_spec main (dft_print ++ ["mo"; "add_last"]))
    = Some (VStr "numeric") /\
  lookup_in out (at_spec main (dft_print ++ ["mo"; "each"; "qs_scf"]))
    = Some (VInt 0) /\
  lookup_in out (at_spec main (dft_print ++ ["mo"; "eigenvalues"]))
    = Some (VStr "") /\
  lookup_in out (at_spec main (dft_print ++ ["mo"; "eigenvectors"]))
    = Some (VStr "") /\
  lookup_in out (at_spec main (dft_print ++ ["mo"; "ndigits"]))
    = Some (VInt 36).
Proof.
  intros H Hco Ht. rewrite <- !lookup_in_top in *. open_run H.
  unfold derive_orbitals in R4. back. rewrite Hco in R4. simpl in R4.
  rewrite Ht in R4.
  apply add_mo_index_range_print in R4 as (L1 & L2 & L3 & L4 & L5).
  repeat split; back; done.
Qed.

(** X11. Once the templates have been overlaid the sanitizer changes only
    the places of [fp_keywords]: a path of the configuration it returns
    holds what it held after the overlay unless it is, is above or is below
    a path a keyword is written to, or is or is above a section that the
    evaluation of an attribute chain creates when it is missing (in the
    main specification [dft.print] and [dft.print.mo]; in both
    specifications [dft] and, when a basis directory is given, [dft.xc]). *)
Theorem keywords_footprint cfg out sf :
  sanitize' (InputSanitizer cfg) = Ok (out, sf) ->
  exists st, overlaid create_settings_from_template cfg st /\
    forall q, forallb (untouched q) fp_keywords = true ->
              lookup_in out q = cfg_lookup q st.
Proof.
  intros H. open_run H. exists s2. split; [by exists s1|].
  assert (frame fp_keywords s2 s11) as F.
  { repeat (eapply frame_trans;
            [|eapply frame_weaken; [|eassumption]; reflexivity]).
    apply frame_refl. }
  intros q Hq. by apply F.
Qed.

Lemma as_dict_child_leaf q v x :
  plain_leaf x = true ->
  tree_lookup q (as_dict_child v) = Some x <-> tree_lookup q v = Some x.
Proof.
  intros Hx. revert v. induction q as [|k q IH]; intros v.
  - simpl. destruct v as [| | | | | | |[] m]; simpl; try done.
    all: split; intros [= <-]; done.
  - destruct v as [| | | | | | |[] m]; try done.
    simpl. rewrite lookup_fmap. destruct (m !! k) as [c|]; [apply IH|done].
Qed.

Lemma recursive_traverse_leaf q v x :
  plain_leaf x = true ->
  tree_lookup q (recursive_traverse v) = Some x <-> tree_lookup q v = Some x.
Proof.
  intros Hx. revert v. induction q as [|k q IH]; intros v.
  - simpl. destruct v as [| | | | | | |[] m]; simpl; try done.
    all: split; intros [= <-]; done.
  - destruct v as [| | | | | | |[] m]; try done.
    + simpl. rewrite lookup_fmap. destruct (m !! k) as [c|]; [apply IH|done].
    + simpl. rewrite lookup_fmap.
      destruct (m !! k) as [c|]; [by apply as_dict_child_leaf|done].
Qed.

(** X12. The audit file holds exactly the scalars of the configuration that
    is returned: at every path, a value that is neither a mapping nor a list
    is in the file if and only if it is in the configuration. *)
Theorem audit_file_holds_the_scalars cfg out sf :
  sanitize' (InputSanitizer cfg) = Ok (out, sf) ->
  exists d, dumped sf !! "input_parameters.yml" = Some (VDict Plain d) /\
    forall q x, plain_leaf x = true ->
      (lookup_in d q = Some x <-> lookup_in out q = Some x).
Proof.
  intros H. apply sanitize_final in H as (t & _ & _ & H & ->).
  unfold print_final_input, yaml_dump in H. injection H as <-.
  eexists. split; [apply lookup_insert_eq|].
  intros q x Hx. unfold lookup_in. simpl. destruct q as [|k q].
  - simpl. by destruct x.
  - rewrite !tree_lookup_cons, lookup_fmap.
    destruct (user_input (st_final t) !! k) as [c|]; [|done].
    by apply recursive_traverse_leaf.
Qed.

Lemma sum_valence_unknown basis pre a post t acc :
  valence_total valence_electrons basis pre = Some t ->
  valence_electrons !! (a ++ "-" ++ basis) = None ->
  sum_valence valence_electrons (VStr basis) (pre ++ a :: post) acc
    = Err (KeyError (a ++ "-" ++ basis)).
Proof.
  revert t acc. induction pre as [|b pre IH]; intros t acc Ht Ha.
  - simpl. by rewrite Ha.
  - simpl in *. destruct (valence_electrons !! (b ++ "-" ++ basis)); [|done].
    destruct (valence_total _ _ pre); [|done]. eauto.
Qed.

(** X13. When the settings have been created and the templates overlaid
    without an error, the HOMO index has to be derived and the geometry
    holds an element the table of valence electrons does not know for the
    basis, the sanitization fails with a key error that names the first such
    element and the basis, whatever the charge is. *)
Theorem unknown_element_is_a_key_error cfg basis charge path pre a post t :
  (exists st, overlaid create_settings_from_template cfg st) ->
  is_none (default VNone (cfg !! "nHOMO")) = true ->
  lookup_in cfg [cgs; "basis"] = Some (VStr basis) ->
  lookup_in cfg [cgs; "charge"] = Some charge ->
  cfg !! "path_traj_xyz" = Some path ->
  Molecule path = Ok (pre ++ a :: post)%list ->
  valence_total valence_electrons basis pre = Some t ->
  valence_electrons !! (a ++ "-" ++ basis) = None ->
  sanitize' (InputSanitizer cfg) = Err (KeyError (a ++ "-" ++ basis)).
Proof.
  intros (s2 & s1 & R1 & R2) Hn Hb Hc Hp Hm Ht Ha.
  pose proof (create_settings_mframe _ _ _ R1) as F1.
  pose proof (apply_templates_mframe _ _ _ _ R2) as F2.
  rewrite <- lookup_in_top in Hp.
  change (lookup_in ?c ?q) with (cfg_lookup q (InputSanitizer c)) in *.
  assert (input_get "nHOMO" s2 = Ok (default VNone (cfg !! "nHOMO"), s2))
    as Hget.
  { unfold input_get. f_equal. f_equal. f_equal. rewrite <- !lookup_in_top.
    change (lookup_in (user_input ?s) ?q) with (cfg_lookup q s).
    change (lookup_in ?c ?q) with (cfg_lookup q (InputSanitizer c)).
    by back. }
  assert (compute_homo_index valence_electrons Molecule s2
          = Err (KeyError (a ++ "-" ++ basis))) as Hchi.
  { unfold compute_homo_index.
    assert (cfg_lookup [cgs; "basis"] s2 = Some (VStr basis)) as Hb2
      by (by back).
    assert (cfg_lookup [cgs; "charge"] s2 = Some charge) as Hc2 by (by back).
    assert (cfg_lookup ["path_traj_xyz"] s2 = Some path) as Hp2 by (by back).
    rewrite (bind_run _ _ _ _ _ (general_getitem_run _ _ _ Hb2)).
    rewrite (bind_run _ _ _ _ _ (general_getitem_run _ _ _ Hc2)).
    unfold cfg_lookup in Hp2. rewrite tree_lookup_cons in Hp2.
    unfold bind at 1. unfold input_getitem.
    destruct (user_input s2 !! "path_traj_xyz") as [p|]; [|done].
    injection Hp2 as ->. unfold bind, lift.
    by rewrite Hm, (sum_valence_unknown _ _ _ _ _ _ Ht Ha). }
  unfold sanitize.
  rewrite (bind_run _ _ _ _ _ R1), (bind_run _ _ _ _ _ R2).
  assert (add_missing_keywords valence_electrons Molecule abspath
            absolute_posix s2 = Err (KeyError (a ++ "-" ++ basis))) as E.
  { unfold add_missing_keywords. rewrite (bind_run _ _ _ _ _ Hget), Hn.
    unfold bind. by rewrite Hchi. }
  unfold bind at 1. by rewrite E.
Qed.

(** X14. Both job specifications must be in the general settings: without
    the main one the sanitization fails with a key error that names it, and
    with a main one that is a mapping but no guess, with a key error that
    names the guess. *)
Theorem missing_specification_is_a_key_error cfg kd g :
  cfg !! cgs = Some (VDict kd g) ->
  (g !! main = None ->
   sanitize' (InputSanitizer cfg) = Err (KeyError main)) /\
  (forall km m, g !! main = Some (VDict km m) -> g !! guess = None ->
   sanitize' (InputSanitizer cfg) = Err (KeyError guess)).
Proof.
  intros Hg. split.
  - intros Hm.
    unfold sanitize, create_settings, general_getitem, self_general, bind.
    simpl. by rewrite Hg, Hm.
  - intros km m Hm Hgs.
    unfold sanitize, create_settings, general_getitem, self_general,
      general_store, bind, lift, ret.
    simpl. rewrite Hg, Hm. simpl. rewrite Hg. simpl.
    rewrite lookup_insert_eq, lookup_insert_ne, Hgs; done.
Qed.

(** X18. An active space with fewer than two bounds is an index error: when
    the settings have been created and the templates overlaid without an
    error, with the HOMO index given and the orbitals requested, the
    sanitization of a configuration whose active space is empty or holds
    one bound fails with it. *)
Theorem short_active_space_is_an_index_error cfg h xs :
  (exists st, overlaid create_settings_from_template cfg st) ->
  cfg !! "nHOMO" = Some (VInt h) ->
  cfg !! "compute_orbitals" = Some (VBool true) ->
  cfg !! "active_space" = Some (VList xs) ->
  xs = [] \/ (exists a, xs = [VInt a]) ->
  sanitize' (InputSanitizer cfg) = Err IndexError.
Proof.
  intros (s2 & s1 & R1 & R2) Hh Hco Has Hxs.
  pose proof (create_settings_mframe _ _ _ R1) as F1.
  pose proof (apply_templates_mframe _ _ _ _ R2) as F2.
  assert (forall k, k <> cgs -> user_input s2 !! k = cfg !! k) as Hsame.
  { intros k Hk. rewrite <- !lookup_in_top.
    change (lookup_in (user_input ?s) ?q) with (cfg_lookup q s).
    change (lookup_in ?c ?q) with (cfg_lookup q (InputSanitizer c)).
    unfold frame in F1, F2. rewrite F2, F1; [done| |]; simpl.
    all: by rewrite (proj2 (String.eqb_neq _ _) (not_eq_sym Hk)). }
  assert (add_missing_keywords valence_electrons Molecule abspath
            absolute_posix s2 = Err IndexError) as E.
  { cbv [add_missing_keywords add_mo_index_range input_get input_getitem
           bind lift ret].
    rewrite (Hsame "nHOMO"), Hh by done. cbn [default id is_none].
    rewrite (Hsame "compute_orbitals"), Hco by done. cbn [default id truthy].
    rewrite (Hsame "active_space"), Has, (Hsame "nHOMO"), Hh by done.
    destruct Hxs as [-> | [a ->]]; done. }
  unfold sanitize.
  rewrite (bind_run _ _ _ _ _ R1), (bind_run _ _ _ _ _ R2).
  unfold bind at 1. by rewrite E.
Qed.

Lemma add_basis_logged s u s' :
  add_basis abspath s = Ok (u, s') ->
  exists pb, cfg_lookup [cgs; "path_basis"] s = Some pb /\
    logged s' = (logged s ++ if is_none pb then [] else [basis_message])%list.
Proof.
  unfold add_basis. intros H.
  mstep H as tm Htm. mstep H as tg Htg. mstep H as pb Hpb.
  exists pb. split; [done|]. destruct (is_none pb); simpl in H.
  - apply ret_ok in H as [_ ->]. by rewrite app_nil_r.
  - mstep H as u0 H0 to s1. injection H0 as _ <-.
    assert (msilent (add_basis_to abspath main ;;; add_basis_to abspath guess))
      as Hs.
    { unfold add_basis_to, select_basis_file, basis_file. msilent_auto. }
    by rewrite (Hs _ _ _ H).
Qed.

(** A successful run, with what it logged. *)
Lemma sanitize_logged s0 out sf :
  sanitize' s0 = Ok (out, sf) ->
  exists t, st_input t = s0 /\ run_of' t /\
    logged (st_restart t) =
      (logged s0 ++
       if truthy (default VNone (cfg_lookup ["compute_orbitals"] (st_homo t)))
       then [] else [orbitals_message])%list /\
    logged sf = logged (st_basis t).
Proof.
  unfold sanitize. intros H.
  mstep H as u1 H1 to s1. mstep H as u2 H2 to s2.
  mstep H as u3 H3 to s11. mstep H as u4 H4 to s12.
  mstep H as u5 H5 to s13. injection H as <- <-.
  unfold add_missing_keywords in H3.
  mstep H3 as h Hh. mstep H3 as u6 H6 to s3.
  mstep H3 as co Hco. mstep H3 as u7 H7 to s4.
  mstep H3 as u8 H8 to s5. mstep H3 as u9 H9 to s6.
  mstep H3 as u10 H10 to s7. mstep H3 as u11 H11 to s8.
  mstep H3 as u12 H12 to s9.
  destruct u1, u2, u3, u4, u5, u8, u9, u10, u11, u12.
  exists (Stages s0 s1 s2 s3 s4 s5 s6 s7 s8 s9 s11 s12).
  split; [done|].
  assert (msilent create_settings) as Q1
    by (unfold create_settings; msilent_auto).
  assert (msilent (apply_templates create_settings_from_template)) as Q2
    by (unfold apply_templates, apply_template; msilent_auto).
  assert (msilent (compute_homo_index valence_electrons Molecule)) as Q3
    by (unfold compute_homo_index; msilent_auto).
  assert (msilent add_mo_index_range) as Q4
    by (unfold add_mo_index_range; msilent_auto).
  assert (msilent (add_restart_point absolute_posix)) as Q5
    by (unfold add_restart_point; msilent_auto).
  assert (msilent add_cell_parameters) as Q7
    by (unfold add_cell_parameters, add_cell_parameters_to; msilent_auto).
  assert (msilent add_periodic) as Q8
    by (unfold add_periodic, add_periodic_to; msilent_auto).
  assert (msilent add_charge) as Q9
    by (unfold add_charge, add_charge_to; msilent_auto).
  assert (msilent add_multiplicity) as Q10
    by (unfold add_multiplicity, add_multiplicity_to; msilent_auto).
  assert (msilent add_executable) as Q11
    by (unfold add_executable; msilent_auto).
  assert (logged s3 = logged s0) as L3.
  { rewrite <- (Q1 _ _ _ H1), <- (Q2 _ _ _ H2). destruct (is_none h).
    - mstep H6 as n Hn to s2'. injection H6 as _ <-. simpl.
      apply (Q3 _ _ _ Hn).
    - by apply ret_ok in H6 as [_ ->]. }
  split; [|split].
  - unfold run_of. simpl. repeat (split; [done|]).
    split; [|split; [|done]].
    + unfold derive_homo. rewrite <- Hh. destruct (is_none h).
      * mstep H6 as n Hn to s2'. destruct u6. eauto.
      * by apply ret_ok in H6 as [_ ->].
    + unfold derive_orbitals. rewrite <- Hco. destruct (truthy co).
      * by destruct u7.
      * by apply logger_info_ok in H7 as [? _].
  - simpl. rewrite (Q5 _ _ _ H8), <- Hco, <- L3. destruct (truthy co).
    + rewrite app_nil_r. apply (Q4 _ _ _ H7).
    + by injection H7 as _ <-.
  - simpl. unfold print_final_input in H5.
    rewrite (msilent_yaml_dump _ _ _ _ _ H5), (Q11 _ _ _ H4),
      (Q10 _ _ _ H3), (Q9 _ _ _ H12), (Q8 _ _ _ H11). apply (Q7 _ _ _ H10).
Qed.

(** X19. What a successful sanitization logs: that the orbitals are neither
    printed nor stored when they were not requested, then that the path to
    the basis was added when a basis directory was given, and nothing
    else. *)
Theorem log_of_a_sanitization cfg out sf pb :
  sanitize' (InputSanitizer cfg) = Ok (out, sf) ->
  lookup_in cfg [cgs; "path_basis"] = Some pb ->
  logged sf =
  ((if truthy (default VNone (cfg !! "compute_orbitals"))
    then [] else [orbitals_message]) ++
   (if is_none pb then [] else [basis_message]))%list.
Proof.
  intros H Hpb. rewrite <- lookup_in_top.
  apply sanitize_logged in H as (t & E0 & Hrun & L5 & ->).
  destruct t as [s0 s1 s2 s3 s4 s5 s6 s7 s8 s9 s10 s11].
  simpl in E0. subst s0.
  pose proof (run_frames _ _ _ _ _ _ Hrun)
    as (F1 & F2 & F3 & F4 & F5 & F6 & F7 & F8 & F9 & F10 & F11).
  destruct Hrun as (R1 & R2 & R3 & R4 & R5 & R6 & R7 & R8 & R9 & R10 & R11).
  cbn [st_input st_settings st_templates st_homo st_orbitals st_restart
       st_basis st_cell st_periodic st_charge st_multiplicity st_final] in *;
  change (lookup_in ?c ?q) with (cfg_lookup q (InputSanitizer c)) in *.
  apply add_basis_logged in R6 as (pb' & Hpb' & ->).
  rewrite L5. back. rewrite Hpb in Hpb'. injection Hpb' as <-. done.
Qed.

Lemma delitem_lookup p k t t' :
  delitem p k t = Ok t' -> tree_lookup (p ++ [k]) t' = None.
Proof.
  revert t t'; induction p as [|j p IH]; intros t t' H.
  - simpl in *. destruct t as [| | | | | | |kd m]; try done.
    destruct (m !! k); [|done]. injection H as <-.
    by rewrite lookup_delete_eq.
  - simpl in *. destruct t as [| | | | | | |kd m]; try done.
    destruct (m !! j) as [c|]; [|done].
    destruct (delitem p k c) as [c'|] eqn:Hc; [|done]. injection H as <-.
    rewrite lookup_insert_eq. eauto.
Qed.

Lemma cfg_lookup_below p q s v :
  cfg_lookup p s = Some v -> cfg_lookup (p ++ q) s = tree_lookup q v.
Proof. unfold cfg_lookup. rewrite tree_lookup_app. by intros ->. Qed.

Lemma overlay_without k template other merged :
  overlay template other = Ok merged ->
  tree_lookup [k] template = None ->
  tree_lookup [k] other = None ->
  tree_lookup [k] merged = None.
Proof.
  unfold overlay. destruct template as [| | | | | | |[] bm]; try done.
  destruct other as [| | | | | | |kd om]; try done.
  intros [= <-] Hb Ho. simpl in *. rewrite lookup_merge, lookup_fmap.
  destruct (om !! k); [done|]. by destruct (bm !! k).
Qed.

Lemma first_key_elem ks j : first_key ks = Some j -> j ∈ ks.
Proof.
  revert j; induction ks as [|a ks IH]; intros j; [done|]. simpl.
  destruct (first_key ks) as [b|].
  - destruct (String.ltb a b); intros [= <-]; [left|right; eauto].
  - intros [= <-]. left.
Qed.

Lemma first_key_some ks : ks <> [] -> is_Some (first_key ks).
Proof.
  destruct ks as [|a ks]; [done|]. intros _. simpl.
  destruct (first_key ks) as [b|]; [destruct (String.ltb a b)|]; eauto.
Qed.

Lemma matching_keys_elem m k j :
  j ∈ matching_keys m k <-> is_Some (m !! j) /\ same_letters k j = true.
Proof.
  unfold matching_keys. rewrite list_elem_of_filter, list_elem_of_fmap. split.
  - intros (Hl & [i v] & -> & Hin). apply elem_of_map_to_list in Hin. eauto.
  - intros ([v Hv] & Hl). split; [done|]. exists (j, v). split; [done|].
    by apply elem_of_map_to_list.
Qed.

(** The key that [find_case] chooses has the letters of the requested one and
    is present whenever some key with these letters is. *)
Lemma find_case_present m k j :
  is_Some (m !! j) -> same_letters k j = true ->
  is_Some (m !! find_case m k) /\ same_letters k (find_case m k) = true.
Proof.
  intros Hj Hl. unfold find_case.
  destruct (first_key_some (matching_keys m k)) as [i Hi].
  { intros E. assert (j ∈ matching_keys m k) as Hin
      by (by apply matching_keys_elem).
    rewrite E in Hin. by apply elem_of_nil in Hin. }
  rewrite Hi. simpl. apply first_key_elem in Hi.
  by apply matching_keys_elem in Hi.
Qed.

Lemma find_case_absent m k :
  (forall j, is_Some (m !! j) -> same_letters k j = false) ->
  find_case m k = k.
Proof.
  intros Hno. unfold find_case.
  destruct (first_key (matching_keys m k)) as [i|] eqn:Hi; [|done].
  apply first_key_elem, matching_keys_elem in Hi as [Hi Hl].
  by rewrite (Hno _ Hi) in Hl.
Qed.

Lemma same_letters_refl k : same_letters k k = true.
Proof. apply String.eqb_refl. Qed.

Lemma py_in_false k v :
  py_in k v = Ok false -> tree_lookup [k] v = None.
Proof.
  destruct v as [| | | | | | |[] m]; try done; simpl.
  - intros [= H]. apply bool_decide_eq_false in H.
    destruct (m !! k); [|done]. by destruct H.
  - intros [= H]. apply bool_decide_eq_false in H.
    destruct (m !! k) as [v|] eqn:Hk; [|done]. destruct H.
    by apply (find_case_present m k k); [rewrite Hk|apply same_letters_refl].
Qed.

(** [Settings.get] gives [None] when no key has the letters of the requested
    one, and the value of the only key that has them when there is one. *)
Lemma py_get_unmatched m k :
  (forall j, is_Some (m !! j) -> same_letters k j = false) ->
  py_get (VDict Sett m) k = Ok VNone.
Proof.
  intros Hno. simpl. rewrite (find_case_absent _ _ Hno).
  destruct (m !! k) as [v|] eqn:Hk; [|done].
  assert (same_letters k k = false) as E by (apply Hno; by rewrite Hk).
  by rewrite same_letters_refl in E.
Qed.

Lemma py_get_matched m k j v :
  m !! j = Some v -> same_letters k j = true ->
  (forall i, is_Some (m !! i) -> same_letters k i = true -> i = j) ->
  py_get (VDict Sett m) k = Ok v.
Proof.
  intros Hj Hl Huniq. simpl.
  destruct (find_case_present m k j) as [Hp Hs]; [by rewrite Hj|done|].
  by rewrite (Huniq _ Hp Hs), Hj.
Qed.

Lemma apply_template_consumed x s u s' :
  x = main \/ x = guess ->
  (forall g n p t, create_settings_from_template g n p = Ok t ->
                   tree_lookup ["template"] t = None) ->
  apply_template create_settings_from_template x s = Ok (u, s') ->
  cfg_lookup (at_spec x ["specific"; "template"]) s' = None.
Proof.
  intros Hx Htpl H. unfold apply_template in H.
  mstep H as val Hval to s1. apply spec_getattr_ok in Hval as (Hval & _ & _).
  mstep H as has Hhas. destruct has.
  - mstep H as name Hname to s1'. mstep H as g Hg. mstep H as path Hpath.
    mstep H as tpl Ht. apply Htpl in Ht.
    mstep H as u1 H1 to s2.
    apply spec_update_ok in H1 as (t1 & t1' & Hdel & _ & Hnew & _).
    apply (delitem_lookup ["specific"]) in Hdel.
    rewrite <- (Hnew (["specific"] ++ ["template"])%list) in Hdel.
    mstep H as specific Hsp to s3.
    apply spec_getattr_ok in Hsp as (Hsp & F3 & _).
    mstep H as merged Hm.
    apply spec_setattr_ok in H as (Hset & _ & _).
    etrans; [apply (cfg_lookup_below _ ["template"] _ _ Hset)|].
    assert (tree_lookup ["template"] specific = None) as Hno.
    { etrans; [symmetry; apply (cfg_lookup_below _ ["template"] _ _ Hsp)|].
      simpl app in *. destruct Hx as [-> | ->]; back; done. }
    pose proof (overlay_without _ _ _ _ Hm Ht Hno) as Hmerged.
    unfold overlay in Hm. destruct tpl as [| | | | | | |[] bm]; try done.
    destruct specific as [| | | | | | |kd om]; try done.
    by injection Hm as <-.
  - apply ret_ok in H as [_ ->].
    etrans; [apply (cfg_lookup_below _ ["template"] _ _ Hval)|].
    by apply py_in_false.
Qed.

(** X20. The request for a template is consumed: as long as the templates
    themselves hold no such key, no job specification of a sanitized
    configuration has a "template" entry under "specific". *)
Theorem no_template_request_left cfg out sf :
  sanitize' (InputSanitizer cfg) = Ok (out, sf) ->
  (forall g n p t, create_settings_from_template g n p = Ok t ->
                   tree_lookup ["template"] t = None) ->
  forall x, x = main \/ x = guess ->
    lookup_in out (at_spec x ["specific"; "template"]) = None.
Proof.
  intros H Htpl x Hx. open_run H. unfold apply_templates in R2.
  mstep R2 as tm Htm. mstep R2 as tg Htg. mstep R2 as um Hmain to s1'.
  assert (frame [Wr [cgs; guess]] s1' s2) as Fg.
  { revert R2. generalize s1' s2.
    assert (mframe [Wr [cgs; guess]]
              (apply_template create_settings_from_template guess)) as Fg
      by (unfold apply_template; mframe_auto).
    intros a b. apply Fg. }
  apply (apply_template_consumed _ _ _ _ (or_introl eq_refl) Htpl) in Hmain.
  apply (apply_template_consumed _ _ _ _ (or_intror eq_refl) Htpl) in R2.
  destruct Hx as [-> | ->]; back; done.
Qed.

End Behaviour.

(** * Further properties of the multipole provider *)

Module ProviderBehaviour.

Import Multipole.

Section Requests.

Variable atoms : Type.
Variable matrix : Type.
Variable center : Type.
Variable hdf5 : Type.
Variable search_data_in_hdf5 : hdf5 -> value -> string -> bool.
Variable retrieve_hdf5_data : hdf5 -> value -> string -> result (option matrix).
Variable store_arrays_in_hdf5 :
  hdf5 -> value -> string -> option matrix -> result hdf5.
Variable compute_center_of_mass : atoms -> result center.

#[local] Abbreviation get :=
  (get_multipole_matrix atoms matrix center hdf5 search_data_in_hdf5
     retrieve_hdf5_data store_arrays_in_hdf5 compute_center_of_mass).

(** The two ways a request succeeds: the matrix was found in the store, or
    nothing is returned and the integrals were asked for once. *)
Lemma get_cases i mol config multipole w m w' :
  get i mol config multipole w = Ok (m, w') ->
  exists project file,
    config !! "project_name" = Some (VStr project) /\
    config !! "path_hdf5" = Some file /\
    ((exists a,
        search_data_in_hdf5 (disk w) file (multipole_key project i multipole)
          = true /\
        retrieve_hdf5_data (disk w) file (multipole_key project i multipole)
          = Ok (Some a) /\
        m = Some a /\ computations w' = computations w) \/
     ((search_data_in_hdf5 (disk w) file (multipole_key project i multipole)
         = false \/
       retrieve_hdf5_data (disk w) file (multipole_key project i multipole)
         = Ok None) /\
      m = None /\ computations w' = S (computations w))).
Proof.
  unfold get_multipole_matrix, config_getitem. intros H.
  apply MultipoleFacts.rbind_ok in H as (project & Hp & H).
  apply MultipoleFacts.rbind_ok in Hp as (pv & Hp & Hs).
  destruct (config !! "project_name") as [pv'|] eqn:Hpn; [|done].
  injection Hp as ->. destruct pv; try done. injection Hs as ->.
  apply MultipoleFacts.rbind_ok in H as (file & Hf & H).
  destruct (config !! "path_hdf5") as [file'|] eqn:Hfile; [|done].
  injection Hf as ->.
  apply MultipoleFacts.rbind_ok in H as ([m1 w1] & Hsearch & H).
  apply MultipoleFacts.rbind_ok in H as ([m2 w2] & Hcomp & H).
  apply MultipoleFacts.rbind_ok in H as (d & Hst & H). injection H as <- <-.
  exists project, file. do 2 (split; [done|]).
  unfold search_multipole_in_hdf5 in Hsearch. simpl in Hsearch.
  unfold computations. cbn [trace].
  destruct (search_data_in_hdf5 _ _ _) eqn:Hfound.
  - apply MultipoleFacts.rbind_ok in Hsearch as (r & Hr & Hsearch).
    injection Hsearch as <- <-. simpl in Hr. destruct r as [a0|].
    + injection Hcomp as <- <-. left. exists a0. do 3 (split; [done|]).
      cbn [trace emit]. rewrite !MultipoleFacts.count_snoc. simpl. lia.
    + apply MultipoleFacts.compute_matrix_multipole_ok in Hcomp as [-> ->].
      right. split; [by right|]. split; [done|].
      cbn [trace emit]. rewrite !MultipoleFacts.count_snoc. simpl. lia.
  - injection Hsearch as <- <-.
    apply MultipoleFacts.compute_matrix_multipole_ok in Hcomp as [-> ->].
    right. split; [by left|]. split; [done|].
    cbn [trace emit]. rewrite !MultipoleFacts.count_snoc. simpl. lia.
Qed.

(** X15. A request returns a matrix only if that matrix was already in the
    store: the result of a successful request is a matrix exactly when the
    key was found and the matrix retrieved under it. *)
Theorem returned_matrix_was_persisted i mol config multipole w m w' :
  get i mol config multipole w = Ok (m, w') ->
  exists project file,
    config !! "project_name" = Some (VStr project) /\
    config !! "path_hdf5" = Some file /\
    forall a,
      m = Some a <->
      search_data_in_hdf5 (disk w) file (multipole_key project i multipole)
        = true /\
      retrieve_hdf5_data (disk w) file (multipole_key project i multipole)
        = Ok (Some a).
Proof.
  intros H. apply get_cases in H as (project & file & Hp & Hf & H).
  exists project, file. do 2 (split; [done|]). intros a.
  destruct H as [(a0 & Hs & Hr & -> & _) | ([Hs | Hr] & -> & _)].
  - split; [by intros [= <-]|]. intros [_ Ha]. congruence.
  - split; [done|]. intros [Ha _]. congruence.
  - split; [done|]. intros [_ Ha]. congruence.
Qed.

(** X16. A successful request asks for the integrals exactly when it returns
    nothing, and then once. *)
Theorem integrals_requested_iff_nothing_returned i mol config multipole w m w' :
  get i mol config multipole w = Ok (m, w') ->
  computations w' =
  (computations w + if m is Some _ then 0 else 1)%nat.
Proof.
  intros H. apply get_cases in H as (project & file & _ & _ & H).
  destruct H as [(a0 & _ & _ & -> & ->) | (_ & -> & ->)]; lia.
Qed.

(** X17. The center of mass is computed for every multipole but the
    overlap. A request for the overlap that misses succeeds whatever the
    computation of the center of mass would do: it searches, prints,
    computes and stores in this order and returns [None]. A request for
    another multipole that misses fails with the error of the computation
    of the center of mass, whatever the store helper is. *)
Theorem center_of_mass_but_for_overlap i mol config multipole w project file :
  config !! "project_name" = Some (VStr project) ->
  config !! "path_hdf5" = Some file ->
  search_data_in_hdf5 (disk w) file (multipole_key project i multipole)
    = false ->
  (multipole = "overlap" ->
   forall d,
     store_arrays_in_hdf5 (disk w) file (multipole_key project i multipole) None
       = Ok d ->
     get i mol config multipole w =
     Ok (None,
         World d (trace w ++
                  [Searched (multipole_key project i multipole);
                   Printed ("computing multipole: " ++ multipole);
                   Computed multipole;
                   Stored (multipole_key project i multipole) None])%list)) /\
  (multipole <> "overlap" ->
   forall e, compute_center_of_mass mol = Err e ->
             get i mol config multipole w = Err e).
Proof.
  intros Hp Hf Hmiss.
  unfold get_multipole_matrix, config_getitem. rewrite Hp, Hf. simpl.
  unfold search_multipole_in_hdf5. simpl. rewrite Hmiss. simpl.
  unfold compute_matrix_multipole, config_getitem. rewrite Hf. simpl. split.
  - intros -> d Hst. rewrite String.eqb_refl. simpl. rewrite Hst. simpl.
    by rewrite <- !app_assoc.
  - intros Hne e He. apply String.eqb_neq in Hne. rewrite Hne. simpl.
    by rewrite He.
Qed.

End Requests.

End ProviderBehaviour.

(** ** Concrete runs *)

Module Observed.

Import Example Cases.

Ltac evaluated := vm_compute; reflexivity.

Ltac ran cfg :=
  assert (run cfg = Ok (output cfg, final cfg))
    by (apply Checked.run_succeeded; evaluated).

Lemma homo_kept_when_given :
  run methane_homo_given
    = Ok (output methane_homo_given, final methane_homo_given) /\
  methane_homo_given !! "nHOMO" = Some (VInt 10) /\
  output methane_homo_given !! "nHOMO" = Some (VInt 10).
Proof.
  ran methane_homo_given. split; [done|]. split; [evaluated|].
  apply (explicit_homo_kept table geometries templates abspath abspath
           methane_homo_given _ (final methane_homo_given) (VInt 10));
    [done|evaluated|evaluated].
Defined.

Lemma no_warning_when_homo_given :
  run methane_homo_given
    = Ok (output methane_homo_given, final methane_homo_given) /\
  methane_homo_given !! "nHOMO" = Some (VInt 10) /\
  warned (final methane_homo_given) = [].
Proof.
  ran methane_homo_given. split; [done|]. split; [evaluated|].
  apply (no_warning_with_explicit_homo table geometries templates abspath
           abspath methane_homo_given (output methane_homo_given) _ (VInt 10));
    [done|evaluated|evaluated].
Defined.

Lemma warnings_of_methane :
  run methane = Ok (output methane, final methane) /\
  valence_total table "DZVP-MOLOPT" ["C"; "H"; "H"; "H"; "H"] = Some 8 /\
  warned (final methane) = [].
Proof.
  ran methane. split; [done|]. split; [evaluated|].
  apply (warning_iff_odd_count table geometries templates abspath abspath
           methane (output methane) (final methane) "DZVP-MOLOPT" 0
           (VStr "ch4.xyz") ["C"; "H"; "H"; "H"; "H"] 8);
    [done|evaluated..].
Defined.

Lemma rest_of_methane :
  run methane = Ok (output methane, final methane) /\
  (forall k, k <> "nHOMO" -> k <> "mo_index_range" -> k <> cgs ->
             output methane !! k = methane !! k) /\
  (forall k, k <> main -> k <> guess ->
             lookup_in (output methane) [cgs; k] = lookup_in methane [cgs; k]).
Proof.
  ran methane. split; [done|].
  by apply (sanitize_leaves_the_rest table geometries templates abspath abspath
              methane (output methane) (final methane)).
Defined.

Lemma geometry_unread_when_homo_given :
  methane_homo_given !! "nHOMO" = Some (VInt 10) /\
  run methane_homo_given =
  sanitize ∅ no_geometry templates abspath abspath
           (InputSanitizer methane_homo_given).
Proof.
  split; [evaluated|].
  apply (explicit_homo_ignores_geometry table geometries templates abspath
           abspath ∅ no_geometry methane_homo_given (VInt 10)); evaluated.
Defined.

Lemma restart_of_methane :
  run methane_restarted
    = Ok (output methane_restarted, final methane_restarted) /\
  lookup_in methane_restarted [cgs; "wfn_restart_file_name"]
    = Some (VStr "guess.wfn") /\
  lookup_in (output methane_restarted)
    (at_spec guess (dft ++ ["wfn_restart_file_name"]))
    = Some (VStr "/home/user/guess.wfn").
Proof.
  ran methane_restarted. split; [done|]. split; [evaluated|].
  refine (proj1 (restart_point_in_guess_only table geometries templates
                   abspath abspath methane_restarted
                   (output methane_restarted) (final methane_restarted)
                   (VStr "guess.wfn") _ _) "guess.wfn" eq_refl _);
    [done|evaluated|done].
Defined.

Lemma cell_parameters_of_methane :
  run methane = Ok (output methane, final methane) /\
  lookup_in methane [cgs; "file_cell_parameters"] = Some VNone /\
  lookup_in methane [cgs; "cell_parameters"] = Some (VInt 28) /\
  lookup_in (output methane) (at_spec main ["cell_parameters"])
    = Some (VInt 28) /\
  lookup_in (output methane) (at_spec guess ["cell_parameters"])
    = Some (VInt 28).
Proof.
  ran methane. split; [done|]. do 2 (split; [evaluated|]).
  apply (cell_parameters_copied table geometries templates abspath abspath
           methane (output methane) (final methane) VNone (VInt 28));
    [done|evaluated..].
Defined.

Lemma no_basis_path_of_methane :
  run methane_no_basis_path
    = Ok (output methane_no_basis_path, final methane_no_basis_path) /\
  lookup_in methane_no_basis_path [cgs; "path_basis"] = Some VNone /\
  exists st, overlaid templates methane_no_basis_path st /\
    forall x, x = main \/ x = guess ->
      lookup_in (output methane_no_basis_path) (at_spec x ["basis"])
        = cfg_lookup (at_spec x ["basis"]) st /\
      lookup_in (output methane_no_basis_path) (at_spec x ["potential"])
        = cfg_lookup (at_spec x ["potential"]) st /\
      lookup_in (output methane_no_basis_path)
        (at_spec x (dft ++ ["potential_file_name"]))
        = cfg_lookup (at_spec x (dft ++ ["potential_file_name"])) st /\
      lookup_in (output methane_no_basis_path)
        (at_spec x (dft ++ ["basis_set_file_name"]))
        = cfg_lookup (at_spec x (dft ++ ["basis_set_file_name"])) st.
Proof.
  ran methane_no_basis_path. split; [done|]. split; [evaluated|].
  apply (basis_step_skipped_without_path table geometries templates abspath
           abspath methane_no_basis_path (output methane_no_basis_path)
           (final methane_no_basis_path));
    [done|evaluated].
Defined.

Lemma basis_names_of_methane :
  run methane = Ok (output methane, final methane) /\
  lookup_in methane [cgs; "path_basis"] = Some (VStr "basis") /\
  lookup_in methane [cgs; "basis"] = Some (VStr "DZVP-MOLOPT") /\
  lookup_in methane [cgs; "potential"] = Some (VStr "GTH-PBE") /\
  forall x, x = main \/ x = guess ->
    lookup_in (output methane) (at_spec x ["basis"])
      = Some (VStr "DZVP-MOLOPT") /\
    lookup_in (output methane) (at_spec x ["potential"])
      = Some (VStr "GTH-PBE").
Proof.
  ran methane. split; [done|]. do 3 (split; [evaluated|]).
  apply (basis_names_copied table geometries templates abspath abspath
           methane (output methane) (final methane) "basis");
    [done|evaluated..].
Defined.

Lemma print_section_of_methane :
  run methane = Ok (output methane, final methane) /\
  methane !! "compute_orbitals" = Some (VBool true) /\
  lookup_in (output methane) (at_spec main (dft_print ++ ["mo"; "add_last"]))
    = Some (VStr "numeric") /\
  lookup_in (output methane)
    (at_spec main (dft_print ++ ["mo"; "each"; "qs_scf"])) = Some (VInt 0) /\
  lookup_in (output methane) (at_spec main (dft_print ++ ["mo"; "eigenvalues"]))
    = Some (VStr "") /\
  lookup_in (output methane)
    (at_spec main (dft_print ++ ["mo"; "eigenvectors"])) = Some (VStr "") /\
  lookup_in (output methane) (at_spec main (dft_print ++ ["mo"; "ndigits"]))
    = Some (VInt 36).
Proof.
  ran methane. split; [done|]. split; [evaluated|].
  apply (mo_print_section table geometries templates abspath abspath
           methane (output methane) (final methane) (VBool true));
    [done|evaluated|evaluated].
Defined.

Lemma footprint_of_methane :
  run methane = Ok (output methane, final methane) /\
  exists st, overlaid templates methane st /\
    forall q, forallb (untouched q) fp_keywords = true ->
              lookup_in (output methane) q = cfg_lookup q st.
Proof.
  ran methane. split; [done|].
  by apply (keywords_footprint table geometries templates abspath abspath
              methane (output methane) (final methane)).
Defined.

Lemma audit_file_of_methane :
  run methane = Ok (output methane, final methane) /\
  exists d,
    dumped (final methane) !! "input_parameters.yml" = Some (VDict Plain d) /\
    forall q x, plain_leaf x = true ->
      (lookup_in d q = Some x <-> lookup_in (output methane) q = Some x).
Proof.
  ran methane. split; [done|].
  by apply (audit_file_holds_the_scalars table geometries templates abspath
              abspath methane (output methane) (final methane)).
Defined.

Lemma overlaid_when cfg :
  overlay_succeeds cfg = true -> exists st, overlaid templates cfg st.
Proof.
  unfold overlay_succeeds, overlaid.
  destruct (create_settings (InputSanitizer cfg)) as [[[] s1]|]; [|done].
  destruct (apply_templates templates s1) as [[[] s2]|] eqn:E; [|done].
  intros _. exists s2, s1. done.
Qed.

Lemma oxygen_of_methanol :
  (exists st, overlaid templates methanol st) /\
  more_geometries (VStr "ch3oh.xyz") = Ok (["C"; "H"; "H"; "H"] ++ "O" :: ["H"])%list /\
  valence_total table "DZVP-MOLOPT" ["C"; "H"; "H"; "H"] = Some 7 /\
  table !! "O-DZVP-MOLOPT" = None /\
  sanitize table more_geometries templates abspath abspath
           (InputSanitizer methanol) = Err (KeyError "O-DZVP-MOLOPT").
Proof.
  assert (exists st, overlaid templates methanol st) as Ho
    by (apply overlaid_when; evaluated).
  split; [exact Ho|]. do 3 (split; [evaluated|]).
  apply (unknown_element_is_a_key_error table more_geometries templates
           abspath abspath methanol "DZVP-MOLOPT" (VInt 0) (VStr "ch3oh.xyz")
           ["C"; "H"; "H"; "H"] "O" ["H"] 7 Ho);
    evaluated.
Defined.

Lemma main_specification_missing :
  no_main !! cgs = Some (VDict Plain guess_only) /\
  guess_only !! main = None /\
  run no_main = Err (KeyError main).
Proof.
  split; [evaluated|]. split; [evaluated|].
  refine (proj1 (missing_specification_is_a_key_error table geometries
                   templates abspath abspath no_main Plain guess_only _) _);
    evaluated.
Defined.

(** A request for a template under a key in another case is seen by the
    membership test, the item access creates the key as it is written, and
    the template function is handed the empty [Settings] it holds. *)
Lemma template_under_a_capital_key :
  overlay_succeeds methane_capital_template = false /\
  run methane_capital_template = Err TemplateError.
Proof. split; evaluated. Qed.

Lemma one_bound_of_the_active_space :
  (exists st, overlaid templates methane_one_bound st) /\
  methane_one_bound !! "nHOMO" = Some (VInt 10) /\
  methane_one_bound !! "compute_orbitals" = Some (VBool true) /\
  methane_one_bound !! "active_space" = Some (VList [VInt 2]) /\
  run methane_one_bound = Err IndexError.
Proof.
  assert (exists st, overlaid templates methane_one_bound st) as Ho
    by (apply overlaid_when; evaluated).
  split; [exact Ho|]. do 3 (split; [evaluated|]).
  apply (short_active_space_is_an_index_error table geometries templates
           abspath abspath methane_one_bound 10 [VInt 2] Ho);
    [evaluated|evaluated|evaluated|right; by exists 2].
Defined.

Lemma log_without_orbitals :
  run methane_cell_file
    = Ok (output methane_cell_file, final methane_cell_file) /\
  lookup_in methane_cell_file [cgs; "path_basis"] = Some (VStr "basis") /\
  methane_cell_file !! "compute_orbitals" = Some (VBool false) /\
  logged (final methane_cell_file) = [orbitals_message; basis_message].
Proof.
  ran methane_cell_file. split; [done|]. do 2 (split; [evaluated|]).
  assert (truthy (default VNone (methane_cell_file !! "compute_orbitals"))
          = false) as E by evaluated.
  pose proof (log_of_a_sanitization table geometries templates abspath abspath
                methane_cell_file (output methane_cell_file)
                (final methane_cell_file) (VStr "basis")) as L.
  rewrite E in L. apply L; [done|evaluated].
Defined.

Lemma templates_hold_no_request g n p t :
  templates g n p = Ok t -> tree_lookup ["template"] t = None.
Proof.
  unfold templates. destruct n; try done.
  destruct (String.eqb _ "pbe_main"); [by intros [= <-]|].
  destruct (String.eqb _ "pbe_guess"); [by intros [= <-]|done].
Qed.

Lemma template_request_of_methane :
  run methane = Ok (output methane, final methane) /\
  lookup_in methane (at_spec main ["specific"; "template"])
    = Some (VStr "pbe_main") /\
  forall x, x = main \/ x = guess ->
    lookup_in (output methane) (at_spec x ["specific"; "template"]) = None.
Proof.
  ran methane. split; [done|]. split; [evaluated|].
  apply (no_template_request_left table geometries templates abspath abspath
           methane (output methane) (final methane));
    [done|exact templates_hold_no_request].
Defined.

Import Multipole.

Lemma matrix_of_filled_store :
  provider 0 water namd "dipole" filled = Ok (returned filled, after filled) /\
  exists project file,
    namd !! "project_name" = Some (VStr project) /\
    namd !! "path_hdf5" = Some file /\
    forall a,
      returned filled = Some a <->
      h5_search (disk filled) file (multipole_key project 0 "dipole") = true /\
      h5_retrieve (disk filled) file (multipole_key project 0 "dipole")
        = Ok (Some a).
Proof.
  assert (provider 0 water namd "dipole" filled
          = Ok (returned filled, after filled)) as Hrun
    by (apply MultipoleFacts.provider_answered; evaluated).
  split; [exact Hrun|].
  exact (ProviderBehaviour.returned_matrix_was_persisted (list string) array
           unit h5 h5_search h5_retrieve h5_store center_of
           0 water namd "dipole" filled (returned filled) (after filled) Hrun).
Defined.

Lemma integrals_on_fresh_store :
  provider 0 water namd "dipole" fresh = Ok (returned fresh, after fresh) /\
  returned fresh = None /\
  computations (after fresh) = (computations fresh + 1)%nat.
Proof.
  assert (provider 0 water namd "dipole" fresh
          = Ok (returned fresh, after fresh)) as Hrun
    by (apply MultipoleFacts.provider_answered; evaluated).
  split; [exact Hrun|]. split; [evaluated|].
  assert (returned fresh = None) as E by evaluated.
  pose proof (ProviderBehaviour.integrals_requested_iff_nothing_returned
                (list string) array unit h5 h5_search h5_retrieve h5_store
                center_of 0 water namd "dipole" fresh (returned fresh)
                (after fresh) Hrun) as H.
  rewrite E in H. exact H.
Defined.

Lemma dipole_without_center :
  namd !! "project_name" = Some (VStr "namd") /\
  namd !! "path_hdf5" = Some (VStr "quantum.hdf5") /\
  h5_search (disk fresh) (VStr "quantum.hdf5") dipole_key = false /\
  no_center water = Err TypeError /\
  provider_without_center 0 water namd "dipole" fresh = Err TypeError.
Proof.
  do 4 (split; [evaluated|]).
  refine (proj2 (ProviderBehaviour.center_of_mass_but_for_overlap
                   (list string) array unit h5 h5_search h5_retrieve h5_store
                   no_center 0 water namd "dipole" fresh "namd"
                   (VStr "quantum.hdf5") _ _ _) _ TypeError _);
    [evaluated|evaluated|evaluated|done|evaluated].
Defined.

End Observed.

